(** * utilities.py: [clean_money_columns] and [clean_types]

    A shallow embedding of the two pandas transforms of [utilities.py],
    followed by the properties claimed for them.

    Layout: the number parser behind [astype(float)], the pandas data model
    (columns, frames, the primitives the two functions call), the interpreter
    state (a store of frame objects and the console), the two functions, and
    then the lemmas. *)

From Stdlib Require Import ZArith Floats String Ascii List Sorted Lia.
From stdpp Require Import base option list strings.
Import ListNotations.

Local Open Scope Z_scope.

(** ** Text to float64: Python's [float(str)]

    [Series.astype(float)] on an object column calls [float] on every cell.
    The grammar below is CPython's for ASCII text: optional surrounding
    whitespace, an optional sign, then [inf], [infinity] or [nan] in any
    letter case, or a decimal numeral with an optional fraction and an
    optional exponent, where single underscores may separate digits.  The
    value is the binary64 number nearest to the decimal one, ties to even,
    and a numeral too large for binary64 gives an infinity.  Characters
    outside ASCII (other scripts' digits and spaces) are not recognised. *)
Module PyFloat.

Definition is_digit (c : ascii) : bool :=
  let n := nat_of_ascii c in ((48 <=? n) && (n <=? 57))%nat.

Definition is_space (c : ascii) : bool :=
  let n := nat_of_ascii c in ((n =? 32) || ((9 <=? n) && (n <=? 13)))%nat.

Definition is_underscore (c : ascii) : bool := (nat_of_ascii c =? 95)%nat.

Definition digit_val (c : ascii) : Z := Z.of_nat (nat_of_ascii c) - 48.

Definition digits_val (l : list ascii) : Z :=
  fold_left (fun a c => 10 * a + digit_val c) l 0.

Fixpoint span_digits (l : list ascii) : list ascii * list ascii :=
  match l with
  | c :: r =>
      if is_digit c
      then let '(ds, rest) := span_digits r in (c :: ds, rest)
      else ([], l)
  | [] => ([], [])
  end.

(** Underscores are accepted only between two digits; [prev] is the
    character read last. *)
Fixpoint strip_underscores (prev : ascii) (l : list ascii)
  : option (list ascii) :=
  match l with
  | [] => if is_underscore prev then None else Some []
  | c :: r =>
      if is_underscore c then
        if is_digit prev then strip_underscores c r else None
      else if is_underscore prev && negb (is_digit c) then None
      else option_map (cons c) (strip_underscores c r)
  end.

Fixpoint drop_spaces (l : list ascii) : list ascii :=
  match l with
  | c :: r => if is_space c then drop_spaces r else l
  | [] => []
  end.

Definition all_spaces (l : list ascii) : bool := forallb is_space l.

Definition parse_sign (l : list ascii) : bool * list ascii :=
  match l with
  | c :: r =>
      if Ascii.eqb c "-"%char then (true, r)
      else if Ascii.eqb c "+"%char then (false, r)
      else (false, l)
  | [] => (false, l)
  end.

Definition lower (c : ascii) : ascii :=
  let n := nat_of_ascii c in
  if ((65 <=? n) && (n <=? 90))%nat then ascii_of_nat (n + 32) else c.

Fixpoint starts_with_ci (word : list ascii) (l : list ascii)
  : option (list ascii) :=
  match word, l with
  | [], _ => Some l
  | w :: ws, c :: r =>
      if Ascii.eqb w (lower c) then starts_with_ci ws r else None
  | _ :: _, [] => None
  end.

(** The binary64 number nearest to [(-1)^neg * m * 10^e10], for [0 <= m].
    The quotient is taken with more than 64 significant bits and a sticky
    last bit, then rounded once, to nearest even. *)
Definition to_double (neg : bool) (m e10 : Z) : float :=
  if m =? 0 then (if neg then PrimFloat.neg_zero else PrimFloat.zero) else
  let num := if 0 <=? e10 then m * 10 ^ e10 else m in
  let den := if 0 <=? e10 then 1 else 10 ^ (- e10) in
  let s := Z.max 0 (Z.log2 den - Z.log2 num + 66) in
  let q := (num * 2 ^ s) / den in
  let sticky := if (num * 2 ^ s) mod den =? 0 then 0 else 1 in
  SF2Prim (binary_normalize prec emax
             (cond_Zopp neg (2 * q + sticky)) (- s - 1) neg).

(** [inf], [infinity], [nan] after the sign; what follows the word is
    returned. *)
Definition parse_inf_nan (neg : bool) (l : list ascii)
  : option (float * list ascii) :=
  match starts_with_ci (list_ascii_of_string "inf") l with
  | Some r =>
      let inf := if neg then PrimFloat.neg_infinity else PrimFloat.infinity in
      match starts_with_ci (list_ascii_of_string "inity") r with
      | Some r' => Some (inf, r')
      | None => Some (inf, r)
      end
  | None =>
      match starts_with_ci (list_ascii_of_string "nan") l with
      | Some r => Some (PrimFloat.nan, r)
      | None => None
      end
  end.

(** A decimal numeral: digits, an optional point and digits, at least one
    digit in all; an exponent is read only when it has a digit. *)
Definition parse_decimal (neg : bool) (l : list ascii)
  : option (float * list ascii) :=
  let '(ip, r1) := span_digits l in
  let '(fp, r2) :=
    match r1 with
    | c :: r => if Ascii.eqb c "."%char then span_digits r else ([], r1)
    | [] => ([], r1)
    end in
  match ip ++ fp with
  | [] => None
  | ds =>
      let '(ex, r3) :=
        match r2 with
        | c :: r =>
            if Ascii.eqb (lower c) "e"%char then
              let '(eneg, r') := parse_sign r in
              let '(ed, r'') := span_digits r' in
              match ed with
              | [] => (0, r2)
              | _ => (cond_Zopp eneg (digits_val ed), r'')
              end
            else (0, r2)
        | [] => (0, r2)
        end in
      Some (to_double neg (digits_val ds) (ex - Z.of_nat (length fp)), r3)
  end.

Definition parse_chars (l : list ascii) : option float :=
  match strip_underscores "000"%char l with
  | None => None
  | Some l1 =>
      let '(neg, l2) := parse_sign (drop_spaces l1) in
      let parsed :=
        match parse_decimal neg l2 with
        | Some r => Some r
        | None => parse_inf_nan neg l2
        end in
      match parsed with
      | Some (x, rest) => if all_spaces rest then Some x else None
      | None => None
      end
  end.

(** [float(s)]; [None] stands for the [ValueError] Python raises. *)
Definition float_of_str (s : string) : option float :=
  parse_chars (list_ascii_of_string s).

End PyFloat.

(** ** The pandas data model *)

(** A row label of the index. *)
Inductive label :=
| LInt (z : Z)
| LStr (s : string).

(** A column with its element kind (pandas' dtype).  Text cells are Python
    [str] values; [None] is the missing marker of the kinds that have one,
    and a float64 column marks missing cells with NaN. *)
Inductive Series :=
| SObject (v : list (option string))      (* object: text or missing *)
| SString (v : list (option string))      (* the 'string' extension kind *)
| SFloat (v : list float)                 (* float64 *)
| SInt (v : list Z)                       (* int64 *)
| SBool (v : list bool)                   (* bool *)
| SBoolean (v : list (option bool))       (* nullable 'boolean' *)
| SCategory (categories : list string) (codes : list (option nat))
| SDatetime (v : list (option Z)).        (* datetime64[ns] *)

(** A frame: the row index and the columns in order.  Column labels may
    repeat, as pandas allows. *)
Record DataFrame := mkFrame {
  df_index : list label;
  df_cols : list (string * Series)
}.

Inductive exn :=
| AttributeError   (* .str on a column that holds no text *)
| ValueError       (* float() on text that is not a number *)
| TypeError
| IndexError
| ReferenceError.  (* a reference to no object of the store *)

Inductive res (A : Type) :=
| Ok (a : A)
| Raise (e : exn).
Arguments Ok {A} a.
Arguments Raise {A} e.

Definition dtype_name (s : Series) : string :=
  match s with
  | SObject _ => "object"
  | SString _ => "string"
  | SFloat _ => "float64"
  | SInt _ => "int64"
  | SBool _ => "bool"
  | SBoolean _ => "boolean"
  | SCategory _ _ => "category"
  | SDatetime _ => "datetime64[ns]"
  end.

Definition series_len (s : Series) : nat :=
  match s with
  | SObject v | SString v => length v
  | SFloat v => length v
  | SInt v => length v
  | SBool v => length v
  | SBoolean v => length v
  | SCategory _ codes => length codes
  | SDatetime v => length v
  end.

(** *** Text operations *)

(** Python's [str.replace(old, new)] for a literal [old]: occurrences are
    replaced from the left and do not overlap.  [skip] counts the characters
    of a match still to be dropped. *)
Fixpoint replace_from (old new : string) (skip : nat) (s : string) : string :=
  match s with
  | EmptyString => EmptyString
  | String c r =>
      match skip with
      | S k => replace_from old new k r
      | O =>
          if String.prefix old s
          then new +:+ replace_from old new (String.length old - 1) r
          else String c (replace_from old new 0 r)
      end
  end.

Fixpoint interleave (new s : string) : string :=
  match s with
  | EmptyString => new
  | String c r => new +:+ String c (interleave new r)
  end.

Definition py_replace (old new s : string) : string :=
  match old with
  | EmptyString => interleave new s
  | _ => replace_from old new 0 s
  end.

(** The labels of a category column, cell by cell. *)
Definition decode (categories : list string) (codes : list (option nat))
  : list (option string) :=
  map (fun o => match o with Some i => categories !! i | None => None end) codes.

(** [column.str.replace(pat, repl)], with a one-character [pat], which every
    pandas version reads literally.  The accessor exists for text columns
    (and category columns, whose labels are text) and raises on the others;
    missing cells stay missing.  The result of a category column is an
    object column. *)
Definition str_replace (pat repl : string) (s : Series) : res Series :=
  match s with
  | SObject v => Ok (SObject (map (option_map (py_replace pat repl)) v))
  | SString v => Ok (SString (map (option_map (py_replace pat repl)) v))
  | SCategory cats codes =>
      Ok (SObject (map (option_map (py_replace pat repl)) (decode cats codes)))
  | _ => Raise AttributeError
  end.

(** *** Conversions *)

Fixpoint parse_cells (v : list (option string)) : res (list float) :=
  match v with
  | [] => Ok []
  | None :: r =>
      match parse_cells r with
      | Ok fs => Ok (PrimFloat.nan :: fs)
      | Raise e => Raise e
      end
  | Some t :: r =>
      match PyFloat.float_of_str t with
      | None => Raise ValueError
      | Some x =>
          match parse_cells r with
          | Ok fs => Ok (x :: fs)
          | Raise e => Raise e
          end
      end
  end.

Definition float_of_Z (z : Z) : float :=
  PyFloat.to_double (z <? 0) (Z.abs z) 0.

Definition float_of_bool (b : bool) : float :=
  if b then PrimFloat.one else PrimFloat.zero.

(** [column.astype(float)]: the cells of the float64 column.  Text is parsed
    cell by cell and the first cell that is not a number raises; a missing
    cell becomes NaN. *)
Definition astype_float (s : Series) : res (list float) :=
  match s with
  | SObject v | SString v => parse_cells v
  | SFloat v => Ok v
  | SInt v => Ok (map float_of_Z v)
  | SBool v => Ok (map float_of_bool v)
  | SBoolean v =>
      Ok (map (fun o => match o with
                        | Some b => float_of_bool b
                        | None => PrimFloat.nan
                        end) v)
  | SCategory cats codes => parse_cells (decode cats codes)
  | SDatetime _ => Raise TypeError
  end.

(** [column == 0] on a float64 column. *)
Definition eq_zero (v : list float) : list bool :=
  map (fun x => PrimFloat.eqb x PrimFloat.zero) v.

(** [.astype('boolean')] of a bool column. *)
Definition astype_boolean (v : list bool) : Series :=
  SBoolean (map Some v).

(** [pd.isna(column)] on a float64 column. *)
Definition isna (v : list float) : list bool := map PrimFloat.is_nan v.

(** The sorted distinct labels of a text column, and the category column. *)
Fixpoint insert_sorted (s : string) (l : list string) : list string :=
  match l with
  | [] => [s]
  | x :: r =>
      match String.compare s x with
      | Lt => s :: l
      | Eq => l
      | Gt => x :: insert_sorted s r
      end
  end.

Definition categories_of (v : list (option string)) : list string :=
  foldr insert_sorted [] (omap id v).

Fixpoint index_of (s : string) (l : list string) : option nat :=
  match l with
  | [] => None
  | x :: r => if String.eqb s x then Some O else option_map S (index_of s r)
  end.

Definition encode (cats : list string) (v : list (option string))
  : list (option nat) :=
  map (fun o => match o with Some s => index_of s cats | None => None end) v.

(** [column.astype('category')]. *)
Definition astype_category (s : Series) : Series :=
  match s with
  | SObject v | SString v =>
      let cats := categories_of v in SCategory cats (encode cats v)
  | _ => s
  end.

(** *** Reductions and arithmetic of a float64 column *)

Definition not_nan (v : list float) : list float :=
  List.filter (fun x => negb (PrimFloat.is_nan x)) v.

Definition fsum (v : list float) : float :=
  fold_left PrimFloat.add v PrimFloat.zero.

Definition float_of_nat (n : nat) : float :=
  PrimFloat.of_uint63 (Uint63.of_Z (Z.of_nat n)).

(** The mean of the cells that are not missing, NaN when none is left, with
    the cells added from the first to the last.  pandas' [column.mean()] is
    this up to the order in which the library adds the cells, which the two
    functions do not fix; it is a parameter of [clean_money_columns] below
    and this function is an instance of it. *)
Definition seq_mean (v : list float) : float :=
  let xs := not_nan v in
  match xs with
  | [] => PrimFloat.nan
  | _ => PrimFloat.div (fsum xs) (float_of_nat (length xs))
  end.

(** The sample standard deviation (divisor [count - 1]) of the cells that
    are not missing, NaN with fewer than two of them, with the cells added
    from the first to the last: an instance of [column.std()]. *)
Definition seq_std (v : list float) : float :=
  let xs := not_nan v in
  let n := length xs in
  if (n <=? 1)%nat then PrimFloat.nan else
  let avg := PrimFloat.div (fsum xs) (float_of_nat n) in
  let sqr := map (fun x => PrimFloat.mul (PrimFloat.sub avg x)
                                         (PrimFloat.sub avg x)) xs in
  PrimFloat.sqrt (PrimFloat.div (fsum sqr) (float_of_nat (n - 1))).

(** *** Frames *)

Definition df_names (F : DataFrame) : list string := map fst (df_cols F).

(** The column at position [i]. *)
Definition df_ixs (F : DataFrame) (i : nat) : option Series :=
  option_map snd (df_cols F !! i).

(** The first column labelled [k]. *)
Definition df_get (F : DataFrame) (k : string) : option Series :=
  option_map snd (List.find (fun c => String.eqb (fst c) k) (df_cols F)).

(** [f] applied to a column when its label is [k]. *)
Definition on_label (k : string) (f : Series -> Series) (c : string * Series)
  : string * Series :=
  if String.eqb (fst c) k then (fst c, f (snd c)) else c.

(** [F[k] = v]: every column labelled [k] is replaced where it stands; a new
    label is appended as the last column. *)
Definition df_setitem (k : string) (v : Series) (F : DataFrame) : DataFrame :=
  mkFrame (df_index F)
    (if existsb (String.eqb k) (df_names F)
     then map (on_label k (fun _ => v)) (df_cols F)
     else df_cols F ++ [(k, v)]).

Fixpoint mask_with {A} (na : A) (mask : list bool) (v : list A) : list A :=
  match mask, v with
  | m :: ms, x :: xs => (if m then na else x) :: mask_with na ms xs
  | _, _ => v
  end.

(** The cells of [s] under [mask] set to missing.  The program applies this
    to nullable boolean columns only; int64 and bool columns, which pandas
    would first convert to a kind with a missing marker, are left as they
    are. *)
Definition series_setna (mask : list bool) (s : Series) : Series :=
  match s with
  | SObject v => SObject (mask_with None mask v)
  | SString v => SString (mask_with None mask v)
  | SFloat v => SFloat (mask_with PrimFloat.nan mask v)
  | SBoolean v => SBoolean (mask_with None mask v)
  | SCategory cats codes => SCategory cats (mask_with None mask codes)
  | SDatetime v => SDatetime (mask_with None mask v)
  | SInt _ | SBool _ => s
  end.

(** [F.loc[mask, k] = pd.NA]. *)
Definition df_loc_setna (mask : list bool) (k : string) (F : DataFrame)
  : DataFrame :=
  mkFrame (df_index F) (map (on_label k (series_setna mask)) (df_cols F)).

(** A Python dict from column labels to columns: assigning to a key that is
    present keeps its place, a new key goes last. *)
Definition dict := list (string * Series).

Definition dict_set (k : string) (v : Series) (d : dict) : dict :=
  if existsb (String.eqb k) (map fst d)
  then map (on_label k (fun _ => v)) d
  else d ++ [(k, v)].

(** [pd.DataFrame(d, index=idx)] for a dict of columns that carry [idx]. *)
Definition frame_of_dict (d : dict) (idx : list label) : DataFrame :=
  mkFrame idx d.

(** [pd.concat(frames, axis=1)] for frames that share one index: the columns
    side by side. *)
Definition concat_columns (idx : list label) (Fs : list DataFrame)
  : DataFrame :=
  mkFrame idx (concat (map df_cols Fs)).

(** Left-aligned padding, [f"{s:<n}"]. *)
Definition ljust (n : nat) (s : string) : string :=
  s +:+ string_of_list_ascii (repeat " "%char (n - String.length s)).

(** ** The interpreter state

    Frames are Python objects: a variable holds a reference, and assigning to
    a column of a frame changes the object every holder of the reference
    sees.  The store maps references to frames; [stdout] collects the lines
    printed. *)
Abbreviation ref := nat (only parsing).

Record heap := mkHeap {
  frames : list DataFrame;
  stdout : list string
}.

(** Computations that read and write the store and may raise. *)
Definition M (A : Type) : Type := heap -> res A * heap.

Definition ret {A} (a : A) : M A := fun h => (Ok a, h).

Definition bind {A B} (m : M A) (k : A -> M B) : M B :=
  fun h =>
    match m h with
    | (Ok a, h') => k a h'
    | (Raise e, h') => (Raise e, h')
    end.

Definition raise {A} (e : exn) : M A := fun h => (Raise e, h).

Definition lift {A} (r : res A) : M A := fun h => (r, h).

Notation "x <- m ;; k" := (bind m (fun x => k))
  (at level 100, m at next level, right associativity).
Notation "m ;;; k" := (bind m (fun _ => k))
  (at level 100, right associativity).

Definition get_frame (d : ref) : M DataFrame :=
  fun h =>
    match frames h !! d with
    | Some F => (Ok F, h)
    | None => (Raise ReferenceError, h)
    end.

(** A change of the frame object [d], in place. *)
Definition update_frame (d : ref) (f : DataFrame -> DataFrame) : M unit :=
  fun h =>
    match frames h !! d with
    | Some F => (Ok tt, mkHeap (<[d := f F]> (frames h)) (stdout h))
    | None => (Raise ReferenceError, h)
    end.

(** A new frame object. *)
Definition new_frame (F : DataFrame) : M ref :=
  fun h => (Ok (length (frames h)), mkHeap (frames h ++ [F]) (stdout h)).

Definition print (line : string) : M unit :=
  fun h => (Ok tt, mkHeap (frames h) (stdout h ++ [line])).

Definition when (b : bool) (m : M unit) : M unit :=
  if b then m else ret tt.

(** [dataset[k] = v] and [dataset.loc[mask, k] = pd.NA]. *)
Definition setitem (d : ref) (k : string) (v : Series) : M unit :=
  update_frame d (df_setitem k v).

Definition loc_setna (d : ref) (mask : list bool) (k : string) : M unit :=
  update_frame d (df_loc_setna mask k).

(** The column at position [i] of the frame as it is now. *)
Definition ixs (d : ref) (i : nat) : M Series :=
  F <- get_frame d ;;
  match df_ixs F i with
  | Some s => ret s
  | None => raise IndexError
  end.

(** [for name, column in dataset.items(): ...] with the variables the body
    assigns threaded through as [acc].  The labels are those the frame has
    when the loop starts; each column is fetched, by position, when its turn
    comes, so it shows what earlier iterations wrote. *)
Fixpoint for_items_from {S} (d : ref) (i : nat) (names : list string)
    (body : S -> string -> Series -> M S) (acc : S) : M S :=
  match names with
  | [] => ret acc
  | name :: rest =>
      column <- ixs d i ;;
      acc' <- body acc name column ;;
      for_items_from d (Datatypes.S i) rest body acc'
  end.

Definition for_items {S} (d : ref)
    (body : S -> string -> Series -> M S) (acc : S) : M S :=
  F <- get_frame d ;;
  for_items_from d 0 (df_names F) body acc.

(** ** utilities.py *)
Section Utilities.

(** [np.log], numpy's natural logarithm on float64. *)
Variable np_log : float -> float.

(** [column.mean()] and [column.std()] on a float64 column: pandas' mean
    and sample standard deviation (ddof = 1, the default) of the cells that
    are not missing.  Their float64 values depend on the order in which the
    library adds the cells. *)
Variables mean std : list float -> float.

(** The body of [if name in money_columns:], for one column; the value is
    the [column] variable, float64 by then, as the [print] below sees it. *)
Definition money_column (dataset : ref) (log scale indicator : bool)
    (eps : float) (name : string) (column : Series) : M Series :=
  column <- lift (str_replace "$" "" column) ;;
  column <- lift (str_replace "," "" column) ;;
  column <- lift (astype_float column) ;;
  when indicator
    (setitem dataset (name +:+ "_ind") (astype_boolean (eq_zero column)) ;;;
     loc_setna dataset (isna column) (name +:+ "_ind")) ;;;
  let column :=
    if log then map (fun v => np_log (PrimFloat.add v eps)) column
    else column in
  let column :=
    if scale
    then let mu := mean column in
         let sigma := std column in
         map (fun v => PrimFloat.div (PrimFloat.sub v mu) sigma) column
    else column in
  setitem dataset name (SFloat column) ;;;
  ret (SFloat column).

Definition money_line (name : string) (column : Series) : string :=
  name +:+ " is a " +:+ dtype_name column +:+ " column".

(** The body of the loop of [clean_money_columns]. *)
Definition money_body (dataset : ref) (money_columns : list string)
    (log scale indicator verbose : bool) (eps : float)
    (_ : unit) (name : string) (column : Series) : M unit :=
  column <- (if bool_decide (name ∈ money_columns)
             then money_column dataset log scale indicator eps name column
             else ret column) ;;
  when verbose (print (money_line name column)).

Definition clean_money_columns (dataset : ref) (money_columns : list string)
    (log scale indicator verbose : bool) : M ref :=
  let eps := 1%float in
  for_items dataset
    (money_body dataset money_columns log scale indicator verbose eps) tt ;;;
  ret dataset.

Definition is_text (s : Series) : bool :=
  match s with SObject _ | SString _ => true | _ => false end.

Definition is_bool (s : Series) : bool :=
  match s with SBool _ | SBoolean _ => true | _ => false end.

Definition type_line (name : string) (column : Series) : string :=
  ljust 10 name +:+ " is a " +:+ ljust 8 (dtype_name column) +:+ " column".

(** The three dicts the loop of [clean_types] fills. *)
Record buckets := mkBuckets {
  categoricals : dict;
  numericals : dict;
  booleans : dict
}.

(** The body of the loop of [clean_types]. *)
Definition types_body (verbose : bool)
    (b : buckets) (name : string) (column : Series) : M buckets :=
  if is_text column then
    let c := astype_category column in
    when verbose (print (type_line name c)) ;;;
    ret (mkBuckets (dict_set name c (categoricals b))
                   (numericals b) (booleans b))
  else if is_bool column then
    when verbose (print (type_line name column)) ;;;
    ret (mkBuckets (categoricals b) (numericals b)
                   (dict_set name column (booleans b)))
  else
    when verbose (print (type_line name column)) ;;;
    ret (mkBuckets (categoricals b)
                   (dict_set name column (numericals b)) (booleans b)).

Definition clean_types (dataset : ref) (verbose : bool) : M ref :=
  b <- for_items dataset (types_body verbose) (mkBuckets [] [] []) ;;
  F <- get_frame dataset ;;
  n <- new_frame (frame_of_dict (numericals b) (df_index F)) ;;
  c <- new_frame (frame_of_dict (categoricals b) (df_index F)) ;;
  o <- new_frame (frame_of_dict (booleans b) (df_index F)) ;;
  Fn <- get_frame n ;;
  Fc <- get_frame c ;;
  Fo <- get_frame o ;;
  new_frame (concat_columns (df_index F) [Fn; Fc; Fo]).

End Utilities.

(** ** Notions used in the statements *)

(** The text of a column with every [$] and [,] removed, and its cells as
    float64: the first three statements of the money branch. *)
Definition strip_money (s : Series) : res Series :=
  match str_replace "$" "" s with
  | Ok c => str_replace "," "" c
  | Raise e => Raise e
  end.

Definition parsed_column (s : Series) : res (list float) :=
  match strip_money s with
  | Ok c => astype_float c
  | Raise e => Raise e
  end.

(** One cell: text with [$] and [,] removed, then [float]. *)
Definition parse_money (t : string) : option float :=
  PyFloat.float_of_str (py_replace "," "" (py_replace "$" "" t)).

(** The [log] and [scale] steps on the parsed cells. *)
Definition log_step (np_log : float -> float) (v : list float) : list float :=
  map (fun x => np_log (PrimFloat.add x 1%float)) v.

Definition scale_step (mean std : list float -> float) (v : list float)
  : list float :=
  map (fun x => PrimFloat.div (PrimFloat.sub x (mean v)) (std v)) v.

Definition transform (np_log : float -> float)
    (mean std : list float -> float) (log scale : bool)
    (v : list float) : list float :=
  let v1 := if log then log_step np_log v else v in
  if scale then scale_step mean std v1 else v1.

(** The indicator of the parsed cells: missing where the cell is missing,
    else whether it equals zero. *)
Definition indicator_of (v : list float) : Series :=
  SBoolean (map (fun x => if PrimFloat.is_nan x then None
                          else Some (PrimFloat.eqb x PrimFloat.zero)) v).

(** The frame after the money branch has run for the column labelled
    [name] whose cells parse to [v]. *)
Definition money_write (np_log : float -> float)
    (mean std : list float -> float) (log scale indicator : bool)
    (name : string) (v : list float) (F : DataFrame) : DataFrame :=
  df_setitem name (SFloat (transform np_log mean std log scale v))
    (if indicator
     then df_loc_setna (isna v) (name +:+ "_ind")
            (df_setitem (name +:+ "_ind") (astype_boolean (eq_zero v)) F)
     else F).

(** The labels [clean_money_columns] may write: the money columns and,
    with [indicator], their [_ind] siblings. *)
Definition indicator_label (money : list string) (ind : bool) (n : string)
  : Prop :=
  ind = true /\ exists m, m ∈ money /\ n = m +:+ "_ind".

Definition written (money : list string) (ind : bool) (n : string) : Prop :=
  n ∈ money \/ indicator_label money ind n.

(** [F'] is [F] up to the columns that may be written: same index, the
    labels of [F] in place followed by indicator labels only, and every other
    column as it was. *)
Definition frame_kept (money : list string) (ind : bool) (F F' : DataFrame)
  : Prop :=
  df_index F' = df_index F /\
  (exists extra, df_names F' = df_names F ++ extra /\
                 Forall (indicator_label money ind) extra) /\
  (forall i n s, df_cols F !! i = Some (n, s) -> ~ written money ind n ->
                 df_cols F' !! i = Some (n, s)).

Definition is_ok {A} (r : res A) : bool :=
  match r with Ok _ => true | Raise _ => false end.

(** No money column of the frame carries the indicator label of a money
    column of the frame. *)
Definition no_clash (money : list string) (F : DataFrame) : bool :=
  forallb (fun m =>
      implb (bool_decide (m ∈ money))
        (forallb (fun n => negb (bool_decide (n ∈ money) &&
                                 String.eqb n (m +:+ "_ind")))
           (df_names F)))
    (df_names F).

(** A frame [clean_money_columns] runs through: labels are distinct, the
    cells of every money column are text that parses or missing, and, with
    [indicator], no money column is the indicator of another. *)
Definition money_ready (money : list string) (ind : bool) (F : DataFrame)
  : bool :=
  bool_decide (NoDup (df_names F)) &&
  forallb (fun c => implb (bool_decide (fst c ∈ money))
                      (is_ok (parsed_column (snd c)))) (df_cols F) &&
  implb ind (no_clash money F).

(** With [indicator], no money column of the frame has [n] for its
    indicator label, so the indicator of another column is not written over
    the column labelled [n]. *)
Definition unclobbered (money : list string) (ind : bool) (F : DataFrame)
    (n : string) : Prop :=
  ind = true ->
  forall m, m ∈ money -> In m (df_names F) -> n <> m +:+ "_ind".

(** What a run that returns leaves in [F'] for the money columns of [F]:
    the cells parse, the parsed cells after the [log] and [scale] steps stand
    under the same label at the same position (unless the indicator of
    another money column carries that label) and, with [indicator], the
    indicator of the parsed cells stands under the label followed by
    [_ind]. *)
Definition money_done (np_log : float -> float)
    (mean std : list float -> float) (log scale ind : bool)
    (money : list string) (F F' : DataFrame) : Prop :=
  forall k n s, df_cols F !! k = Some (n, s) -> n ∈ money ->
    exists v, parsed_column s = Ok v /\
      (unclobbered money ind F n ->
       df_cols F' !! k = Some (n, SFloat (transform np_log mean std
           log scale v))) /\
      (ind = true -> df_get F' (n +:+ "_ind") = Some (indicator_of v)).

(** The three kinds of [clean_types], by the order of its tests. *)
Inductive kind := Numeric | Categorical | Boolean.

Definition kind_of (s : Series) : kind :=
  if is_text s then Categorical else if is_bool s then Boolean else Numeric.

Definition kind_eqb (a b : kind) : bool :=
  match a, b with
  | Numeric, Numeric | Categorical, Categorical | Boolean, Boolean => true
  | _, _ => false
  end.

(** The columns of one kind, in the order they have in the frame. *)
Definition group (K : kind) (cols : list (string * Series))
  : list (string * Series) :=
  List.filter (fun c => kind_eqb (kind_of (snd c)) K) cols.

Definition as_category (c : string * Series) : string * Series :=
  (fst c, astype_category (snd c)).

(** The dicts after one more column. *)
Definition bucket_add (b : buckets) (c : string * Series) : buckets :=
  match kind_of (snd c) with
  | Categorical =>
      mkBuckets (dict_set (fst c) (astype_category (snd c)) (categoricals b))
                (numericals b) (booleans b)
  | Boolean =>
      mkBuckets (categoricals b) (numericals b)
                (dict_set (fst c) (snd c) (booleans b))
  | Numeric =>
      mkBuckets (categoricals b)
                (dict_set (fst c) (snd c) (numericals b)) (booleans b)
  end.

(** The column as [clean_types] reports and stores it. *)
Definition retyped (s : Series) : Series :=
  if is_text s then astype_category s else s.

(** The frame [clean_types] assembles from the dicts. *)
Definition assembled (idx : list label) (b : buckets) : DataFrame :=
  mkFrame idx (numericals b ++ categoricals b ++ booleans b).

(** The text of a column, cell by cell, for the kinds that hold text. *)
Definition text_cells (s : Series) : option (list (option string)) :=
  match s with
  | SObject v | SString v => Some v
  | SCategory cats codes => Some (decode cats codes)
  | _ => None
  end.

(** Every column has one cell for each row label. *)
Definition aligned (F : DataFrame) : Prop :=
  Forall (fun c => series_len (snd c) = length (df_index F)) (df_cols F).

(** The frame of the column-order example: text, integer, boolean and
    floating point, in this order. *)
Definition example_types : DataFrame :=
  mkFrame [LInt 0; LInt 1; LInt 2]
    [("text_col", SObject [Some "b"; None; Some "a"]);
     ("int_col", SInt [3; 1; 2]);
     ("bool_col", SBool [true; false; true]);
     ("float_col", SFloat [0.5%float; 2%float; PrimFloat.nan])].

(** The currency format: an optional [$], then digits with [,] anywhere
    among them (at least one digit), then optionally a point and digits. *)
Fixpoint span_while {A} (p : A -> bool) (l : list A) : list A * list A :=
  match l with
  | c :: r =>
      if p c then let '(a, b) := span_while p r in (c :: a, b) else ([], l)
  | [] => ([], [])
  end.

Definition currency_body (l : list ascii) : bool :=
  let '(ip, rest) :=
    span_while (fun c => PyFloat.is_digit c || Ascii.eqb c ","%char) l in
  existsb PyFloat.is_digit ip &&
  match rest with
  | [] => true
  | c :: fs => Ascii.eqb c "."%char && forallb PyFloat.is_digit fs
  end.

Definition is_currency (t : string) : bool :=
  match list_ascii_of_string t with
  | c :: r =>
      if Ascii.eqb c "$"%char then currency_body r else currency_body (c :: r)
  | [] => false
  end.

(** The characters [clean_money_columns] keeps. *)
Definition keep_char (x : ascii) : bool :=
  negb (Ascii.eqb x "$") && negb (Ascii.eqb x ",").

(** The characters after the first point. *)
Fixpoint after_point (l : list ascii) : list ascii :=
  match l with
  | c :: r => if Ascii.eqb c "."%char then r else after_point r
  | [] => []
  end.

(** The number a currency text denotes: its digits read as one decimal
    numeral, scaled by the number of digits after the point, as the nearest
    float64. *)
Definition currency_value (t : string) : float :=
  let l := list_ascii_of_string t in
  PyFloat.to_double false
    (PyFloat.digits_val (List.filter PyFloat.is_digit l))
    (- Z.of_nat (length (after_point l))).

Definition currency_cell (o : option string) : float :=
  match o with
  | Some t => currency_value t
  | None => PrimFloat.nan
  end.

(** A text column (object or string) whose cells are missing or in the
    currency format. *)
Definition currency_column (s : Series) : bool :=
  match s with
  | SObject v | SString v =>
      forallb (fun o => match o with Some t => is_currency t | None => true end)
        v
  | _ => false
  end.

Definition plain_cells (s : Series) : list (option string) :=
  match s with
  | SObject v | SString v => v
  | _ => []
  end.

(** A frame of currency text: labels are distinct, every money column is a
    currency column and, with [indicator], no money column is the indicator
    of another. *)
Definition currency_ready (money : list string) (ind : bool) (F : DataFrame)
  : bool :=
  bool_decide (NoDup (df_names F)) &&
  forallb (fun c => implb (bool_decide (fst c ∈ money))
                      (currency_column (snd c))) (df_cols F) &&
  implb ind (no_clash money F).

(** A function that, like the logarithm, maps NaN to NaN; it stands for
    [np.log] where a concrete function is needed. *)
Definition sample_log : float -> float := PrimFloat.sqrt.

(** Frames of the worked examples: one money column [price]. *)
Definition price_frame (cells : list (option string)) : DataFrame :=
  mkFrame (map (fun i => LInt (Z.of_nat i)) (seq 0 (length cells)))
    [("price", SObject cells)].

Definition price_store (cells : list (option string)) : heap :=
  mkHeap [price_frame cells] [].

(** The kinds [clean_money_columns] writes: float64 for the money column,
    nullable boolean for its indicator. *)
Definition is_result (s : Series) : bool :=
  match s with SFloat _ | SBoolean _ => true | _ => false end.

(** The label [n] is the indicator label of a money column of the frame:
    with [indicator], [clean_money_columns] writes under it. *)
Definition sibling (money : list string) (ind : bool) (F : DataFrame)
    (n : string) : Prop :=
  ind = true /\
  exists m, m ∈ money /\ In m (df_names F) /\ n = m +:+ "_ind".

(** [F'] is [F] up to the columns [clean_money_columns] writes: same index,
    the labels of [F] in place, followed only by indicator labels of money
    columns of [F] that [F] did not have, and every column as it was unless
    it is named in [money_columns] or is under such an indicator label. *)
Definition frame_spared (money : list string) (ind : bool)
    (F F' : DataFrame) : Prop :=
  df_index F' = df_index F /\
  (exists extra,
     df_names F' = df_names F ++ extra /\
     Forall (fun n => sibling money ind F n /\ ~ In n (df_names F)) extra) /\
  (forall i n s, df_cols F !! i = Some (n, s) ->
                 ~ n ∈ money -> ~ sibling money ind F n ->
                 df_cols F' !! i = Some (n, s)).



(** A frame with a column under the indicator label of its money column,
    and a frame where a money column is under the indicator label of
    another. *)
Definition tagged_frame : DataFrame :=
  mkFrame [LInt 0]
    [("price", SObject [Some "$1"]);
     ("price_ind", SObject [Some "keep me"])].

Definition clash_frame : DataFrame :=
  mkFrame [LInt 0; LInt 1]
    [("a_ind", SObject [Some "$5"; Some "$7"]);
     ("a", SObject [Some "$0"; Some "$1"])].


Definition twin_between : DataFrame :=
  mkFrame [LInt 0] [("a", SInt [1]); ("b", SInt [2]); ("a", SInt [3])].

(** The store after an optional printed line. *)
Definition say (verbose : bool) (line : string) (h : heap) : heap :=
  if verbose then mkHeap (frames h) (stdout h ++ [line]) else h.

(** *** Notions of the further properties *)

(** A computation that leaves the console as it was, however it ends. *)
Definition silent {A} (m : M A) : Prop :=
  forall h, stdout (snd (m h)) = stdout h.

(** The lines the two functions print for a frame, one for each column. *)
Definition money_lines (F : DataFrame) : list string :=
  map (fun c => money_line (fst c) (snd c)) (df_cols F).

Definition type_lines (F : DataFrame) : list string :=
  map (fun c => type_line (fst c) (retyped (snd c))) (df_cols F).

(** The label [n'] has been written when the loop of [clean_money_columns]
    reaches position [i]: a money column before [i] carries it or, with
    [indicator], it is the indicator label of one. *)
Definition met (money : list string) (ind : bool) (F : DataFrame) (i : nat)
    (n' : string) : Prop :=
  exists k m, (k < i)%nat /\ df_names F !! k = Some m /\ m ∈ money /\
              (n' = m \/ (ind = true /\ n' = m +:+ "_ind")).

(** A frame with two money columns between two others. *)
Definition ledger : DataFrame :=
  mkFrame [LInt 0; LInt 1]
    [("id", SInt [7; 8]);
     ("price", SObject [Some "$1,000"; Some "$0"]);
     ("tax", SString [Some "2.5"; None]);
     ("note", SObject [Some "paid"; None])].

(** The frame [F1] that the loop of [clean_money_columns] has made of [F]
    when it reaches position [i]: the index and the labels of [F] are in
    place; every position holds its column or a result; the labels written
    so far hold results and the others hold what they held; no money column
    met so far was under a label written before it; and the money columns
    met so far are done. *)
Definition money_progress (np_log : float -> float)
    (mean std : list float -> float) (log scale ind : bool)
    (money : list string) (F : DataFrame) (i : nat) (F1 : DataFrame) : Prop :=
  df_index F1 = df_index F /\
  (exists extra, df_names F1 = df_names F ++ extra) /\
  (forall k n s, df_cols F !! k = Some (n, s) ->
     exists s1, df_cols F1 !! k = Some (n, s1) /\
                (s1 = s \/ is_result s1 = true)) /\
  (forall k n s1, df_cols F1 !! k = Some (n, s1) -> met money ind F i n ->
                  is_result s1 = true) /\
  (forall k n s, df_cols F !! k = Some (n, s) -> ~ met money ind F i n ->
                 df_cols F1 !! k = Some (n, s)) /\
  (forall k n, (k < i)%nat -> df_names F !! k = Some n -> n ∈ money ->
               ~ met money ind F k n) /\
  (forall k n s, (k < i)%nat -> df_cols F !! k = Some (n, s) -> n ∈ money ->
     exists v, parsed_column s = Ok v /\
       (unclobbered money ind F n ->
        df_cols F1 !! k = Some (n, SFloat (transform np_log mean std
            log scale v))) /\
       (ind = true -> df_get F1 (n +:+ "_ind") = Some (indicator_of v))).

(** Two computations that cannot be told apart by their results and by the
    frames they leave, from stores that hold the same frames. *)
Definition alike {A} (m1 m2 : M A) : Prop :=
  forall h1 h2, frames h1 = frames h2 ->
    fst (m1 h1) = fst (m2 h2) /\
    frames (snd (m1 h1)) = frames (snd (m2 h2)).

(** A frame whose second money column does not parse, and a frame where a
    text label repeats. *)
Definition half_ledger : DataFrame :=
  mkFrame [LInt 0; LInt 1]
    [("price", SObject [Some "$1"; Some "2"]);
     ("cost", SObject [Some "n/a"; Some "3"])].

Definition twin_text : DataFrame :=
  mkFrame [LInt 0] [("a", SObject [Some "1"]); ("a", SObject [Some "2"])].

(** The parsed cells of a column, and the two columns a money column
    becomes: the float64 column under its label and its indicator. *)
Definition cells_of (c : string * Series) : list float :=
  match parsed_column (snd c) with
  | Ok v => v
  | Raise _ => []
  end.

Definition money_conv (np_log : float -> float)
    (mean std : list float -> float) (log scale : bool)
    (money : list string) (c : string * Series) : string * Series :=
  if bool_decide (fst c ∈ money)
  then (fst c, SFloat (transform np_log mean std log scale (cells_of c)))
  else c.

Definition money_ind_col (c : string * Series) : string * Series :=
  (fst c +:+ "_ind", indicator_of (cells_of c)).

(** The frame when the first [k] columns have had their turn: these are
    converted, the others are as they were, and the indicators of the
    money columns among the first [k] follow. *)
Definition money_stage (np_log : float -> float)
    (mean std : list float -> float) (log scale ind : bool)
    (money : list string) (k : nat) (F : DataFrame) : DataFrame :=
  mkFrame (df_index F)
    (map (money_conv np_log mean std log scale money) (take k (df_cols F)) ++
     drop k (df_cols F) ++
     if ind
     then map money_ind_col
            (List.filter (fun c => bool_decide (fst c ∈ money))
               (take k (df_cols F)))
     else []).

(** ** Lemmas *)

(** *** The monad *)

Lemma bind_lift {A B} (r : res A) (k : A -> M B) h :
  bind (lift r) k h = match r with Ok a => k a h | Raise e => (Raise e, h) end.
Proof. unfold bind, lift. destruct r; reflexivity. Qed.

Lemma get_frame_run d h F :
  frames h !! d = Some F -> get_frame d h = (Ok F, h).
Proof. intros H. unfold get_frame. rewrite H. reflexivity. Qed.

Lemma update_frame_run d f h F :
  frames h !! d = Some F ->
  update_frame d f h = (Ok tt, mkHeap (<[d := f F]> (frames h)) (stdout h)).
Proof. intros H. unfold update_frame. rewrite H. reflexivity. Qed.

Lemma frames_insert_lookup (l : list DataFrame) d F F' :
  l !! d = Some F -> <[d := F']> l !! d = Some F'.
Proof. intros H. apply list_lookup_insert_eq. eapply lookup_lt_Some, H. Qed.

Lemma ixs_run d i h F s :
  frames h !! d = Some F -> df_ixs F i = Some s -> ixs d i h = (Ok s, h).
Proof.
  intros H Hs. unfold ixs, bind. rewrite (get_frame_run _ _ _ H), Hs.
  reflexivity.
Qed.

(** *** One money column *)

Lemma setna_indicator v :
  series_setna (isna v) (astype_boolean (eq_zero v)) = indicator_of v.
Proof.
  unfold astype_boolean, indicator_of, isna, eq_zero. cbn [series_setna].
  f_equal. induction v as [|x v IH]; [reflexivity|].
  cbn [map mask_with]. rewrite IH. reflexivity.
Qed.

Section MoneyColumn.
Variable np_log : float -> float.
Variables mean std : list float -> float.

Lemma money_column_run d log scale ind name column h F :
  frames h !! d = Some F ->
  money_column np_log mean std d log scale ind 1%float name column h =
    match parsed_column column with
    | Ok v =>
        (Ok (SFloat (transform np_log mean std log scale v)),
         mkHeap (<[d := money_write np_log mean std log scale ind name v F]>
                   (frames h)) (stdout h))
    | Raise e => (Raise e, h)
    end.
Proof.
  intros HF. unfold money_column, parsed_column, strip_money.
  rewrite bind_lift. destruct (str_replace "$" "" column) as [c1|e];
    [|reflexivity].
  rewrite bind_lift. destruct (str_replace "," "" c1) as [c2|e];
    [|reflexivity].
  rewrite bind_lift. destruct (astype_float c2) as [v|e]; [|reflexivity].
  unfold money_write, transform, log_step, scale_step.
  destruct ind; unfold when, setitem, loc_setna, bind.
  - rewrite (update_frame_run _ _ _ _ HF).
    erewrite update_frame_run by (cbn [frames]; eapply frames_insert_lookup, HF).
    cbn [frames stdout]. rewrite list_insert_insert_eq.
    erewrite update_frame_run by (cbn [frames]; eapply frames_insert_lookup, HF).
    cbn [frames stdout]. rewrite list_insert_insert_eq. reflexivity.
  - unfold ret. rewrite (update_frame_run _ _ _ _ HF). reflexivity.
Qed.

End MoneyColumn.

(** *** Strings and labelled columns *)

Lemma chars_app a b :
  list_ascii_of_string (a +:+ b) =
  list_ascii_of_string a ++ list_ascii_of_string b.
Proof.
  induction a as [|c a IH]; [reflexivity|].
  simpl. f_equal. exact IH.
Qed.

Lemma append_inj_r a b c : a +:+ c = b +:+ c -> a = b.
Proof.
  intros H. apply (f_equal list_ascii_of_string) in H.
  rewrite !chars_app in H. apply app_inv_tail in H.
  rewrite <- (string_of_list_ascii_of_string a),
          <- (string_of_list_ascii_of_string b).
  now rewrite H.
Qed.

Lemma append_ne_self a : a +:+ "_ind" <> a.
Proof.
  intros H. apply (f_equal list_ascii_of_string) in H.
  rewrite chars_app in H. apply (f_equal (@length ascii)) in H.
  rewrite length_app in H. cbn in H. lia.
Qed.

Lemma on_label_fst k f c : fst (on_label k f c) = fst c.
Proof. unfold on_label. destruct (String.eqb (fst c) k); reflexivity. Qed.

Lemma on_label_other k f c : fst c <> k -> on_label k f c = c.
Proof.
  intros H. unfold on_label.
  destruct (String.eqb_spec (fst c) k); [contradiction|reflexivity].
Qed.

Lemma on_label_same f n s : on_label n f (n, s) = (n, f s).
Proof. unfold on_label. cbn. now rewrite String.eqb_refl. Qed.

Lemma lookup_map {A B} (f : A -> B) (l : list A) i :
  map f l !! i = option_map f (l !! i).
Proof.
  revert i. induction l as [|x l IH]; intros [|i]; cbn; try reflexivity.
  apply IH.
Qed.

Lemma names_on_label k f (l : list (string * Series)) :
  map fst (map (on_label k f) l) = map fst l.
Proof.
  induction l as [|c l IH]; cbn; [reflexivity|].
  now rewrite on_label_fst, IH.
Qed.

Lemma existsb_eqb_In k (l : list string) :
  existsb (String.eqb k) l = true <-> In k l.
Proof.
  rewrite existsb_exists. split.
  - intros (x & Hx & He). apply String.eqb_eq in He. now subst.
  - intros H. exists k. split; [assumption|apply String.eqb_refl].
Qed.

(** [F[k] = v] at the positions the frame already has, and on the labels. *)
Lemma setitem_lookup k v F i c :
  df_cols F !! i = Some c ->
  df_cols (df_setitem k v F) !! i = Some (on_label k (fun _ => v) c).
Proof.
  intros H. unfold df_setitem. cbn [df_cols].
  destruct (existsb (String.eqb k) (df_names F)) eqn:E.
  - rewrite lookup_map, H. reflexivity.
  - rewrite lookup_app_l by (eapply lookup_lt_Some, H). rewrite H.
    rewrite on_label_other; [reflexivity|].
    intros Hk. assert (In k (df_names F)) as Hin.
    { unfold df_names. rewrite <- Hk. apply in_map.
      apply list_elem_of_In. eapply list_elem_of_lookup_2, H. }
    apply existsb_eqb_In in Hin. congruence.
Qed.

Lemma setitem_names k v F :
  df_names (df_setitem k v F) =
  df_names F ++ (if existsb (String.eqb k) (df_names F) then [] else [k]).
Proof.
  unfold df_setitem, df_names. cbn [df_cols].
  destruct (existsb (String.eqb k) (map fst (df_cols F))).
  - now rewrite names_on_label, app_nil_r.
  - now rewrite map_app.
Qed.

Lemma loc_setna_lookup mask k F i c :
  df_cols F !! i = Some c ->
  df_cols (df_loc_setna mask k F) !! i =
  Some (on_label k (series_setna mask) c).
Proof. intros H. cbn. rewrite lookup_map, H. reflexivity. Qed.

Lemma loc_setna_names mask k F :
  df_names (df_loc_setna mask k F) = df_names F.
Proof. unfold df_names. cbn. apply names_on_label. Qed.

(** *** The loop over the columns *)

Lemma for_items_from_rule {S} d (body : S -> string -> Series -> M S)
    (I : nat -> S -> heap -> Prop) (E : exn -> heap -> Prop) names :
  forall i acc h,
    I i acc h ->
    (forall k name acc h,
        names !! k = Some name -> I (i + k)%nat acc h ->
        match bind (ixs d (i + k)) (body acc name) h with
        | (Ok acc', h') => I (Datatypes.S (i + k)) acc' h'
        | (Raise e, h') => E e h'
        end) ->
    match for_items_from d i names body acc h with
    | (Ok acc', h') => I (i + length names)%nat acc' h'
    | (Raise e, h') => E e h'
    end.
Proof.
  induction names as [|name rest IH]; intros i acc h HI Hstep.
  - cbn. now rewrite Nat.add_0_r.
  - cbn [for_items_from].
    pose proof (Hstep 0%nat name acc h eq_refl) as H0.
    rewrite Nat.add_0_r in H0. specialize (H0 HI).
    unfold bind in *. destruct (ixs d i h) as [[column|e] h1]; [|exact H0].
    destruct (body acc name column h1) as [[acc'|e] h2]; [|exact H0].
    cbn [length]. replace (i + Datatypes.S (length rest))%nat
      with (Datatypes.S i + length rest)%nat by lia.
    apply IH; [exact H0|].
    intros k name' acc0 h0 Hk HI0.
    replace (Datatypes.S i + k)%nat with (i + Datatypes.S k)%nat in * by lia.
    apply (Hstep (Datatypes.S k) name' acc0 h0 Hk HI0).
Qed.

(** *** The frame after one money column *)

Section MoneyWrite.
Variable np_log : float -> float.
Variables mean std : list float -> float.
Variables (log scale ind : bool).

Lemma money_write_index name v F :
  df_index (money_write np_log mean std log scale ind name v F) = df_index F.
Proof. unfold money_write. destruct ind; reflexivity. Qed.

Lemma money_write_lookup name v F i n s :
  df_cols F !! i = Some (n, s) ->
  df_cols (money_write np_log mean std log scale ind name v F) !! i =
  Some (n, if String.eqb n name then SFloat (transform np_log mean std
      log scale v)
           else if ind && String.eqb n (name +:+ "_ind")
                then indicator_of v else s).
Proof.
  intros H. unfold money_write. destruct ind.
  - erewrite setitem_lookup;
      [|erewrite loc_setna_lookup;
        [reflexivity|erewrite setitem_lookup; [reflexivity|exact H]]].
    unfold on_label. cbn [fst snd andb].
    destruct (String.eqb_spec n (name +:+ "_ind")) as [->|Hne]; cbn [fst snd].
    + rewrite setna_indicator, !String.eqb_refl. cbn [fst snd].
      destruct (String.eqb_spec (name +:+ "_ind") name) as [Heq|_];
        [now apply append_ne_self in Heq|reflexivity].
    + apply String.eqb_neq in Hne. rewrite Hne. cbn [fst snd].
      now destruct (String.eqb n name).
  - erewrite setitem_lookup; [|exact H]. unfold on_label. cbn [fst snd andb].
    now destruct (String.eqb n name).
Qed.

Lemma money_write_names name v F :
  In name (df_names F) ->
  df_names (money_write np_log mean std log scale ind name v F) =
  df_names F ++
    (if ind && negb (existsb (String.eqb (name +:+ "_ind")) (df_names F))
     then [name +:+ "_ind"] else []).
Proof.
  intros Hin. unfold money_write. rewrite setitem_names.
  destruct ind; cbn [andb].
  - rewrite loc_setna_names, setitem_names.
    assert (existsb (String.eqb name)
              (df_names F ++
               (if existsb (String.eqb (name +:+ "_ind")) (df_names F)
                then [] else [name +:+ "_ind"])) = true) as ->.
    { apply existsb_eqb_In, in_or_app. now left. }
    rewrite app_nil_r.
    now destruct (existsb (String.eqb (name +:+ "_ind")) (df_names F)).
  - apply existsb_eqb_In in Hin. rewrite Hin. reflexivity.
Qed.

(** One turn of the loop of [clean_money_columns], on the column found at
    position [k]. *)
Lemma money_body_run d money verbose name k h F c :
  frames h !! d = Some F ->
  df_cols F !! k = Some c ->
  bind (ixs d k)
       (money_body np_log mean std
           d money log scale ind verbose 1%float tt name) h =
  if bool_decide (name ∈ money) then
    match parsed_column (snd c) with
    | Ok v =>
        (Ok tt,
         say verbose
           (money_line name (SFloat (transform np_log mean std log scale v)))
           (mkHeap (<[d := money_write np_log mean std log scale ind name v F]>
                      (frames h)) (stdout h)))
    | Raise e => (Raise e, h)
    end
  else (Ok tt, say verbose (money_line name (snd c)) h).
Proof.
  intros HF Hc. unfold bind at 1.
  rewrite (ixs_run d k h F (snd c) HF) by (unfold df_ixs; now rewrite Hc).
  unfold money_body. destruct (bool_decide (name ∈ money)).
  - unfold bind. rewrite (money_column_run _ _ _ _ _ _ _ _ _ _ _ HF).
    destruct (parsed_column (snd c)) as [v|e]; [|reflexivity].
    now destruct verbose.
  - unfold bind, ret. now destruct verbose.
Qed.

(** The loop of [clean_money_columns] under an invariant [I] of the store,
    indexed by the position reached, with [E] for what holds when it
    raises. *)
Lemma clean_money_rule (I : nat -> heap -> Prop) (E : exn -> heap -> Prop)
    d money verbose h F :
  frames h !! d = Some F ->
  I 0%nat h ->
  (forall k name h',
      df_names F !! k = Some name -> I k h' ->
      match bind (ixs d k)
              (money_body np_log mean std d money log scale ind verbose 1%float
                 tt name) h' with
      | (Ok _, h'') => I (S k) h''
      | (Raise e, h'') => E e h''
      end) ->
  match clean_money_columns np_log mean std d money log scale ind verbose h with
  | (Ok r, h') => r = d /\ I (length (df_names F)) h'
  | (Raise e, h') => E e h'
  end.
Proof.
  intros HF H0 Hstep. unfold clean_money_columns, for_items.
  unfold bind at 1 2. rewrite (get_frame_run _ _ _ HF).
  pose proof (for_items_from_rule d
    (money_body np_log mean std d money log scale ind verbose 1%float)
    (fun i _ h => I i h) E (df_names F) 0%nat tt h H0) as R.
  cbn [Nat.add] in R.
  destruct (for_items_from d 0 (df_names F) _ tt h) as [[[]|e] h'].
  - unfold ret. split; [reflexivity|]. apply R.
    intros k name [] h0. apply Hstep.
  - apply R. intros k name [] h0. apply Hstep.
Qed.

End MoneyWrite.

(** *** Columns out of reach of [clean_money_columns] *)

Lemma names_lookup F k n :
  df_names F !! k = Some n -> exists s, df_cols F !! k = Some (n, s).
Proof.
  unfold df_names. rewrite lookup_map.
  destruct (df_cols F !! k) as [[n' s]|]; cbn; [|discriminate].
  intros [= ->]. now exists s.
Qed.

Lemma lookup_names F k n s :
  df_cols F !! k = Some (n, s) -> df_names F !! k = Some n.
Proof. intros H. unfold df_names. now rewrite lookup_map, H. Qed.

Lemma lookup_In_names F k n :
  df_names F !! k = Some n -> In n (df_names F).
Proof. intros H. apply list_elem_of_In. eapply list_elem_of_lookup_2, H. Qed.

Lemma frame_kept_refl money ind F : frame_kept money ind F F.
Proof.
  split; [reflexivity|]. split; [|auto].
  exists []. split; [now rewrite app_nil_r|constructor].
Qed.

Lemma frame_kept_names money ind F F' k n :
  frame_kept money ind F F' ->
  df_names F !! k = Some n -> df_names F' !! k = Some n.
Proof.
  intros (_ & (extra & -> & _) & _) H. now apply lookup_app_l_Some.
Qed.

Section FrameKept.
Variable np_log : float -> float.
Variables mean std : list float -> float.
Variables (log scale ind : bool).

Lemma frame_kept_write money F F' name v :
  frame_kept money ind F F' ->
  name ∈ money ->
  In name (df_names F') ->
  frame_kept money ind F (money_write np_log mean std log scale ind name v F').
Proof.
  intros (Hidx & (extra & Hnames & Hextra) & Hcols) Hm Hin.
  split; [now rewrite money_write_index|]. split.
  - rewrite (money_write_names _ _ _ _ _ _ _ _ _ Hin), Hnames, <- app_assoc.
    eexists. split; [reflexivity|].
    apply Forall_app. split; [exact Hextra|].
    destruct ind eqn:Ei; cbn [andb]; [|constructor].
    destruct (negb _); constructor; [|constructor].
    split; [reflexivity|]. now exists name.
  - intros i n s Hi Hw. apply Hcols in Hi as Hi'; [|exact Hw].
    rewrite (money_write_lookup np_log mean std
        log scale ind name v F' i n s Hi').
    destruct (String.eqb_spec n name) as [->|_].
    { exfalso. apply Hw. now left. }
    destruct ind eqn:Ei; cbn [andb]; [|reflexivity].
    destruct (String.eqb_spec n (name +:+ "_ind")) as [->|_]; [|reflexivity].
    exfalso. apply Hw. right. split; [reflexivity|]. now exists name.
Qed.

End FrameKept.

Lemma frames_say verbose line h : frames (say verbose line h) = frames h.
Proof. now destruct verbose. Qed.

(** However the call ends, the store differs from the one it started on in
    the argument frame at most. *)
Lemma clean_money_store np_log mean std h d F money log scale ind verbose :
  frames h !! d = Some F ->
  exists F',
    frames (snd (clean_money_columns np_log mean std
        d money log scale ind verbose h))
      = <[d := F']> (frames h).
Proof.
  intros HF.
  pose (Inv := fun (_ : nat) (h' : heap) =>
                 exists F', frames h' = <[d := F']> (frames h)).
  assert (Inv 0%nat h) as H0
    by (exists F; symmetry; now apply list_insert_id).
  assert (forall k name h1,
             df_names F !! k = Some name -> Inv k h1 ->
             match bind (ixs d k)
                     (money_body np_log mean std
                         d money log scale ind verbose 1%float
                        tt name) h1 with
             | (Ok _, h2) => Inv (S k) h2
             | (Raise e, h2) => Inv 0%nat h2
             end) as Hstep.
  { intros k name h1 Hk [F1 Hfr].
    assert (frames h1 !! d = Some F1) as HF1
      by (rewrite Hfr; eapply frames_insert_lookup, HF).
    unfold ixs, bind. rewrite (get_frame_run _ _ _ HF1).
    destruct (df_ixs F1 k) as [s|]; [|now exists F1].
    unfold ret, money_body, bind.
    destruct (bool_decide (name ∈ money)).
    - rewrite (money_column_run np_log mean std
        d log scale ind name s h1 F1 HF1).
      destruct (parsed_column s) as [v|e]; [|now exists F1].
      destruct verbose; cbn [when print ret frames];
        eexists; rewrite Hfr; apply list_insert_insert_eq.
    - destruct verbose; cbn [when print ret frames]; now exists F1. }
  pose proof (clean_money_rule np_log mean std
      log scale ind Inv (fun _ => Inv 0%nat)
                d money verbose h F HF H0 Hstep) as R.
  destruct (clean_money_columns np_log mean std d money log scale ind verbose h)
    as [[r|e] h']; cbn [snd]; [apply R|exact R].
Qed.

Lemma frame_spared_refl money ind F : frame_spared money ind F F.
Proof.
  split; [reflexivity|]. split; [|auto].
  exists []. split; [now rewrite app_nil_r|constructor].
Qed.

Lemma frame_spared_write np_log mean std log scale ind money F F' name v :
  frame_spared money ind F F' ->
  name ∈ money ->
  In name (df_names F) ->
  frame_spared money ind F
    (money_write np_log mean std log scale ind name v F').
Proof.
  intros (Hidx & (extra & Hnames & Hextra) & Hcols) Hm Hin.
  assert (In name (df_names F')) as Hin'
    by (rewrite Hnames; apply in_or_app; now left).
  assert (ind = true -> sibling money ind F (name +:+ "_ind")) as Hsib.
  { intros Hi. split; [exact Hi|]. now exists name. }
  split; [now rewrite money_write_index|]. split.
  - rewrite (money_write_names _ _ _ _ _ _ _ _ _ Hin'), Hnames, <- app_assoc.
    eexists. split; [reflexivity|].
    apply Forall_app. split; [exact Hextra|].
    destruct ind eqn:Ei; cbn [andb]; [|constructor].
    destruct (existsb _ _) eqn:Ex; cbn [negb]; constructor; [|constructor].
    split; [now apply Hsib|]. intros Hold.
    apply not_true_iff_false in Ex. apply Ex, existsb_eqb_In.
    apply in_or_app. now left.
  - intros i n s Hi Hn Hw. pose proof (Hcols i n s Hi Hn Hw) as Hi'.
    rewrite (money_write_lookup np_log mean std log scale ind name v F' i n s
               Hi').
    destruct (String.eqb_spec n name) as [->|_]; [contradiction|].
    destruct ind eqn:Ei; cbn [andb]; [|reflexivity].
    destruct (String.eqb_spec n (name +:+ "_ind")) as [->|_]; [|reflexivity].
    exfalso. now apply Hw, Hsib.
Qed.

(** C7 as it holds: whatever the flags and however the call ends,
    [clean_money_columns] changes no object of the store but its argument,
    and in the argument it keeps the row index, keeps every label where it
    was, appends only indicator labels of money columns of the frame that
    the frame did not have, and leaves every column unchanged (label, cells
    and kind) unless the column is named in [money_columns] or, with
    [indicator], is under the label of a money column of the frame followed
    by [_ind]. *)
Theorem clean_money_columns_frame
    np_log mean std h d F money log scale ind verbose :
  frames h !! d = Some F ->
  exists F',
    frames (snd (clean_money_columns np_log mean std d money log scale ind
                   verbose h))
      = <[d := F']> (frames h) /\
    df_index F' = df_index F /\
    (exists extra,
       df_names F' = df_names F ++ extra /\
       Forall (fun n =>
                 (ind = true /\
                  exists m, m ∈ money /\ In m (df_names F) /\
                            n = m +:+ "_ind") /\
                 ~ In n (df_names F)) extra) /\
    (forall i n s, df_cols F !! i = Some (n, s) ->
       ~ n ∈ money ->
       ~ (ind = true /\
          exists m, m ∈ money /\ In m (df_names F) /\ n = m +:+ "_ind") ->
       df_cols F' !! i = Some (n, s)).
Proof.
  intros HF.
  pose (Inv := fun (_ : nat) (h' : heap) =>
                 exists F', frames h' = <[d := F']> (frames h) /\
                            frame_spared money ind F F').
  assert (Inv 0%nat h) as H0.
  { exists F. split; [symmetry; now apply list_insert_id|].
    apply frame_spared_refl. }
  assert (forall k name h1,
             df_names F !! k = Some name -> Inv k h1 ->
             match bind (ixs d k)
                     (money_body np_log mean std d money log scale ind
                        verbose 1%float tt name) h1 with
             | (Ok _, h2) => Inv (S k) h2
             | (Raise e, h2) => Inv 0%nat h2
             end) as Hstep.
  { intros k name h1 Hk (F1 & Hfr & Hkept).
    assert (frames h1 !! d = Some F1) as HF1
      by (rewrite Hfr; eapply frames_insert_lookup, HF).
    assert (df_names F1 !! k = Some name) as Hk1.
    { destruct Hkept as (_ & (extra & -> & _) & _).
      now apply lookup_app_l_Some. }
    destruct (names_lookup F1 k name Hk1) as [s Hs].
    rewrite (money_body_run np_log mean std log scale ind d money verbose
               name k h1 F1 (name, s) HF1 Hs).
    destruct (bool_decide (name ∈ money)) eqn:Em.
    - apply bool_decide_eq_true in Em. cbn [snd].
      destruct (parsed_column s) as [v|e']; [|exists F1; now split].
      eexists. rewrite frames_say. cbn [frames]. split.
      + rewrite Hfr. apply list_insert_insert_eq.
      + apply frame_spared_write; [exact Hkept|exact Em|].
        eapply lookup_In_names, Hk.
    - exists F1. rewrite frames_say. now split. }
  pose proof (clean_money_rule np_log mean std log scale ind Inv
                (fun _ => Inv 0%nat) d money verbose h F HF H0 Hstep) as R.
  destruct (clean_money_columns np_log mean std d money log scale ind
              verbose h) as [[r|e] h']; cbn [snd];
    [destruct R as [_ R]|];
    destruct R as (F' & Hfr & Hidx & Hnames & Hcols);
    exists F'; repeat split; assumption.
Qed.

(** C7 as worded, on a frame that has a column under the indicator label of
    its money column: the column is not named in [money_columns], and the
    call writes the indicator over it where it stands instead of appending
    one. *)
Lemma indicator_column_overwritten :
  exists h',
    clean_money_columns sample_log seq_mean seq_std 0%nat ["price"]
      false false true false (mkHeap [tagged_frame] []) = (Ok 0%nat, h') /\
    df_cols tagged_frame !! 1%nat
      = Some ("price_ind", SObject [Some "keep me"]) /\
    bool_decide ("price_ind" ∈ ["price"]) = false /\
    option_map df_cols (frames h' !! 0%nat) =
      Some [("price", SFloat [1%float]);
            ("price_ind", SBoolean [Some false])].
Proof.
  eexists. split; [vm_compute; reflexivity|].
  split; [reflexivity|]. split; vm_compute; reflexivity.
Qed.

(** *** Lookup by label *)

Lemma find_on_label k f x (l : list (string * Series)) :
  List.find (fun c => String.eqb (fst c) x) (map (on_label k f) l) =
  option_map (on_label k f) (List.find (fun c => String.eqb (fst c) x) l).
Proof.
  induction l as [|c l IH]; cbn [map List.find]; [reflexivity|].
  rewrite on_label_fst. now destruct (String.eqb (fst c) x).
Qed.

Lemma find_absent x (l : list (string * Series)) :
  ~ In x (map fst l) ->
  List.find (fun c => String.eqb (fst c) x) l = None.
Proof.
  induction l as [|c l IH]; cbn [map List.find In]; intros H; [reflexivity|].
  destruct (String.eqb_spec (fst c) x); [tauto|]. apply IH. tauto.
Qed.

Lemma find_app_snoc x k v (l : list (string * Series)) :
  List.find (fun c => String.eqb (fst c) x) (l ++ [(k, v)]) =
  match List.find (fun c => String.eqb (fst c) x) l with
  | Some c => Some c
  | None => if String.eqb k x then Some (k, v) else None
  end.
Proof.
  induction l as [|c l IH]; cbn [app List.find fst]; [reflexivity|].
  now destruct (String.eqb (fst c) x).
Qed.

Lemma df_get_setitem k v F x :
  df_get (df_setitem k v F) x =
  if String.eqb x k then Some v else df_get F x.
Proof.
  unfold df_get, df_setitem. cbn [df_cols].
  destruct (existsb (String.eqb k) (df_names F)) eqn:E.
  - rewrite find_on_label.
    destruct (String.eqb_spec x k) as [->|Hne].
    + apply existsb_eqb_In in E. unfold df_names in E.
      destruct (List.find (fun c => String.eqb (fst c) k) (df_cols F))
        as [c|] eqn:Ef.
      * apply find_some in Ef as [_ Ef]. cbn. unfold on_label.
        now rewrite Ef.
      * exfalso. apply in_map_iff in E as (c & Hc & Hin).
        eapply find_none in Ef; [|exact Hin]. cbn in Ef.
        rewrite Hc, String.eqb_refl in Ef. discriminate.
    + destruct (List.find (fun c => String.eqb (fst c) x) (df_cols F))
        as [c|] eqn:Ef; [|reflexivity].
      apply find_some in Ef as [_ Ef]. apply String.eqb_eq in Ef. cbn.
      rewrite on_label_other by congruence. reflexivity.
  - rewrite find_app_snoc. rewrite (String.eqb_sym x k).
    destruct (String.eqb_spec k x) as [<-|Hne].
    + rewrite find_absent; [reflexivity|].
      intros Hin. apply existsb_eqb_In in Hin. unfold df_names in E.
      congruence.
    + now destruct (List.find _ (df_cols F)).
Qed.

Lemma df_get_loc_setna mask k F x :
  df_get (df_loc_setna mask k F) x =
  if String.eqb x k then option_map (series_setna mask) (df_get F x)
  else df_get F x.
Proof.
  unfold df_get, df_loc_setna. cbn [df_cols]. rewrite find_on_label.
  destruct (List.find (fun c => String.eqb (fst c) x) (df_cols F))
    as [c|] eqn:Ef; cbn; [|now destruct (String.eqb x k)].
  apply find_some in Ef as [_ Ef]. apply String.eqb_eq in Ef. subst x.
  unfold on_label. now destruct (String.eqb (fst c) k).
Qed.

Lemma df_get_money_write np_log mean std log scale name v F x :
  df_get (money_write np_log mean std log scale true name v F) x =
  if String.eqb x name then Some (SFloat (transform np_log mean std
      log scale v))
  else if String.eqb x (name +:+ "_ind") then Some (indicator_of v)
       else df_get F x.
Proof.
  unfold money_write. rewrite df_get_setitem, df_get_loc_setna.
  rewrite df_get_setitem.
  destruct (String.eqb x name); [reflexivity|].
  destruct (String.eqb x (name +:+ "_ind")); [|reflexivity].
  cbn [option_map]. now rewrite setna_indicator.
Qed.

(** *** A run on a frame that is ready *)

Lemma money_ready_nodup money ind F :
  money_ready money ind F = true -> NoDup (df_names F).
Proof.
  unfold money_ready. rewrite !andb_true_iff. intros [[H _] _].
  now apply bool_decide_eq_true in H.
Qed.

Lemma money_ready_parse money ind F k n s :
  money_ready money ind F = true ->
  df_cols F !! k = Some (n, s) -> n ∈ money ->
  exists v, parsed_column s = Ok v.
Proof.
  unfold money_ready. rewrite !andb_true_iff. intros [[_ H] _] Hk Hn.
  rewrite forallb_forall in H.
  specialize (H (n, s)). cbn [fst snd] in H.
  rewrite (bool_decide_eq_true_2 _ Hn) in H. cbn [implb] in H.
  destruct (parsed_column s) as [v|e]; [now exists v|].
  discriminate H. apply list_elem_of_In. eapply list_elem_of_lookup_2, Hk.
Qed.

Lemma money_ready_clash money F m n :
  money_ready money true F = true ->
  m ∈ money -> n ∈ money -> In m (df_names F) -> In n (df_names F) ->
  n <> m +:+ "_ind".
Proof.
  unfold money_ready, no_clash. rewrite !andb_true_iff. cbn [implb].
  intros [_ H] Hm Hn Him Hin ->.
  rewrite forallb_forall in H. specialize (H m Him).
  rewrite (bool_decide_eq_true_2 _ Hm) in H. cbn [implb] in H.
  rewrite forallb_forall in H. specialize (H _ Hin).
  rewrite (bool_decide_eq_true_2 _ Hn), String.eqb_refl in H. discriminate.
Qed.

Lemma money_write_untouched np_log mean std log scale ind name v F k n s :
  df_cols F !! k = Some (n, s) ->
  n <> name -> (ind = true -> n <> name +:+ "_ind") ->
  df_cols (money_write np_log mean std
      log scale ind name v F) !! k = Some (n, s).
Proof.
  intros H Hn Hi. rewrite (money_write_lookup _ _ _ _ _ _ _ _ _ _ _ _ H).
  destruct (String.eqb_spec n name); [contradiction|].
  destruct ind; cbn [andb]; [|reflexivity].
  destruct (String.eqb_spec n (name +:+ "_ind")); [|reflexivity].
  now destruct Hi.
Qed.

Section MoneyRun.
Variable np_log : float -> float.
Variables mean std : list float -> float.
Variables (log scale ind : bool).

Lemma money_run h d F money verbose :
  frames h !! d = Some F ->
  money_ready money ind F = true ->
  exists h' F',
    clean_money_columns np_log mean std d money log scale ind verbose h
      = (Ok d, h') /\
    frames h' = <[d := F']> (frames h) /\
    df_index F' = df_index F /\
    money_done np_log mean std log scale ind money F F'.
Proof.
  intros HF Hready.
  pose proof (money_ready_nodup _ _ _ Hready) as Hnd.
  pose (Inv := fun (i : nat) (h1 : heap) =>
    exists F1, frames h1 = <[d := F1]> (frames h) /\
      df_index F1 = df_index F /\
      (exists extra, df_names F1 = df_names F ++ extra) /\
      forall k n s, df_cols F !! k = Some (n, s) -> n ∈ money ->
        (k < i -> exists v, parsed_column s = Ok v /\
           df_cols F1 !! k =
             Some (n, SFloat (transform np_log mean std log scale v)) /\
           (ind = true ->
            df_get F1 (n +:+ "_ind") = Some (indicator_of v)))%nat /\
        (i <= k -> df_cols F1 !! k = Some (n, s))%nat).
  assert (Inv 0%nat h) as H0.
  { exists F. split; [symmetry; now apply list_insert_id|].
    split; [reflexivity|]. split; [exists []; now rewrite app_nil_r|].
    intros k n s Hk Hn. split; [lia|auto]. }
  assert (forall k name h1,
             df_names F !! k = Some name -> Inv k h1 ->
             match bind (ixs d k)
                     (money_body np_log mean std d money log scale ind verbose
                        1%float tt name) h1 with
             | (Ok _, h2) => Inv (S k) h2
             | (Raise e, h2) => False
             end) as Hstep.
  { intros k name h1 Hk (F1 & Hfr & Hidx & (extra & Hnames) & Hcols).
    assert (frames h1 !! d = Some F1) as HF1
      by (rewrite Hfr; eapply frames_insert_lookup, HF).
    assert (df_names F1 !! k = Some name) as Hk1
      by (rewrite Hnames; now apply lookup_app_l_Some).
    destruct (names_lookup F1 k name Hk1) as [s1 Hs1].
    destruct (names_lookup F k name Hk) as [s Hs].
    rewrite (money_body_run np_log mean std
        log scale ind d money verbose name k h1
               F1 (name, s1) HF1 Hs1).
    assert (forall k' n, k' <> k -> df_names F !! k' = Some n -> n <> name)
      as Hother.
    { intros k' n Hne Hk' ->. apply Hne.
      eapply NoDup_lookup; [exact Hnd|exact Hk'|exact Hk]. }
    destruct (bool_decide (name ∈ money)) eqn:Em.
    - apply bool_decide_eq_true in Em. cbn [snd].
      destruct (Hcols k name s Hs Em) as [_ Hcur].
      specialize (Hcur (le_n k)). rewrite Hs1 in Hcur.
      injection Hcur as ->.
      destruct (money_ready_parse _ _ _ _ _ _ Hready Hs Em) as [v Hv].
      rewrite Hv.
      exists (money_write np_log mean std log scale ind name v F1).
      rewrite frames_say. cbn [frames].
      split; [rewrite Hfr; apply list_insert_insert_eq|].
      split; [now rewrite money_write_index|].
      split.
      { rewrite money_write_names by (eapply lookup_In_names, Hk1).
        rewrite Hnames, <- app_assoc. now eexists. }
      intros k' n s' Hk' Hn'.
      assert (ind = true -> n <> name +:+ "_ind") as Hclash1.
      { intros ->. eapply money_ready_clash; eauto.
        - eapply lookup_In_names, Hk.
        - eapply lookup_In_names, lookup_names, Hk'. }
      assert (ind = true -> name <> n +:+ "_ind") as Hclash2.
      { intros ->. eapply money_ready_clash; eauto.
        - eapply lookup_In_names, lookup_names, Hk'.
        - eapply lookup_In_names, Hk. }
      destruct (Hcols k' n s' Hk' Hn') as [Hlt Hge].
      destruct (Nat.eq_dec k' k) as [->|Hne].
      + rewrite Hs in Hk'. injection Hk' as <- <-.
        split; [intros _|lia]. exists v. split; [exact Hv|]. split.
        * rewrite (money_write_lookup _ _ _ _ _ _ _ _ _ _ _ _ Hs1).
          now rewrite String.eqb_refl.
        * intros ->. rewrite df_get_money_write.
          destruct (String.eqb_spec (name +:+ "_ind") name) as [Heq|_];
            [now apply append_ne_self in Heq|].
          now rewrite String.eqb_refl.
      + pose proof (Hother k' n Hne (lookup_names _ _ _ _ Hk')) as Hnn.
        split.
        * intros Hlt'. destruct Hlt as (v' & Hv' & Hc' & Hg'); [lia|].
          exists v'. split; [exact Hv'|]. split.
          -- now apply money_write_untouched.
          -- intros ->. rewrite df_get_money_write.
             destruct (String.eqb_spec (n +:+ "_ind") name) as [Heq|_];
               [symmetry in Heq; now apply Hclash2 in Heq|].
             destruct (String.eqb_spec (n +:+ "_ind") (name +:+ "_ind"))
               as [Heq|_]; [now apply append_inj_r in Heq|].
             now apply Hg'.
        * intros Hge'. apply money_write_untouched; auto. apply Hge. lia.
    - apply bool_decide_eq_false in Em.
      exists F1. rewrite frames_say.
      split; [exact Hfr|]. split; [exact Hidx|].
      split; [now exists extra|].
      intros k' n s' Hk' Hn'.
      destruct (Hcols k' n s' Hk' Hn') as [Hlt Hge].
      assert (k' <> k) as Hne.
      { intros ->. rewrite Hs in Hk'. injection Hk' as <- <-.
        contradiction. }
      split; [intros ?; apply Hlt; lia|intros ?; apply Hge; lia]. }
  pose proof (clean_money_rule np_log mean std
      log scale ind Inv (fun _ _ => False)
                d money verbose h F HF H0 Hstep) as R.
  destruct (clean_money_columns np_log mean std d money log scale ind verbose h)
    as [[r|e] h']; [|contradiction].
  destruct R as [-> (F' & Hfr & Hidx & _ & Hcols)].
  exists h', F'. split; [reflexivity|]. split; [exact Hfr|].
  split; [exact Hidx|].
  intros k n s Hk Hn.
  destruct (proj1 (Hcols k n s Hk Hn)) as (v & Hv & Hc & Hg).
  { apply lookup_lt_Some in Hk. unfold df_names. now rewrite length_map. }
  exists v. now repeat split.
Qed.

End MoneyRun.

(** *** The loop of [clean_types] *)

Lemma types_body_run verbose b name column h :
  types_body verbose b name column h =
  (Ok (bucket_add b (name, column)),
   say verbose (type_line name (retyped column)) h).
Proof.
  unfold types_body, bucket_add, kind_of, retyped. cbn [fst snd].
  destruct (is_text column); [now destruct verbose|].
  destruct (is_bool column); now destruct verbose.
Qed.

Lemma types_loop_run verbose d h F b0 :
  frames h !! d = Some F ->
  exists h',
    for_items d (types_body verbose) b0 h =
      (Ok (fold_left bucket_add (df_cols F) b0), h') /\
    frames h' = frames h.
Proof.
  intros HF. unfold for_items, bind. rewrite (get_frame_run _ _ _ HF).
  pose (Inv := fun (i : nat) (b : buckets) (h1 : heap) =>
                 frames h1 = frames h /\
                 b = fold_left bucket_add (take i (df_cols F)) b0).
  pose proof (for_items_from_rule d (types_body verbose) Inv
                (fun _ _ => False) (df_names F) 0%nat b0 h) as R.
  cbn [Nat.add] in R.
  destruct (for_items_from d 0 (df_names F) (types_body verbose) b0 h)
    as [[b|e] h'].
  - destruct R as [Hfr ->].
    + split; reflexivity.
    + intros k name b1 h1 Hk [Hfr1 ->].
      destruct (names_lookup F k name Hk) as [s Hs].
      unfold bind.
      rewrite (ixs_run d k h1 F s) by
        (rewrite ?Hfr1; try exact HF; unfold df_ixs; now rewrite Hs).
      rewrite types_body_run. split; [now rewrite frames_say|].
      rewrite (take_S_r _ _ _ Hs), fold_left_app. reflexivity.
    + exists h'. split; [|exact Hfr].
      unfold df_names. rewrite length_map, firstn_all. reflexivity.
  - exfalso. apply R; [split; reflexivity|].
    intros k name b1 h1 Hk [Hfr1 ->].
    destruct (names_lookup F k name Hk) as [s Hs].
    unfold bind.
    rewrite (ixs_run d k h1 F s) by
      (rewrite ?Hfr1; try exact HF; unfold df_ixs; now rewrite Hs).
    rewrite types_body_run. split; [now rewrite frames_say|].
    rewrite (take_S_r _ _ _ Hs), fold_left_app. reflexivity.
Qed.

(** [clean_types] in one step: three frames for the dicts and the frame of
    their columns side by side are added to the store, nothing else
    changes, and the reference of the last one is returned. *)
Lemma clean_types_run verbose d h F :
  frames h !! d = Some F ->
  exists h',
    let b := fold_left bucket_add (df_cols F) (mkBuckets [] [] []) in
    clean_types d verbose h = (Ok (length (frames h) + 3)%nat, h') /\
    frames h' =
      frames h ++ [frame_of_dict (numericals b) (df_index F);
                   frame_of_dict (categoricals b) (df_index F);
                   frame_of_dict (booleans b) (df_index F);
                   assembled (df_index F) b].
Proof.
  intros HF.
  destruct (types_loop_run verbose d h F (mkBuckets [] [] []) HF)
    as (h1 & Hloop & Hfr).
  set (b := fold_left bucket_add (df_cols F) (mkBuckets [] [] [])) in *.
  unfold clean_types. unfold bind at 1. rewrite Hloop.
  unfold bind at 1. rewrite (get_frame_run d h1 F) by now rewrite Hfr.
  unfold bind, new_frame, get_frame. cbn [frames stdout].
  rewrite Hfr.
  set (Fn := frame_of_dict (numericals b) (df_index F)).
  set (Fc := frame_of_dict (categoricals b) (df_index F)).
  set (Fo := frame_of_dict (booleans b) (df_index F)).
  assert ((((frames h ++ [Fn]) ++ [Fc]) ++ [Fo]) !! length (frames h)
          = Some Fn) as ->.
  { rewrite <- !app_assoc. now apply list_lookup_middle. }
  cbv beta iota. cbn [frames stdout].
  assert ((((frames h ++ [Fn]) ++ [Fc]) ++ [Fo]) !! length (frames h ++ [Fn])
          = Some Fc) as ->.
  { rewrite <- (app_assoc (frames h ++ [Fn])).
    now apply list_lookup_middle. }
  cbv beta iota. cbn [frames stdout].
  assert ((((frames h ++ [Fn]) ++ [Fc]) ++ [Fo])
            !! length ((frames h ++ [Fn]) ++ [Fc]) = Some Fo) as ->.
  { now apply list_lookup_middle. }
  cbv beta iota. cbn [frames stdout].
  eexists. cbn zeta. split.
  - f_equal. f_equal. rewrite !length_app. cbn. lia.
  - cbn [frames]. rewrite <- !app_assoc. cbn [app].
    unfold concat_columns, assembled. cbn [map concat df_cols].
    subst Fn Fc Fo. unfold frame_of_dict. cbn [df_cols].
    now rewrite app_nil_r.
Qed.

(** *** The dicts of [clean_types] *)

Lemma dict_set_absent k v (d : dict) :
  ~ In k (map fst d) -> dict_set k v d = d ++ [(k, v)].
Proof.
  intros H. unfold dict_set.
  destruct (existsb (String.eqb k) (map fst d)) eqn:E; [|reflexivity].
  apply existsb_eqb_In in E. contradiction.
Qed.

Lemma dict_set_In k v (d : dict) c :
  In c (dict_set k v d) -> c = (k, v) \/ In c d.
Proof.
  unfold dict_set. destruct (existsb (String.eqb k) (map fst d)).
  - rewrite in_map_iff. intros (c0 & <- & Hin). unfold on_label.
    destruct (String.eqb_spec (fst c0) k) as [<-|_]; [now left|now right].
  - rewrite in_app_iff. intros [H|[H|[]]]; [now right|now left].
Qed.

Lemma group_cons K c cols :
  group K (c :: cols) =
  if kind_eqb (kind_of (snd c)) K then c :: group K cols else group K cols.
Proof. reflexivity. Qed.

(** With distinct labels every assignment to a dict adds a key, so each
    dict lists the columns of its kind in the order of the frame. *)
Lemma buckets_distinct cols : forall b0,
  NoDup (map fst cols) ->
  (forall k, In k (map fst cols) ->
     ~ In k (map fst (numericals b0)) /\
     ~ In k (map fst (categoricals b0)) /\
     ~ In k (map fst (booleans b0))) ->
  fold_left bucket_add cols b0 =
  mkBuckets (categoricals b0 ++ map as_category (group Categorical cols))
            (numericals b0 ++ group Numeric cols)
            (booleans b0 ++ group Boolean cols).
Proof.
  induction cols as [|c cols IH]; intros b0 Hnd Hfresh.
  - cbn. rewrite !app_nil_r. now destruct b0.
  - destruct c as [n s]. cbn [fold_left]. cbn [map fst] in Hnd, Hfresh.
    apply NoDup_cons in Hnd as [Hc Hnd].
    destruct (Hfresh n (or_introl eq_refl)) as (Hn & Hk & Hb).
    assert (forall k, In k (map fst cols) -> k <> n) as Hne.
    { intros k Hin ->. apply Hc. now apply list_elem_of_In. }
    rewrite IH; [|exact Hnd|].
    + rewrite !group_cons. unfold bucket_add. cbn [fst snd].
      destruct (kind_of s); cbn [kind_eqb categoricals numericals
        booleans map]; rewrite ?dict_set_absent by assumption;
        rewrite <- ?app_assoc; reflexivity.
    + intros k Hin. destruct (Hfresh k (or_intror Hin)) as (Hn' & Hk' & Hb').
      pose proof (Hne k Hin) as Hkc.
      unfold bucket_add. cbn [fst snd].
      destruct (kind_of s); cbn [categoricals numericals booleans];
        rewrite ?dict_set_absent by assumption;
        rewrite ?map_app, ?in_app_iff; cbn [map fst In]; intuition congruence.
Qed.

Lemma buckets_of_frame cols :
  NoDup (map fst cols) ->
  fold_left bucket_add cols (mkBuckets [] [] []) =
  mkBuckets (map as_category (group Categorical cols))
            (group Numeric cols) (group Boolean cols).
Proof.
  intros Hnd. rewrite buckets_distinct; [reflexivity|exact Hnd|].
  cbn. intros k _. tauto.
Qed.

(** Whatever the labels, every column of a dict is a column of the frame,
    stored as [clean_types] stores it. *)
Lemma buckets_origin cols : forall b0 c,
  In c (numericals (fold_left bucket_add cols b0) ++
        categoricals (fold_left bucket_add cols b0) ++
        booleans (fold_left bucket_add cols b0)) ->
  In c (numericals b0 ++ categoricals b0 ++ booleans b0) \/
  exists c0, In c0 cols /\ c = (fst c0, retyped (snd c0)).
Proof.
  induction cols as [|c1 cols IH]; intros b0 c Hin; [now left|].
  cbn [fold_left] in Hin. apply IH in Hin as [Hin|(c0 & H0 & ->)].
  - unfold bucket_add, kind_of, retyped in *.
    rewrite !in_app_iff in Hin. rewrite !in_app_iff.
    destruct (is_text (snd c1)) eqn:Et;
      [|destruct (is_bool (snd c1)) eqn:Eb];
      cbn [categoricals numericals booleans] in Hin;
      destruct Hin as [Hin|[Hin|Hin]]; try tauto;
      apply dict_set_In in Hin as [->|Hin]; try tauto;
      right; exists c1; rewrite ?Et; (split; [now left|reflexivity]).
  - right. exists c0. split; [now right|reflexivity].
Qed.

(** *** Category columns keep the text *)

Lemma index_of_lookup s (l : list string) i :
  index_of s l = Some i -> l !! i = Some s.
Proof.
  revert i. induction l as [|x l IH]; intros i; cbn [index_of];
    [discriminate|].
  destruct (String.eqb_spec s x) as [->|_].
  - now intros [= <-].
  - destruct (index_of s l) as [j|]; cbn [option_map]; [|discriminate].
    intros [= <-]. now apply IH.
Qed.

Lemma index_of_In s (l : list string) :
  In s l -> exists i, index_of s l = Some i.
Proof.
  induction l as [|x l IH]; cbn [In index_of]; [tauto|].
  destruct (String.eqb_spec s x) as [->|Hne]; [now exists 0%nat|].
  intros [->|Hin]; [contradiction|].
  destruct (IH Hin) as [i ->]. now exists (S i).
Qed.

Lemma insert_sorted_In x s (l : list string) :
  In x (insert_sorted s l) <-> x = s \/ In x l.
Proof.
  induction l as [|y l IH]; cbn [insert_sorted In]; [intuition|].
  destruct (String.compare s y) eqn:E; cbn [In].
  - apply String.compare_eq_iff in E. subst. intuition.
  - intuition.
  - rewrite IH. intuition.
Qed.

Lemma categories_of_In (v : list (option string)) s :
  In (Some s) v -> In s (categories_of v).
Proof.
  unfold categories_of. induction v as [|o v IH]; cbn [In]; [tauto|].
  intros [->|Hin]; cbn; rewrite ?insert_sorted_In; [now left|].
  destruct o; cbn; rewrite ?insert_sorted_In; auto.
Qed.

Lemma decode_encode_in cats (v : list (option string)) :
  (forall s, In (Some s) v -> In s cats) ->
  decode cats (encode cats v) = v.
Proof.
  unfold decode, encode. induction v as [|o v IH]; intros H; [reflexivity|].
  cbn [map]. rewrite IH by (intros s Hs; apply H; now right). f_equal.
  destruct o as [s|]; [|reflexivity].
  destruct (index_of_In s cats (H s (or_introl eq_refl))) as [i Hi].
  rewrite Hi. now apply index_of_lookup.
Qed.

(** The labels of the category column, read back cell by cell, are the text
    the column had; other columns are stored as they are. *)
Lemma retyped_cells s :
  (forall v, text_cells s = Some v -> is_text s = true ->
             dtype_name (retyped s) = "category" /\
             text_cells (retyped s) = Some v) /\
  (is_text s = false -> retyped s = s) /\
  series_len (retyped s) = series_len s.
Proof.
  unfold retyped.
  destruct s; cbn [is_text astype_category text_cells series_len dtype_name];
    (split; [|split]); try reflexivity; try discriminate;
    try (intros v0 [= <-] _; split; [reflexivity|]; f_equal;
         apply decode_encode_in, categories_of_In);
    try (unfold encode; now rewrite length_map).
Qed.

(** *** Category labels are distinct *)

Lemma compare_lt_trans s1 s2 s3 :
  String.compare s1 s2 = Lt -> String.compare s2 s3 = Lt ->
  String.compare s1 s3 = Lt.
Proof.
  intros H12 H23.
  assert (String.le s1 s3) as Hle.
  { transitivity s2; unfold String.le, String.leb; [now rewrite H12|].
    now rewrite H23. }
  unfold String.le, String.leb in Hle.
  destruct (String.compare s1 s3) eqn:E; [|reflexivity|contradiction].
  apply String.compare_eq_iff in E. subst s3.
  rewrite String.compare_antisym, H12 in H23. discriminate.
Qed.

Lemma compare_lt_irrefl s : String.compare s s <> Lt.
Proof.
  intros H. pose proof (String.compare_antisym s s) as A.
  rewrite H in A. discriminate.
Qed.

Lemma insert_sorted_ascending s l :
  StronglySorted (fun x y => String.compare x y = Lt) l ->
  StronglySorted (fun x y => String.compare x y = Lt) (insert_sorted s l).
Proof.
  induction l as [|x l IH]; intros Hs; cbn [insert_sorted].
  - repeat constructor.
  - apply StronglySorted_inv in Hs as [Hl Hx].
    destruct (String.compare s x) eqn:E.
    + now constructor.
    + constructor; [now constructor|]. constructor; [exact E|].
      rewrite Forall_forall in *. intros y Hy.
      eapply compare_lt_trans; [exact E|now apply Hx].
    + constructor; [now apply IH|]. rewrite Forall_forall in *.
      intros y Hy. apply list_elem_of_In, insert_sorted_In in Hy as [->|Hy].
      * now rewrite String.compare_antisym, E.
      * now apply Hx, list_elem_of_In.
Qed.

Lemma categories_ascending v :
  StronglySorted (fun x y => String.compare x y = Lt) (categories_of v).
Proof.
  unfold categories_of. induction (omap id v) as [|s l IH]; cbn [foldr].
  - constructor.
  - now apply insert_sorted_ascending.
Qed.

Lemma ascending_distinct l :
  StronglySorted (fun x y => String.compare x y = Lt) l -> NoDup l.
Proof.
  induction l as [|x l IH]; intros Hs; [constructor|].
  apply StronglySorted_inv in Hs as [Hl Hx]. constructor; [|now apply IH].
  intros Hin. rewrite Forall_forall in Hx.
  now apply (compare_lt_irrefl x), Hx.
Qed.

(** The category column of a text column: its labels are distinct, in
    ascending order, and its codes read back the text. *)
Lemma astype_category_text s cells :
  is_text s = true -> text_cells s = Some cells ->
  exists cats codes,
    astype_category s = SCategory cats codes /\
    StronglySorted (fun x y => String.compare x y = Lt) cats /\
    NoDup cats /\
    decode cats codes = cells.
Proof.
  intros Ht Hc.
  destruct s; try discriminate; cbn [text_cells] in Hc; injection Hc as <-;
    cbn [astype_category]; eexists _, _; (split; [reflexivity|]);
    (split; [apply categories_ascending|]);
    (split; [apply ascending_distinct, categories_ascending|]);
    apply decode_encode_in, categories_of_In.
Qed.

(** *** [clean_types]: the result *)


Lemma group_kind K c cols : In c (group K cols) -> kind_of (snd c) = K.
Proof.
  unfold group. rewrite filter_In. intros [_ H].
  destruct (kind_of (snd c)), K; now try discriminate.
Qed.

Lemma kind_of_cases s :
  kind_of s =
  match s with
  | SObject _ | SString _ => Categorical
  | SBool _ | SBoolean _ => Boolean
  | SFloat _ | SInt _ | SCategory _ _ | SDatetime _ => Numeric
  end.
Proof. now destruct s. Qed.

Lemma result_lookup (l : list DataFrame) a b c R :
  (l ++ [a; b; c; R]) !! (length l + 3)%nat = Some R.
Proof.
  rewrite lookup_app_r by lia.
  now replace (length l + 3 - length l)%nat with 3%nat by lia.
Qed.

(** C8 as it holds: the columns of a frame with distinct labels come out as
    the numeric ones, then the text ones, then the boolean ones, each group
    in the order it had; a column is text when its kind is object or string,
    boolean when its kind is bool or boolean, numeric otherwise; text columns
    are stored as category columns (distinct labels, codes that read back
    the same text), the others as they were; and the example frame comes out
    as int_col, float_col, text_col, bool_col. *)
Theorem clean_types_groups verbose d h F :
  frames h !! d = Some F ->
  NoDup (df_names F) ->
  (forall s, kind_of s =
             match s with
             | SObject _ | SString _ => Categorical
             | SBool _ | SBoolean _ => Boolean
             | SFloat _ | SInt _ | SCategory _ _ | SDatetime _ => Numeric
             end) /\
  (exists r h',
      clean_types d verbose h = (Ok r, h') /\
      frames h' !! r =
        Some (mkFrame (df_index F)
                (group Numeric (df_cols F) ++
                 map as_category (group Categorical (df_cols F)) ++
                 group Boolean (df_cols F)))) /\
  (forall c, In c (group Categorical (df_cols F)) ->
     exists cells cats codes,
       text_cells (snd c) = Some cells /\
       as_category c = (fst c, SCategory cats codes) /\
       NoDup cats /\
       decode cats codes = cells) /\
  (exists r h',
      clean_types 0%nat verbose (mkHeap [example_types] []) = (Ok r, h') /\
      option_map df_names (frames h' !! r) =
        Some ["int_col"; "float_col"; "text_col"; "bool_col"]).
Proof.
  intros HF Hnd. split; [apply kind_of_cases|]. split; [|split].
  - destruct (clean_types_run verbose d h F HF) as (h' & Hrun & Hfr).
    cbn zeta in Hrun, Hfr. exists (length (frames h) + 3)%nat, h'.
    split; [exact Hrun|]. rewrite Hfr, result_lookup.
    unfold assembled. now rewrite (buckets_of_frame _ Hnd).
  - intros c Hc. apply group_kind in Hc. unfold kind_of in Hc.
    destruct (is_text (snd c)) eqn:Et;
      [|destruct (is_bool (snd c)); discriminate].
    assert (exists cells, text_cells (snd c) = Some cells) as [cells Hcells]
      by (destruct (snd c); try discriminate; now eexists).
    destruct (astype_category_text _ _ Et Hcells)
      as (cats & codes & Hcat & _ & Hdistinct & Hdec).
    exists cells, cats, codes. unfold as_category. rewrite Hcat.
    now repeat split.
  - destruct verbose; eexists _, _; (split; [vm_compute; reflexivity|]);
      reflexivity.
Qed.


(** C10. [clean_types] returns a reference to a frame that did not exist
    before and leaves every frame of the store, its argument among them, as
    it was; [clean_money_columns] creates no frame, changes no other frame,
    returns the reference it was given, and on a frame that is ready leaves
    its results in the argument itself. *)
Theorem clean_types_fresh_money_in_place np_log mean std d h F :
  frames h !! d = Some F ->
  (forall verbose, exists r h',
      clean_types d verbose h = (Ok r, h') /\
      r <> d /\ frames h !! r = None /\
      frames h' !! d = Some F /\
      (forall d' F', frames h !! d' = Some F' ->
                     frames h' !! d' = Some F')) /\
  (forall money log scale ind verbose r h',
      clean_money_columns np_log mean std
          d money log scale ind verbose h = (r, h') ->
      (forall d', r = Ok d' -> d' = d) /\
      length (frames h') = length (frames h) /\
      (forall d', d' <> d -> frames h' !! d' = frames h !! d')) /\
  (forall money log scale ind verbose,
      money_ready money ind F = true ->
      exists h' F',
        clean_money_columns np_log mean std d money log scale ind verbose h
          = (Ok d, h') /\
        frames h' !! d = Some F' /\
        money_done np_log mean std log scale ind money F F').
Proof.
  intros HF. split; [|split].
  - intros verbose.
    destruct (clean_types_run verbose d h F HF) as (h' & Hrun & Hfr).
    cbn zeta in Hrun, Hfr. exists (length (frames h) + 3)%nat, h'.
    pose proof (lookup_lt_Some _ _ _ HF) as Hlt.
    split; [exact Hrun|]. split; [lia|].
    split; [apply lookup_ge_None_2; lia|].
    split; [rewrite Hfr; now apply lookup_app_l_Some|].
    intros d' F' H'. rewrite Hfr. now apply lookup_app_l_Some.
  - intros money log scale ind verbose r h' Hrun.
    destruct (clean_money_store np_log mean std
        h d F money log scale ind verbose HF)
      as (F' & Hfr).
    pose proof (clean_money_rule np_log mean std log scale ind (fun _ _ => True)
                  (fun _ _ => True) d money verbose h F HF Logic.I) as R.
    rewrite Hrun in Hfr, R. cbn [snd] in Hfr.
    split; [|split].
    + intros d' ->. apply R. intros k name h1 _ _.
      now destruct (bind _ _ h1) as [[]].
    + now rewrite Hfr, length_insert.
    + intros d' Hne. rewrite Hfr. now apply list_lookup_insert_ne.
  - intros money log scale ind verbose Hready.
    destruct (money_run np_log mean std
        log scale ind h d F money verbose HF Hready)
      as (h' & F' & Hrun & Hfr & _ & Hdone).
    exists h', F'. split; [exact Hrun|]. split; [|exact Hdone].
    rewrite Hfr. eapply frames_insert_lookup, HF.
Qed.

(** *** A run that returns *)

Lemma setitem_columns k v F i c :
  df_cols (df_setitem k v F) !! i = Some c ->
  (fst c = k /\ snd c = v) \/ (fst c <> k /\ df_cols F !! i = Some c).
Proof.
  unfold df_setitem. cbn [df_cols].
  destruct (existsb (String.eqb k) (df_names F)) eqn:E.
  - rewrite lookup_map.
    destruct (df_cols F !! i) as [c0|]; cbn [option_map]; [|discriminate].
    intros [= <-]. unfold on_label.
    destruct (String.eqb_spec (fst c0) k); [left|right]; cbn [fst snd]; auto.
  - intros H. apply lookup_app_Some in H as [H|[_ H]].
    + right. split; [|exact H]. intros Hk.
      assert (In k (df_names F)) as Hin.
      { rewrite <- Hk. unfold df_names. apply in_map, list_elem_of_In.
        eapply list_elem_of_lookup_2, H. }
      apply existsb_eqb_In in Hin. congruence.
    + left. destruct (i - length (df_cols F))%nat; [|discriminate].
      injection H as <-. now split.
Qed.

Lemma loc_setna_columns mask k F i c :
  df_cols (df_loc_setna mask k F) !! i = Some c ->
  exists c0, df_cols F !! i = Some c0 /\
             c = on_label k (series_setna mask) c0.
Proof.
  cbn [df_loc_setna df_cols]. rewrite lookup_map.
  destruct (df_cols F !! i) as [c0|]; cbn [option_map]; [|discriminate].
  intros [= <-]. now exists c0.
Qed.

(** Every column of the frame after one money column: a result under the
    label or its indicator label, or the column that was there. *)
Lemma money_write_columns np_log mean std log scale ind name v F i n s :
  df_cols (money_write np_log mean std
      log scale ind name v F) !! i = Some (n, s) ->
  (n = name /\ is_result s = true) \/
  (ind = true /\ n = name +:+ "_ind" /\ is_result s = true) \/
  (n <> name /\ (ind = true -> n <> name +:+ "_ind") /\
   df_cols F !! i = Some (n, s)).
Proof.
  unfold money_write. intros H.
  apply setitem_columns in H as [[Hn Hs]|[Hn H]]; cbn [fst snd] in *.
  { left. subst. now split. }
  destruct ind; [|right; right; now repeat split].
  apply loc_setna_columns in H as (c0 & H0 & Hc).
  apply setitem_columns in H0 as [[Hn0 Hs0]|[Hn0 H0]].
  - right. left. destruct c0 as [n0 s0]. cbn [fst snd] in *. subst n0 s0.
    rewrite on_label_same, setna_indicator in Hc. injection Hc as -> ->.
    now repeat split.
  - right. right. rewrite on_label_other in Hc by exact Hn0. subst c0.
    cbn [fst] in Hn0. now repeat split.
Qed.

Lemma parsed_column_result s :
  is_result s = true -> parsed_column s = Raise AttributeError.
Proof. now destruct s. Qed.

Lemma money_write_result np_log mean std log scale ind name v F k n s :
  df_cols F !! k = Some (n, s) ->
  exists s', df_cols (money_write np_log mean std log scale ind name v F) !! k
             = Some (n, s') /\
             (s' = s \/ is_result s' = true) /\
             (n = name -> is_result s' = true).
Proof.
  intros H. rewrite (money_write_lookup _ _ _ _ _ _ _ _ _ _ _ _ H).
  eexists. split; [reflexivity|].
  destruct (String.eqb_spec n name) as [->|Hne].
  - split; [now right|reflexivity].
  - split; [|contradiction].
    destruct (ind && String.eqb n (name +:+ "_ind")); [now right|now left].
Qed.

Section MoneyReturns.
Variable np_log : float -> float.
Variables mean std : list float -> float.
Variables (log scale ind : bool).

(** The loop invariant of a run that has not raised, at position [i]: every
    position holds its column or a result; every column under the label of
    a money column met before, or under its indicator label, holds a result;
    and the money columns met before are done. *)
Lemma money_returns h d F money verbose r h' :
  frames h !! d = Some F ->
  clean_money_columns np_log mean std
      d money log scale ind verbose h = (Ok r, h') ->
  r = d /\
  exists F',
    frames h' = <[d := F']> (frames h) /\
    df_index F' = df_index F /\
    money_done np_log mean std log scale ind money F F'.
Proof.
  intros HF Hrun.
  pose (met := fun (i : nat) (n' : string) =>
    exists k m, (k < i)%nat /\ df_names F !! k = Some m /\ m ∈ money /\
                (n' = m \/ (ind = true /\ n' = m +:+ "_ind"))).
  pose (Inv := fun (i : nat) (h1 : heap) =>
    exists F1, frames h1 = <[d := F1]> (frames h) /\
      df_index F1 = df_index F /\
      (exists extra, df_names F1 = df_names F ++ extra) /\
      (forall k n s, df_cols F !! k = Some (n, s) ->
         exists s1, df_cols F1 !! k = Some (n, s1) /\
                    (s1 = s \/ is_result s1 = true)) /\
      (forall k n s1, df_cols F1 !! k = Some (n, s1) -> met i n ->
                      is_result s1 = true) /\
      (forall k n s, (k < i)%nat -> df_cols F !! k = Some (n, s) ->
         n ∈ money ->
         exists v, parsed_column s = Ok v /\
           (unclobbered money ind F n ->
            df_cols F1 !! k =
              Some (n, SFloat (transform np_log mean std log scale v))) /\
           (ind = true ->
            df_get F1 (n +:+ "_ind") = Some (indicator_of v)))).
  assert (Inv 0%nat h) as H0.
  { exists F. split; [symmetry; now apply list_insert_id|].
    split; [reflexivity|]. split; [exists []; now rewrite app_nil_r|].
    split; [intros k n s Hk; exists s; auto|].
    split; [intros k n s1 _ (k' & m & Hlt & _); lia|intros; lia]. }
  assert (forall k name h1,
             df_names F !! k = Some name -> Inv k h1 ->
             match bind (ixs d k)
                     (money_body np_log mean std
                         d money log scale ind verbose 1%float
                        tt name) h1 with
             | (Ok _, h2) => Inv (S k) h2
             | (Raise e, h2) => True
             end) as Hstep.
  { intros i name h1 Hi
      (F1 & Hfr & Hidx & (extra & Hnames) & Hpos & Hmet & Hdone).
    assert (frames h1 !! d = Some F1) as HF1
      by (rewrite Hfr; eapply frames_insert_lookup, HF).
    destruct (names_lookup F i name Hi) as [s Hs].
    destruct (Hpos i name s Hs) as (si & Hsi & Horig).
    rewrite (money_body_run np_log mean std
        log scale ind d money verbose name i h1
               F1 (name, si) HF1 Hsi).
    destruct (bool_decide (name ∈ money)) eqn:Em.
    - apply bool_decide_eq_true in Em. cbn [snd].
      destruct (parsed_column si) as [v|e] eqn:Ev; [|exact Logic.I].
      assert (si = s) as ->.
      { destruct Horig as [->|Hres]; [reflexivity|].
        rewrite (parsed_column_result _ Hres) in Ev. discriminate. }
      assert (~ met i name) as Hfresh.
      { intros Hm. pose proof (Hmet i name s Hsi Hm) as Hres.
        rewrite (parsed_column_result _ Hres) in Ev. discriminate. }
      exists (money_write np_log mean std log scale ind name v F1).
      rewrite frames_say. cbn [frames].
      split; [rewrite Hfr; apply list_insert_insert_eq|].
      split; [now rewrite money_write_index|].
      split.
      { rewrite money_write_names
          by (eapply lookup_In_names, lookup_names, Hsi).
        rewrite Hnames, <- app_assoc. now eexists. }
      split; [|split].
      + intros k n s0 Hk. destruct (Hpos k n s0 Hk) as (s1 & Hs1 & Hor).
        destruct (money_write_result np_log mean std
            log scale ind name v F1 k n s1
                    Hs1) as (s' & Hs' & Hkind & _).
        exists s'. split; [exact Hs'|].
        destruct Hkind as [->|Hres]; [exact Hor|now right].
      + intros k n s1 Hk (k0 & m & Hlt & Hk0 & Hm & Hlab).
        apply money_write_columns in Hk
          as [[_ Hres]|[(_ & _ & Hres)|(Hn1 & Hn2 & Hk)]];
          [exact Hres|exact Hres|].
        destruct (Nat.eq_dec k0 i) as [->|Hne].
        * rewrite Hi in Hk0. injection Hk0 as <-.
          destruct Hlab as [->|[Hind ->]]; [contradiction|].
          now destruct (Hn2 Hind).
        * apply (Hmet k n s1 Hk). exists k0, m.
          split; [lia|]. now repeat split.
      + intros k n s0 Hlt Hk Hn.
        destruct (Nat.eq_dec k i) as [->|Hne].
        * rewrite Hs in Hk. injection Hk as <- <-.
          exists v. split; [exact Ev|]. split.
          -- intros _.
             rewrite (money_write_lookup np_log mean std
                 log scale ind name v F1 i
                        name s Hsi).
             now rewrite String.eqb_refl.
          -- intros ->. rewrite df_get_money_write.
             destruct (String.eqb_spec (name +:+ "_ind") name) as [Heq|_];
               [now apply append_ne_self in Heq|].
             now rewrite String.eqb_refl.
        * destruct (Hdone k n s0 ltac:(lia) Hk Hn) as (v0 & Hv0 & Hc0 & Hg0).
          assert (n <> name) as Hnn.
          { intros ->. apply Hfresh. exists k, name.
            split; [lia|]. split; [eapply lookup_names, Hk|]. now split; auto. }
          exists v0. split; [exact Hv0|]. split.
          -- intros Hun. apply money_write_untouched; [now apply Hc0|exact Hnn|].
             intros Hind. apply (Hun Hind name Em).
             eapply lookup_In_names, Hi.
          -- intros ->. rewrite df_get_money_write.
             destruct (String.eqb_spec (n +:+ "_ind") name) as [Heq|_].
             { exfalso. apply Hfresh. exists k, n. split; [lia|].
               split; [eapply lookup_names, Hk|]. split; [exact Hn|].
               right. now split. }
             destruct (String.eqb_spec (n +:+ "_ind") (name +:+ "_ind"))
               as [Heq|_]; [now apply append_inj_r in Heq|].
             now apply Hg0.
    - apply bool_decide_eq_false in Em. exists F1. rewrite frames_say.
      split; [exact Hfr|]. split; [exact Hidx|].
      split; [now exists extra|]. split; [exact Hpos|]. split.
      + intros k n s1 Hk (k0 & m & Hlt & Hk0 & Hm & Hlab).
        apply (Hmet k n s1 Hk). exists k0, m.
        assert (k0 <> i) as Hne.
        { intros ->. rewrite Hi in Hk0. injection Hk0 as <-. contradiction. }
        split; [lia|]. now repeat split.
      + intros k n s0 Hlt Hk Hn.
        assert (k <> i) as Hne.
        { intros ->. rewrite Hs in Hk. injection Hk as <- <-.
          contradiction. }
        apply (Hdone k n s0); [lia|exact Hk|exact Hn]. }
  pose proof (clean_money_rule np_log mean std
      log scale ind Inv (fun _ _ => True)
                d money verbose h F HF H0 Hstep) as R.
  rewrite Hrun in R. destruct R as [-> (F' & Hfr & Hidx & _ & _ & _ & Hdone)].
  split; [reflexivity|]. exists F'. split; [exact Hfr|]. split; [exact Hidx|].
  intros k n s Hk Hn. apply (Hdone k n s); [|exact Hk|exact Hn].
  apply lookup_lt_Some in Hk. unfold df_names. now rewrite length_map.
Qed.

End MoneyReturns.

(** *** Currency text parses *)

Lemma digit_facts c :
  PyFloat.is_digit c = true ->
  PyFloat.is_space c = false /\ PyFloat.is_underscore c = false /\
  Ascii.eqb c "$" = false /\ Ascii.eqb c "," = false /\
  Ascii.eqb c "." = false /\ Ascii.eqb c "-" = false /\
  Ascii.eqb c "+" = false.
Proof.
  destruct c as [b0 b1 b2 b3 b4 b5 b6 b7].
  destruct b0, b1, b2, b3, b4, b5, b6, b7; intros H; vm_compute in H;
    try discriminate H; vm_compute; repeat split; reflexivity.
Qed.

Lemma replace_char_chars c s :
  list_ascii_of_string (py_replace (String c EmptyString) "" s) =
  List.filter (fun x => negb (Ascii.eqb x c)) (list_ascii_of_string s).
Proof.
  unfold py_replace. induction s as [|a s IH]; [reflexivity|].
  cbn [replace_from String.prefix String.length Nat.sub list_ascii_of_string
       List.filter].
  destruct (ascii_dec c a) as [<-|Hne].
  - rewrite Ascii.eqb_refl. cbn [negb].
    destruct s; cbn [String.prefix String.append]; exact IH.
  - assert (Ascii.eqb a c = false) as ->
      by (apply Ascii.eqb_neq; congruence).
    cbn [negb list_ascii_of_string]. f_equal. exact IH.
Qed.

Lemma stripped_chars t :
  list_ascii_of_string (py_replace "," "" (py_replace "$" "" t)) =
  List.filter (fun x => negb (Ascii.eqb x "$") && negb (Ascii.eqb x ","))
    (list_ascii_of_string t).
Proof.
  rewrite !replace_char_chars. induction (list_ascii_of_string t) as [|c l IH];
    [reflexivity|].
  cbn [List.filter]. destruct (Ascii.eqb c "$"); cbn [negb andb]; [exact IH|].
  cbn [List.filter]. destruct (Ascii.eqb c ","); cbn [negb]; [exact IH|].
  f_equal. exact IH.
Qed.

Lemma strip_underscores_plain l : forall prev,
  PyFloat.is_underscore prev = false ->
  forallb (fun c => negb (PyFloat.is_underscore c)) l = true ->
  PyFloat.strip_underscores prev l = Some l.
Proof.
  induction l as [|c l IH]; intros prev Hp Hl; cbn [PyFloat.strip_underscores].
  - now rewrite Hp.
  - cbn [forallb] in Hl. apply andb_true_iff in Hl as [Hc Hl].
    apply negb_true_iff in Hc. rewrite Hc, Hp. cbn [andb].
    now rewrite (IH c Hc Hl).
Qed.

Lemma span_digits_app ds rest :
  forallb PyFloat.is_digit ds = true ->
  match rest with c :: _ => PyFloat.is_digit c = false | [] => True end ->
  PyFloat.span_digits (ds ++ rest) = (ds, rest).
Proof.
  intros Hds Hrest. induction ds as [|c ds IH]; cbn [app].
  - destruct rest as [|c r]; [reflexivity|]. cbn. now rewrite Hrest.
  - cbn [forallb] in Hds. apply andb_true_iff in Hds as [Hc Hds].
    cbn [PyFloat.span_digits]. now rewrite Hc, (IH Hds).
Qed.

Lemma digits_plain ds :
  forallb PyFloat.is_digit ds = true ->
  forallb (fun c => negb (PyFloat.is_underscore c)) ds = true.
Proof.
  induction ds as [|c ds IH]; [reflexivity|]. cbn [forallb].
  rewrite !andb_true_iff. intros [Hc Hds]. split; [|now apply IH].
  apply digit_facts in Hc as (_ & -> & _). reflexivity.
Qed.

(** Digits, then nothing or a point and digits, read as a decimal
    numeral. *)
Lemma parse_plain ds fs tail :
  ds <> [] ->
  forallb PyFloat.is_digit ds = true ->
  forallb PyFloat.is_digit fs = true ->
  (tail = [] /\ fs = []) \/ tail = "."%char :: fs ->
  PyFloat.parse_chars (ds ++ tail) =
  Some (PyFloat.to_double false (PyFloat.digits_val (ds ++ fs))
          (- Z.of_nat (length fs))).
Proof.
  intros Hne Hds Hfs Htail. unfold PyFloat.parse_chars.
  rewrite strip_underscores_plain; [|reflexivity|].
  2:{ rewrite forallb_app, (digits_plain _ Hds).
      destruct Htail as [[-> _]| ->]; [reflexivity|].
      cbn [forallb andb]. now rewrite (digits_plain _ Hfs). }
  destruct ds as [|c ds]; [contradiction|].
  pose proof Hds as Hds'. cbn [forallb] in Hds'.
  apply andb_true_iff in Hds' as [Hc _].
  destruct (digit_facts c Hc) as (Hsp & _ & _ & _ & _ & Hminus & Hplus).
  cbn [app PyFloat.drop_spaces]. rewrite Hsp.
  cbn [PyFloat.parse_sign]. rewrite Hminus, Hplus.
  unfold PyFloat.parse_decimal.
  change (c :: ds ++ tail) with ((c :: ds) ++ tail).
  destruct Htail as [[-> ->]| ->].
  - rewrite span_digits_app by (exact Hds || exact Logic.I).
    rewrite !app_nil_r. cbn [app length PyFloat.all_spaces forallb].
    reflexivity.
  - rewrite span_digits_app by (exact Hds || reflexivity).
    change (Ascii.eqb "." ".") with true. cbv iota.
    rewrite <- (app_nil_r fs) at 1.
    rewrite span_digits_app by (exact Hfs || exact Logic.I).
    cbn [app PyFloat.all_spaces forallb].
    replace (0 - Z.of_nat (length fs)) with (- Z.of_nat (length fs)) by lia.
    reflexivity.
Qed.

Lemma span_while_spec {A} (p : A -> bool) l :
  let '(a, b) := span_while p l in
  l = a ++ b /\ forallb p a = true /\
  match b with c :: _ => p c = false | [] => True end.
Proof.
  induction l as [|c l IH]; cbn [span_while]; [now repeat split|].
  destruct (p c) eqn:E; [|now repeat split].
  destruct (span_while p l) as [a b]. destruct IH as (-> & Ha & Hb).
  cbn [app forallb]. rewrite E, Ha. now repeat split.
Qed.

Lemma filter_all {A} (p : A -> bool) l :
  forallb p l = true -> List.filter p l = l.
Proof.
  induction l as [|c l IH]; [reflexivity|]. cbn [forallb List.filter].
  rewrite andb_true_iff. intros [-> Hl]. now rewrite IH.
Qed.

Lemma filter_agree {A} (p q : A -> bool) l :
  (forall c, In c l -> p c = q c) -> List.filter p l = List.filter q l.
Proof.
  induction l as [|c l IH]; intros H; [reflexivity|]. cbn [List.filter].
  rewrite (H c (or_introl eq_refl)), IH by (intros; apply H; now right).
  reflexivity.
Qed.

Lemma after_point_app l1 l2 :
  forallb (fun c => negb (Ascii.eqb c ".")) l1 = true ->
  after_point (l1 ++ l2) = after_point l2.
Proof.
  induction l1 as [|c l1 IH]; [reflexivity|]. cbn [forallb app after_point].
  rewrite andb_true_iff, negb_true_iff. intros [-> Hl]. now apply IH.
Qed.

Lemma currency_body_shape l :
  currency_body l = true ->
  exists ds fs tail,
    List.filter keep_char l = ds ++ tail /\
    ds <> [] /\
    forallb PyFloat.is_digit ds = true /\
    forallb PyFloat.is_digit fs = true /\
    ((tail = [] /\ fs = []) \/ tail = "."%char :: fs) /\
    List.filter PyFloat.is_digit l = ds ++ fs /\
    after_point l = fs.
Proof.
  unfold currency_body.
  pose proof (span_while_spec
                (fun c => PyFloat.is_digit c || Ascii.eqb c ","%char) l) as Hs.
  destruct (span_while _ l) as [ip rest]. destruct Hs as (-> & Hip & _).
  rewrite andb_true_iff. intros [Hex Hrest].
  rewrite forallb_forall in Hip.
  assert (forall c, In c ip -> keep_char c = PyFloat.is_digit c) as Hkeep.
  { intros c Hc. specialize (Hip c Hc). unfold keep_char.
    destruct (PyFloat.is_digit c) eqn:Ed.
    - now destruct (digit_facts c Ed) as (_ & _ & -> & -> & _).
    - cbn [orb] in Hip. apply Ascii.eqb_eq in Hip. now subst c. }
  assert (forallb (fun c => negb (Ascii.eqb c ".")) ip = true) as Hnopoint.
  { apply forallb_forall. intros c Hc. specialize (Hip c Hc).
    destruct (PyFloat.is_digit c) eqn:Ed.
    - now destruct (digit_facts c Ed) as (_ & _ & _ & _ & -> & _).
    - cbn [orb] in Hip. apply Ascii.eqb_eq in Hip. now subst c. }
  assert (List.filter PyFloat.is_digit ip <> []) as Hne.
  { apply existsb_exists in Hex as (c & Hc & Hd). intros E.
    assert (In c (List.filter PyFloat.is_digit ip)) as Hin
      by (apply filter_In; now split).
    rewrite E in Hin. exact Hin. }
  assert (forallb PyFloat.is_digit (List.filter PyFloat.is_digit ip) = true)
    as Hall.
  { apply forallb_forall. intros c Hc. now apply filter_In in Hc. }
  rewrite !List.filter_app, (filter_agree _ _ _ Hkeep), after_point_app
    by exact Hnopoint.
  destruct rest as [|c fs].
  - exists (List.filter PyFloat.is_digit ip), [], [].
    cbn [List.filter after_point]. now repeat split; auto.
  - apply andb_true_iff in Hrest as [Hc Hfs]. apply Ascii.eqb_eq in Hc.
    subst c. exists (List.filter PyFloat.is_digit ip), fs, ("."%char :: fs).
    assert (List.filter keep_char fs = fs) as Hk.
    { apply filter_all, forallb_forall. intros c Hc.
      rewrite forallb_forall in Hfs. unfold keep_char.
      now destruct (digit_facts c (Hfs c Hc)) as (_ & _ & -> & -> & _). }
    cbn [List.filter after_point]. change (keep_char ".") with true.
    change (PyFloat.is_digit ".") with false.
    change (Ascii.eqb "." ".") with true. cbv iota.
    rewrite Hk, (filter_all _ _ Hfs). now repeat split; auto.
Qed.

(** One cell: text in the currency format, with every [$] and [,] removed,
    is accepted by [float] and read as the number it denotes. *)
Lemma parse_money_currency t :
  is_currency t = true -> parse_money t = Some (currency_value t).
Proof.
  unfold is_currency, parse_money, PyFloat.float_of_str, currency_value.
  rewrite stripped_chars. fold keep_char.
  change (fun x => negb (Ascii.eqb x "$") && negb (Ascii.eqb x ","))
    with keep_char.
  destruct (list_ascii_of_string t) as [|c r]; [discriminate|].
  destruct (Ascii.eqb c "$") eqn:Ec.
  - apply Ascii.eqb_eq in Ec. subst c. intros H.
    destruct (currency_body_shape r H)
      as (ds & fs & tail & Hk & Hne & Hds & Hfs & Htail & Hd & Ha).
    cbn [List.filter after_point]. change (keep_char "$") with false.
    change (PyFloat.is_digit "$") with false.
    change (Ascii.eqb "$" ".") with false. cbv iota.
    rewrite Hk, Hd, Ha. now apply parse_plain.
  - intros H.
    destruct (currency_body_shape (c :: r) H)
      as (ds & fs & tail & Hk & Hne & Hds & Hfs & Htail & Hd & Ha).
    rewrite Hk, Hd, Ha. now apply parse_plain.
Qed.

(** *** Parsed columns *)

Lemma parsed_column_text v :
  parsed_column (SObject v) =
    parse_cells (map (option_map (fun t => py_replace "," "" (py_replace "$" "" t))) v) /\
  parsed_column (SString v) =
    parse_cells (map (option_map (fun t => py_replace "," "" (py_replace "$" "" t))) v).
Proof.
  unfold parsed_column, strip_money. cbn [str_replace astype_float].
  rewrite !map_map.
  assert (forall o : option string,
             option_map (py_replace "," "") (option_map (py_replace "$" "") o)
             = option_map (fun t => py_replace "," "" (py_replace "$" "" t)) o)
    as E by now intros [].
  split; f_equal; apply map_ext; exact E.
Qed.

Lemma parse_cells_map (f : option string -> float) v :
  (forall o, In o v ->
     match o with
     | Some t => parse_money t = Some (f (Some t))
     | None => f None = PrimFloat.nan
     end) ->
  parse_cells (map (option_map (fun t => py_replace "," "" (py_replace "$" "" t))) v)
  = Ok (map f v).
Proof.
  induction v as [|o v IH]; intros H; [reflexivity|].
  cbn [map parse_cells]. rewrite IH by (intros; apply H; now right).
  pose proof (H o (or_introl eq_refl)) as Ho. destruct o as [t|].
  - cbn [option_map]. unfold parse_money in Ho. now rewrite Ho.
  - cbn [option_map]. now rewrite Ho.
Qed.



Lemma parsed_currency s :
  currency_column s = true ->
  parsed_column s = Ok (map currency_cell (plain_cells s)).
Proof.
  destruct s; try discriminate; cbn [currency_column plain_cells];
    intros H; rewrite forallb_forall in H;
    [rewrite (proj1 (parsed_column_text v))
    |rewrite (proj2 (parsed_column_text v))];
    apply parse_cells_map; intros [t|] Hin; try reflexivity;
    apply parse_money_currency, (H _ Hin).
Qed.

Lemma currency_ready_money_ready money ind F :
  currency_ready money ind F = true -> money_ready money ind F = true.
Proof.
  unfold currency_ready, money_ready. rewrite !andb_true_iff.
  intros [[Hnd Hcols] Hclash]. repeat split; [exact Hnd| |exact Hclash].
  rewrite forallb_forall in *. intros c Hc. specialize (Hcols c Hc).
  destruct (bool_decide (fst c ∈ money)); [|reflexivity].
  cbn [implb] in *. now rewrite (parsed_currency _ Hcols).
Qed.

(** *** Missing cells of a float64 column *)

Lemma is_nan_eq x : PrimFloat.is_nan x = true -> x = PrimFloat.nan.
Proof.
  unfold PrimFloat.is_nan. rewrite FloatAxioms.eqb_spec. intros H.
  apply Prim2SF_inj. change (Prim2SF PrimFloat.nan) with S754_nan.
  destruct (Prim2SF x) as [s|s| |s m e]; [..|reflexivity|]; exfalso;
    revert H; unfold SFeqb, SFcompare.
  - discriminate.
  - now destruct s.
  - destruct s; rewrite Z.compare_refl, Pos.compare_cont_refl; discriminate.
Qed.

Lemma nan_add x y :
  PrimFloat.is_nan x = true -> PrimFloat.add x y = PrimFloat.nan.
Proof.
  intros H. apply is_nan_eq in H. subst x. apply Prim2SF_inj.
  rewrite add_spec. now change (Prim2SF PrimFloat.nan) with S754_nan.
Qed.

Lemma nan_sub x y :
  PrimFloat.is_nan x = true -> PrimFloat.sub x y = PrimFloat.nan.
Proof.
  intros H. apply is_nan_eq in H. subst x. apply Prim2SF_inj.
  rewrite sub_spec. now change (Prim2SF PrimFloat.nan) with S754_nan.
Qed.

Lemma nan_div x y :
  PrimFloat.is_nan x = true -> PrimFloat.div x y = PrimFloat.nan.
Proof.
  intros H. apply is_nan_eq in H. subst x. apply Prim2SF_inj.
  rewrite div_spec. now change (Prim2SF PrimFloat.nan) with S754_nan.
Qed.

(** *** The [log], [scale] and [indicator] steps *)

(** The example of C2 as the specification words it, with the empty string
    for the third cell: the conversion to float raises, and the frame is left
    without an indicator column. *)
Lemma indicator_example_raises :
  clean_money_columns sample_log seq_mean seq_std
      0%nat ["price"] false false true false
    (price_store [Some "$0"; Some "$5.00"; Some ""; Some "$0"])
  = (Raise ValueError,
     price_store [Some "$0"; Some "$5.00"; Some ""; Some "$0"]).
Proof. vm_compute. reflexivity. Qed.

(** *** Columns that stop the run *)

Lemma parsed_column_cells s :
  parsed_column s =
  match text_cells s with
  | Some cells =>
      parse_cells
        (map (option_map (fun t => py_replace "," "" (py_replace "$" "" t)))
           cells)
  | None => Raise AttributeError
  end.
Proof.
  assert (forall v : list (option string),
            map (option_map (py_replace "," ""))
              (map (option_map (py_replace "$" "")) v) =
            map (option_map
                   (fun t => py_replace "," "" (py_replace "$" "" t))) v) as E.
  { intros v. rewrite map_map. apply map_ext. now intros []. }
  destruct s; unfold parsed_column, strip_money;
    cbn [str_replace astype_float text_cells]; try reflexivity;
    now rewrite E.
Qed.

Lemma parse_cells_exn v e : parse_cells v = Raise e -> e = ValueError.
Proof.
  induction v as [|o v IH]; cbn [parse_cells]; [discriminate|].
  destruct o as [t|].
  - destruct (PyFloat.float_of_str t); [|now intros [= <-]].
    destruct (parse_cells v); [discriminate|]. intros [= <-]. now apply IH.
  - destruct (parse_cells v); [discriminate|]. intros [= <-]. now apply IH.
Qed.

Lemma parsed_column_exn s e :
  parsed_column s = Raise e -> e = ValueError \/ e = AttributeError.
Proof.
  rewrite parsed_column_cells. destruct (text_cells s).
  - intros H. left. eapply parse_cells_exn, H.
  - intros [= <-]. now right.
Qed.



(** *** A second run *)

(** After a run that returned, every column that was named in
    [money_columns] holds a float64 or a nullable boolean column. *)
Lemma money_run_results np_log mean std log scale ind h d F money verbose h1 :
  frames h !! d = Some F ->
  clean_money_columns np_log mean std
      d money log scale ind verbose h = (Ok d, h1) ->
  exists F1,
    frames h1 !! d = Some F1 /\
    (exists extra, df_names F1 = df_names F ++ extra) /\
    forall k n, df_names F !! k = Some n -> n ∈ money ->
      exists s1, df_cols F1 !! k = Some (n, s1) /\ is_result s1 = true.
Proof.
  intros HF Hrun.
  pose (Inv := fun (i : nat) (h' : heap) =>
    exists F1, frames h' !! d = Some F1 /\
      (exists extra, df_names F1 = df_names F ++ extra) /\
      forall k n, (k < i)%nat -> df_names F !! k = Some n -> n ∈ money ->
        exists s1, df_cols F1 !! k = Some (n, s1) /\ is_result s1 = true).
  assert (Inv 0%nat h) as H0.
  { exists F. split; [exact HF|]. split; [exists []; now rewrite app_nil_r|].
    intros; lia. }
  assert (forall k name h',
             df_names F !! k = Some name -> Inv k h' ->
             match bind (ixs d k)
                     (money_body np_log mean std
                         d money log scale ind verbose 1%float
                        tt name) h' with
             | (Ok _, h2) => Inv (S k) h2
             | (Raise e, h2) => True
             end) as Hstep.
  { intros k name h' Hk (F1 & HF1 & (extra & Hnames) & Hres).
    assert (df_names F1 !! k = Some name) as Hk1
      by (rewrite Hnames; now apply lookup_app_l_Some).
    destruct (names_lookup F1 k name Hk1) as [sk Hsk].
    rewrite (money_body_run np_log mean std
        log scale ind d money verbose name k h'
               F1 (name, sk) HF1 Hsk).
    destruct (bool_decide (name ∈ money)) eqn:Em.
    - cbn [snd]. destruct (parsed_column sk) as [v|e]; [|exact Logic.I].
      exists (money_write np_log mean std log scale ind name v F1).
      rewrite frames_say. cbn [frames].
      split; [eapply frames_insert_lookup, HF1|]. split.
      { rewrite money_write_names by (eapply lookup_In_names, Hk1).
        rewrite Hnames, <- app_assoc. now eexists. }
      intros k' n Hlt Hk' Hn.
      destruct (Nat.eq_dec k' k) as [->|Hne].
      + rewrite Hk in Hk'. injection Hk' as <-.
        destruct (money_write_result np_log mean std
            log scale ind name v F1 k name sk
                    Hsk) as (s' & Hs' & _ & Hkind).
        exists s'. split; [exact Hs'|]. now apply Hkind.
      + destruct (Hres k' n ltac:(lia) Hk' Hn) as (s1 & Hs1 & Hr1).
        destruct (money_write_result np_log mean std
            log scale ind name v F1 k' n s1
                    Hs1) as (s' & Hs' & [E|Hkind] & _);
          exists s'; subst; now split.
    - apply bool_decide_eq_false in Em. exists F1. rewrite frames_say.
      split; [exact HF1|]. split; [now exists extra|].
      intros k' n Hlt Hk' Hn.
      destruct (Nat.eq_dec k' k) as [->|Hne].
      + rewrite Hk in Hk'. injection Hk' as <-. contradiction.
      + apply Hres; [lia|exact Hk'|exact Hn]. }
  pose proof (clean_money_rule np_log mean std
      log scale ind Inv (fun _ _ => True)
                d money verbose h F HF H0 Hstep) as R.
  rewrite Hrun in R. destruct R as [_ (F1 & HF1 & Hnames & Hres)].
  exists F1. split; [exact HF1|]. split; [exact Hnames|].
  intros k n Hk Hn. apply (Hres k n); [|exact Hk|exact Hn].
  eapply lookup_lt_Some, Hk.
Qed.

(** C3 as it holds: once a run has returned on a frame with a column named
    in [money_columns], a second run with the same [money_columns], whatever
    its flags, does not succeed: at the first money column the text accessor
    raises [AttributeError], and the frames of the store are as the first
    run left them, so no indicator column is created again. *)
Theorem clean_money_columns_twice
    np_log mean std
        h d F money log scale ind verbose log2 scale2 ind2 verbose2 h1 :
  frames h !! d = Some F ->
  (exists k n, df_names F !! k = Some n /\ n ∈ money) ->
  clean_money_columns np_log mean std
      d money log scale ind verbose h = (Ok d, h1) ->
  exists h2,
    clean_money_columns np_log mean std d money log2 scale2 ind2 verbose2 h1
      = (Raise AttributeError, h2) /\
    frames h2 = frames h1.
Proof.
  intros HF (k0 & n0 & Hk0 & Hn0) Hrun.
  destruct (money_run_results _ _ _ _ _ _ _ _ _ _ _ _ HF Hrun)
    as (F1 & HF1 & (extra & Hnames) & Hres).
  pose (Inv := fun (i : nat) (h' : heap) =>
    frames h' = frames h1 /\
    forall k n, (k < i)%nat -> df_names F1 !! k = Some n -> ~ n ∈ money).
  assert (Inv 0%nat h1) as H0 by (split; [reflexivity|intros; lia]).
  assert (df_names F1 !! k0 = Some n0) as Hk0'
    by (rewrite Hnames; now apply lookup_app_l_Some).
  assert (forall k name h',
             df_names F1 !! k = Some name -> Inv k h' ->
             match bind (ixs d k)
                     (money_body np_log mean std
                         d money log2 scale2 ind2 verbose2
                        1%float tt name) h' with
             | (Ok _, h2) => Inv (S k) h2
             | (Raise e, h2) => e = AttributeError /\ frames h2 = frames h1
             end) as Hstep.
  { intros k name h' Hk [Hfr Hnone].
    destruct (names_lookup F1 k name Hk) as [sk Hsk].
    rewrite (money_body_run np_log mean std
        log2 scale2 ind2 d money verbose2 name k
               h' F1 (name, sk)) by (rewrite ?Hfr; assumption).
    destruct (bool_decide (name ∈ money)) eqn:Em.
    - apply bool_decide_eq_true in Em. cbn [snd].
      assert (k <= k0)%nat as Hle.
      { destruct (Nat.le_gt_cases k k0) as [|Hgt]; [assumption|].
        now destruct (Hnone k0 n0 Hgt Hk0'). }
      assert (df_names F !! k = Some name) as HkF.
      { rewrite Hnames in Hk. rewrite lookup_app_l in Hk; [exact Hk|].
        apply lookup_lt_Some in Hk0. lia. }
      destruct (Hres k name HkF Em) as (s1 & Hs1 & Hr1).
      rewrite Hsk in Hs1. injection Hs1 as <-.
      rewrite (parsed_column_result _ Hr1). now split.
    - apply bool_decide_eq_false in Em. split; [now rewrite frames_say|].
      intros k' n Hlt Hk' Hn.
      destruct (Nat.eq_dec k' k) as [->|Hne].
      + rewrite Hk in Hk'. injection Hk' as <-. contradiction.
      + apply (Hnone k' n); [lia|exact Hk'|exact Hn]. }
  pose proof (clean_money_rule np_log mean std log2 scale2 ind2 Inv
                (fun e h' => e = AttributeError /\ frames h' = frames h1)
                d money verbose2 h1 F1 HF1 H0 Hstep) as R.
  destruct (clean_money_columns np_log mean std
      d money log2 scale2 ind2 verbose2 h1)
    as [[r|e] h2].
  - exfalso. destruct R as [_ [_ Hnone]].
    apply (Hnone k0 n0); [eapply lookup_lt_Some, Hk0'|exact Hk0'|exact Hn0].
  - destruct R as [-> Hfr]. now exists h2.
Qed.

(** A second run on the result of the first, flags as in C3: it raises,
    where C3 as worded has it succeed. *)
Lemma second_run_raises :
  exists h1,
    clean_money_columns sample_log seq_mean seq_std
        0%nat ["price"] false false true false
      (price_store [Some "$1"; Some "$0"]) = (Ok 0%nat, h1) /\
    clean_money_columns sample_log seq_mean seq_std
        0%nat ["price"] false false true false h1
      = (Raise AttributeError, h1).
Proof. eexists. split; [vm_compute; reflexivity|]. vm_compute. reflexivity. Qed.

(** *** The money columns after a run *)

Lemma money_ready_runs np_log mean std log scale ind h d F money verbose :
  frames h !! d = Some F ->
  money_ready money ind F = true ->
  exists h',
    clean_money_columns np_log mean std
        d money log scale ind verbose h = (Ok d, h').
Proof.
  intros HF Hready.
  destruct (money_run np_log mean std
      log scale ind h d F money verbose HF Hready)
    as (h' & _ & Hrun & _).
  now exists h'.
Qed.

Lemma parse_cells_text l v j t :
  parse_cells l = Ok v -> l !! j = Some (Some t) ->
  exists x, PyFloat.float_of_str t = Some x /\ v !! j = Some x.
Proof.
  revert v j. induction l as [|o l IH]; intros v j Hp Hj; [discriminate|].
  cbn [parse_cells] in Hp. destruct o as [t'|].
  - destruct (PyFloat.float_of_str t') as [x|] eqn:Ex; [|discriminate].
    destruct (parse_cells l) as [fs|]; [|discriminate].
    injection Hp as <-. destruct j as [|j].
    + injection Hj as ->. now exists x.
    + apply (IH fs j eq_refl Hj).
  - destruct (parse_cells l) as [fs|]; [|discriminate].
    injection Hp as <-. destruct j as [|j]; [discriminate|].
    apply (IH fs j eq_refl Hj).
Qed.

Lemma parsed_column_text_cell s v cells j t :
  parsed_column s = Ok v -> text_cells s = Some cells ->
  cells !! j = Some (Some t) ->
  exists x, parse_money t = Some x /\ v !! j = Some x.
Proof.
  intros Hv Hc Hj. rewrite parsed_column_cells, Hc in Hv.
  eapply parse_cells_text; [exact Hv|]. now rewrite lookup_map, Hj.
Qed.

Lemma parsed_column_has_text s v :
  parsed_column s = Ok v -> exists cells, text_cells s = Some cells.
Proof.
  rewrite parsed_column_cells. destruct (text_cells s) as [cells|];
    [now exists cells|discriminate].
Qed.

(** C4 as it holds: a text value in the currency format, with every [$] and
    [,] removed, is accepted by [float] and read as the number it denotes;
    on a frame of currency text the call returns; and whenever the call
    returns, with [log] and [scale] off, a money column whose label is not
    the indicator label of another money column of the frame holds in its
    place the float64 column of its parsed cells: each text cell is replaced
    by [float] of the text without [$] and [,]. *)
Theorem clean_money_columns_currency np_log mean std h d F money ind verbose :
  frames h !! d = Some F ->
  (forall t, is_currency t = true ->
             parse_money t = Some (currency_value t)) /\
  (currency_ready money ind F = true ->
   exists h',
     clean_money_columns np_log mean std d money false false ind verbose h
       = (Ok d, h')) /\
  (forall r h',
      clean_money_columns np_log mean std d money false false ind verbose h
        = (Ok r, h') ->
      exists F',
        frames h' !! d = Some F' /\
        forall k n s, df_cols F !! k = Some (n, s) -> n ∈ money ->
          unclobbered money ind F n ->
          exists cells v,
            text_cells s = Some cells /\
            parsed_column s = Ok v /\
            df_cols F' !! k = Some (n, SFloat v) /\
            forall j t, cells !! j = Some (Some t) ->
              exists x, parse_money t = Some x /\ v !! j = Some x /\
                        (is_currency t = true -> x = currency_value t)).
Proof.
  intros HF. split; [exact parse_money_currency|]. split.
  - intros Hready. apply (money_ready_runs _ _ _ _ _ _ _ _ F); [exact HF|].
    now apply currency_ready_money_ready.
  - intros r h' Hrun.
    destruct (money_returns np_log mean std
        false false ind h d F money verbose r h'
                HF Hrun) as (_ & F' & Hfr & _ & Hdone).
    exists F'. split; [rewrite Hfr; eapply frames_insert_lookup, HF|].
    intros k n s Hk Hn Hun.
    destruct (Hdone k n s Hk Hn) as (v & Hv & Hcol & _).
    destruct (parsed_column_has_text _ _ Hv) as [cells Hcells].
    exists cells, v. split; [exact Hcells|]. split; [exact Hv|].
    split; [now apply Hcol|].
    intros j t Hj.
    destruct (parsed_column_text_cell _ _ _ _ _ Hv Hcells Hj) as (x & Hx & Hjx).
    exists x. split; [exact Hx|]. split; [exact Hjx|].
    intros Ht. rewrite (parse_money_currency _ Ht) in Hx. now injection Hx.
Qed.

(** C6 as it holds: with [log] on, the call returns on every frame that is
    ready, and whenever it returns a money column whose label is not the
    indicator label of another money column of the frame holds
    [np_log (v + 1.0)] for each parsed cell [v]
    (scaled afterwards when [scale] is on); a missing cell stays missing,
    given that [np_log] of NaN is NaN; and the cells [$0], [$1] become
    [np_log 1.0], [np_log 2.0]. *)
Theorem clean_money_columns_log np_log mean std h d F money scale ind verbose :
  frames h !! d = Some F ->
  (forall x, PrimFloat.is_nan x = true -> PrimFloat.is_nan (np_log x) = true) ->
  (money_ready money ind F = true ->
   exists h',
     clean_money_columns np_log mean std d money true scale ind verbose h
       = (Ok d, h')) /\
  (forall r h',
      clean_money_columns np_log mean std d money true scale ind verbose h
        = (Ok r, h') ->
      exists F',
        frames h' !! d = Some F' /\
        forall k n s, df_cols F !! k = Some (n, s) -> n ∈ money ->
          unclobbered money ind F n ->
          exists v, parsed_column s = Ok v /\
            let w := map (fun x => np_log (PrimFloat.add x 1%float)) v in
            df_cols F' !! k =
              Some (n, SFloat (if scale then scale_step mean std w else w)) /\
            forall j x, v !! j = Some x -> PrimFloat.is_nan x = true ->
              exists y, (if scale then scale_step mean std
                  w else w) !! j = Some y /\
                        PrimFloat.is_nan y = true) /\
  (exists h',
      clean_money_columns np_log mean std 0%nat ["price"] true false true false
        (price_store [Some "$0"; Some "$1"]) = (Ok 0%nat, h') /\
      option_map df_cols (frames h' !! 0%nat) =
        Some [("price", SFloat [np_log 1%float; np_log 2%float]);
              ("price_ind", SBoolean [Some true; Some false])]).
Proof.
  intros HF Hnan. split; [|split].
  - intros Hready. now apply (money_ready_runs _ _ _ _ _ _ _ _ F).
  - intros r h' Hrun.
    destruct (money_returns np_log mean std
        true scale ind h d F money verbose r h'
                HF Hrun) as (_ & F' & Hfr & _ & Hdone).
    exists F'. split; [rewrite Hfr; eapply frames_insert_lookup, HF|].
    intros k n s Hk Hn Hun.
    destruct (Hdone k n s Hk Hn) as (v & Hv & Hcol & _).
    exists v. split; [exact Hv|]. cbn zeta. split; [now apply Hcol|].
    intros j x Hj Hx.
    assert (PrimFloat.is_nan (np_log (PrimFloat.add x 1%float)) = true) as Hy.
    { apply Hnan. now rewrite nan_add. }
    destruct scale.
    + unfold scale_step. rewrite !lookup_map, Hj. cbn [option_map].
      eexists. split; [reflexivity|]. rewrite nan_div; [reflexivity|].
      rewrite nan_sub; [reflexivity|exact Hy].
    + rewrite lookup_map, Hj. cbn [option_map]. now eexists.
  - eexists. split; [vm_compute; reflexivity|]. vm_compute. reflexivity.
Qed.

(** C5 as it holds: with [scale] on, the call returns on every frame that is
    ready, and whenever it returns a money column whose label is not the
    indicator label of another money column of the frame holds
    [(v - mean) / std] for each cell [v] of the column as it stands after
    the [log] step, where [mean] and [std] are what [column.mean()] and
    [column.std()] give for that column; a missing cell stays missing; when
    these give 2.0 and 1.0 for the cells 1.0, 2.0, 3.0, as the mean and the
    sample deviation with divisor [count - 1] do, the cells become -1.0,
    0.0, 1.0. *)
Theorem clean_money_columns_scale
    np_log mean std h d F money log ind verbose :
  frames h !! d = Some F ->
  (money_ready money ind F = true ->
   exists h',
     clean_money_columns np_log mean std d money log true ind verbose h
       = (Ok d, h')) /\
  (forall r h',
      clean_money_columns np_log mean std d money log true ind verbose h
        = (Ok r, h') ->
      exists F',
        frames h' !! d = Some F' /\
        forall k n s, df_cols F !! k = Some (n, s) -> n ∈ money ->
          unclobbered money ind F n ->
          exists v, parsed_column s = Ok v /\
            let w := if log
                     then map (fun x => np_log (PrimFloat.add x 1%float)) v
                     else v in
            let scaled := map (fun x => PrimFloat.div
                                          (PrimFloat.sub x (mean w))
                                          (std w)) w in
            df_cols F' !! k = Some (n, SFloat scaled) /\
            length scaled = length v /\
            forall j x, w !! j = Some x -> PrimFloat.is_nan x = true ->
                        scaled !! j = Some PrimFloat.nan) /\
  (mean [1%float; 2%float; 3%float] = 2%float ->
   std [1%float; 2%float; 3%float] = 1%float ->
   exists h' F',
     clean_money_columns np_log mean std 0%nat ["price"] false true true false
       (price_store [Some "1.0"; Some "2.0"; Some "3.0"]) = (Ok 0%nat, h') /\
     frames h' !! 0%nat = Some F' /\
     df_cols F' !! 0%nat =
       Some ("price", SFloat [(-1)%float; 0%float; 1%float])) /\
  (seq_mean [1%float; 2%float; 3%float] = 2%float /\
   seq_std [1%float; 2%float; 3%float] = 1%float).
Proof.
  intros HF. split; [|split; [|split]].
  - intros Hready. now apply (money_ready_runs _ _ _ _ _ _ _ _ F).
  - intros r h' Hrun.
    destruct (money_returns np_log mean std log true ind h d F money verbose
                r h' HF Hrun) as (_ & F' & Hfr & _ & Hdone).
    exists F'. split; [rewrite Hfr; eapply frames_insert_lookup, HF|].
    intros k n s Hk Hn Hun.
    destruct (Hdone k n s Hk Hn) as (v & Hv & Hcol & _).
    exists v. split; [exact Hv|]. cbn zeta. split; [|split].
    + rewrite (Hcol Hun). unfold transform, scale_step, log_step.
      now destruct log.
    + rewrite length_map. now destruct log; rewrite ?length_map.
    + intros j x Hj Hx. rewrite lookup_map, Hj. cbn [option_map].
      now rewrite (nan_div _ _ (eq_trans (f_equal _ (nan_sub _ _ Hx))
                                  eq_refl)).
  - intros Hmean Hstd.
    assert ("price" ∈ ["price"]) as Hin
      by (apply list_elem_of_In; left; reflexivity).
    destruct (money_ready_runs np_log mean std false true true
                (price_store [Some "1.0"; Some "2.0"; Some "3.0"]) 0%nat
                (price_frame [Some "1.0"; Some "2.0"; Some "3.0"])
                ["price"] false eq_refl ltac:(vm_compute; reflexivity))
      as [h' Hrun].
    destruct (money_returns np_log mean std false true true
                (price_store [Some "1.0"; Some "2.0"; Some "3.0"]) 0%nat
                (price_frame [Some "1.0"; Some "2.0"; Some "3.0"])
                ["price"] false 0%nat h' eq_refl Hrun)
      as (_ & F' & Hfr & _ & Hdone).
    exists h', F'. split; [exact Hrun|]. split; [now rewrite Hfr|].
    destruct (Hdone 0%nat "price"
                (SObject [Some "1.0"; Some "2.0"; Some "3.0"]) eq_refl Hin)
      as (v & Hv & Hcol & _).
    vm_compute in Hv. injection Hv as <-. rewrite Hcol.
    + unfold transform, scale_step. rewrite Hmean, Hstd.
      vm_compute. reflexivity.
    + intros _ m Hm _ E. apply list_elem_of_In in Hm as [<-|[]].
      discriminate E.
  - split; vm_compute; reflexivity.
Qed.

(** C2 as it holds: with [indicator] on and whatever [log] and [scale] are,
    the call returns on every frame that is ready, and whenever it returns
    every money column [c] has a column [c_ind] that is missing where the
    parsed cell is missing, true where it equals zero and false elsewhere;
    for the cells [$0], [$5.00], missing, [$0] the indicator is true, false,
    missing, true and the column is 0.0, 5.0, missing, 0.0. *)
Theorem clean_money_columns_indicator np_log mean std
    h d F money log scale verbose :
  frames h !! d = Some F ->
  (money_ready money true F = true ->
   exists h',
     clean_money_columns np_log mean std d money log scale true verbose h
       = (Ok d, h')) /\
  (forall r h',
      clean_money_columns np_log mean std d money log scale true verbose h
        = (Ok r, h') ->
      exists F',
        frames h' !! d = Some F' /\
        forall k n s, df_cols F !! k = Some (n, s) -> n ∈ money ->
          exists v, parsed_column s = Ok v /\
            df_get F' (n +:+ "_ind") =
              Some (SBoolean
                      (map (fun x => if PrimFloat.is_nan x then None
                                     else Some (PrimFloat.eqb x 0%float))
                         v))) /\
  (exists h',
      clean_money_columns np_log mean std 0%nat ["price"] false false true false
        (price_store [Some "$0"; Some "$5.00"; None; Some "$0"])
        = (Ok 0%nat, h') /\
      option_map df_cols (frames h' !! 0%nat) =
        Some [("price", SFloat [0%float; 5%float; PrimFloat.nan; 0%float]);
              ("price_ind",
               SBoolean [Some true; Some false; None; Some true])]).
Proof.
  intros HF. split; [|split].
  - intros Hready. now apply (money_ready_runs _ _ _ _ _ _ _ _ F).
  - intros r h' Hrun.
    destruct (money_returns np_log mean std
        log scale true h d F money verbose r h'
                HF Hrun) as (_ & F' & Hfr & _ & Hdone).
    exists F'. split; [rewrite Hfr; eapply frames_insert_lookup, HF|].
    intros k n s Hk Hn.
    destruct (Hdone k n s Hk Hn) as (v & Hv & _ & Hind).
    exists v. split; [exact Hv|]. now apply Hind.
  - eexists. split; [vm_compute; reflexivity|]. vm_compute. reflexivity.
Qed.


(** *** A money column under the indicator label of another *)

(** C4 as worded, on a frame whose money column [a_ind] stands before the
    money column [a], with the flags left as they are by default: the
    currency text of [a_ind] parses, and when [a] has its turn the indicator
    of [a] is written over it. *)
Lemma currency_column_overwritten :
  exists h',
    clean_money_columns sample_log seq_mean seq_std 0%nat ["a_ind"; "a"]
      false false true false (mkHeap [clash_frame] []) = (Ok 0%nat, h') /\
    currency_column (SObject [Some "$5"; Some "$7"]) = true /\
    parsed_column (SObject [Some "$5"; Some "$7"])
      = Ok [5%float; 7%float] /\
    option_map df_cols (frames h' !! 0%nat) =
      Some [("a_ind", SBoolean [Some true; Some false]);
            ("a", SFloat [0%float; 1%float]);
            ("a_ind_ind", SBoolean [Some false; Some false])].
Proof.
  eexists. split; [vm_compute; reflexivity|].
  split; [reflexivity|]. split; vm_compute; reflexivity.
Qed.

(** C5 as worded, on the same frame with [scale] on: the money column
    [a_ind] does not hold scaled values but the indicator of [a]. *)
Lemma scaled_column_overwritten :
  exists h' F',
    clean_money_columns sample_log seq_mean seq_std 0%nat ["a_ind"; "a"]
      false true true false (mkHeap [clash_frame] []) = (Ok 0%nat, h') /\
    frames h' !! 0%nat = Some F' /\
    df_cols clash_frame !! 0%nat
      = Some ("a_ind", SObject [Some "$5"; Some "$7"]) /\
    df_cols F' !! 0%nat
      = Some ("a_ind", SBoolean [Some true; Some false]).
Proof.
  eexists _, _. split; [vm_compute; reflexivity|].
  split; [vm_compute; reflexivity|]. split; reflexivity.
Qed.

(** C6 as worded, on the same frame with [log] on: the money column [a_ind]
    does not hold logarithms but the indicator of [a]. *)
Lemma logged_column_overwritten :
  exists h' F',
    clean_money_columns sample_log seq_mean seq_std 0%nat ["a_ind"; "a"]
      true false true false (mkHeap [clash_frame] []) = (Ok 0%nat, h') /\
    frames h' !! 0%nat = Some F' /\
    df_cols clash_frame !! 0%nat
      = Some ("a_ind", SObject [Some "$5"; Some "$7"]) /\
    df_cols F' !! 0%nat
      = Some ("a_ind", SBoolean [Some true; Some false]).
Proof.
  eexists _, _. split; [vm_compute; reflexivity|].
  split; [vm_compute; reflexivity|]. split; reflexivity.
Qed.

(** *** Repeated labels *)

(** C8 as worded, on a frame where a label repeats: the numeric columns do
    not all come out, and the survivor of the pair comes out before the
    column that was between the two. *)
Lemma repeated_label_reorders :
  exists r h',
    clean_types 0%nat false (mkHeap [twin_between] []) = (Ok r, h') /\
    option_map df_cols (frames h' !! r) =
      Some [("a", SInt [3]); ("b", SInt [2])] /\
    group Numeric (df_cols twin_between) =
      [("a", SInt [1]); ("b", SInt [2]); ("a", SInt [3])].
Proof.
  eexists _, _. split; [vm_compute; reflexivity|].
  split; vm_compute; reflexivity.
Qed.


(** *** Instances *)

Lemma price_in_money : "price" ∈ ["price"].
Proof. apply list_elem_of_In. left. reflexivity. Defined.

Lemma sample_log_nan x :
  PrimFloat.is_nan x = true -> PrimFloat.is_nan (sample_log x) = true.
Proof.
  intros H. apply is_nan_eq in H. subst x. reflexivity.
Defined.

Lemma price_unclobbered cells :
  unclobbered ["price"] true (price_frame cells) "price".
Proof.
  intros _ m Hm _ E. apply list_elem_of_In in Hm as [<-|[]]. discriminate E.
Defined.


Lemma clean_money_columns_indicator_witness :
  frames (price_store [Some "$0"; Some "$5.00"; None; Some "$0"]) !! 0%nat
    = Some (price_frame [Some "$0"; Some "$5.00"; None; Some "$0"]) /\
  money_ready ["price"] true
    (price_frame [Some "$0"; Some "$5.00"; None; Some "$0"]) = true /\
  exists h' F',
    clean_money_columns sample_log seq_mean seq_std
        0%nat ["price"] true true true false
      (price_store [Some "$0"; Some "$5.00"; None; Some "$0"])
      = (Ok 0%nat, h') /\
    frames h' !! 0%nat = Some F' /\
    df_get F' "price_ind"
      = Some (SBoolean [Some true; Some false; None; Some true]).
Proof.
  split; [reflexivity|]. split; [vm_compute; reflexivity|].
  destruct (clean_money_columns_indicator sample_log seq_mean seq_std
              (price_store [Some "$0"; Some "$5.00"; None; Some "$0"])
              0%nat
              (price_frame [Some "$0"; Some "$5.00"; None; Some "$0"])
              ["price"] true true false eq_refl)
    as (Hruns & Hret & _).
  destruct (Hruns ltac:(vm_compute; reflexivity)) as [h' Hrun].
  destruct (Hret 0%nat h' Hrun) as (F' & HF' & Hcols).
  exists h', F'. split; [exact Hrun|]. split; [exact HF'|].
  destruct (Hcols 0%nat "price"
              (SObject [Some "$0"; Some "$5.00"; None; Some "$0"])
              eq_refl price_in_money) as (v & Hv & Hget).
  vm_compute in Hv. injection Hv as <-. exact Hget.
Defined.

Lemma clean_money_columns_currency_witness :
  frames (price_store [Some "$1,234.50"; None; Some "7"]) !! 0%nat
    = Some (price_frame [Some "$1,234.50"; None; Some "7"]) /\
  currency_ready ["price"] true
    (price_frame [Some "$1,234.50"; None; Some "7"]) = true /\
  exists h' F',
    clean_money_columns sample_log seq_mean seq_std
        0%nat ["price"] false false true false
      (price_store [Some "$1,234.50"; None; Some "7"]) = (Ok 0%nat, h') /\
    frames h' !! 0%nat = Some F' /\
    df_cols F' !! 0%nat =
      Some ("price", SFloat [1234.5%float; PrimFloat.nan; 7%float]).
Proof.
  split; [reflexivity|]. split; [vm_compute; reflexivity|].
  destruct (clean_money_columns_currency sample_log seq_mean seq_std
              (price_store [Some "$1,234.50"; None; Some "7"]) 0%nat
              (price_frame [Some "$1,234.50"; None; Some "7"]) ["price"]
              true false eq_refl)
    as (_ & Hruns & Hret).
  destruct (Hruns ltac:(vm_compute; reflexivity)) as [h' Hrun].
  destruct (Hret 0%nat h' Hrun) as (F' & HF' & Hcols).
  exists h', F'. split; [exact Hrun|]. split; [exact HF'|].
  destruct (Hcols 0%nat "price"
              (SObject [Some "$1,234.50"; None; Some "7"])
              eq_refl price_in_money (price_unclobbered _))
    as (cells & v & _ & Hv & Hcol & _).
  vm_compute in Hv. injection Hv as <-. exact Hcol.
Defined.

Lemma clean_money_columns_scale_witness :
  frames (price_store [Some "$1"; Some "$2"; None; Some "$3"]) !! 0%nat
    = Some (price_frame [Some "$1"; Some "$2"; None; Some "$3"]) /\
  money_ready ["price"] true
    (price_frame [Some "$1"; Some "$2"; None; Some "$3"]) = true /\
  exists h' F',
    clean_money_columns sample_log seq_mean seq_std
        0%nat ["price"] false true true false
      (price_store [Some "$1"; Some "$2"; None; Some "$3"]) = (Ok 0%nat, h') /\
    frames h' !! 0%nat = Some F' /\
    df_cols F' !! 0%nat =
      Some ("price",
            SFloat [(-1)%float; 0%float; PrimFloat.nan; 1%float]).
Proof.
  split; [reflexivity|]. split; [vm_compute; reflexivity|].
  destruct (clean_money_columns_scale sample_log seq_mean seq_std
              (price_store [Some "$1"; Some "$2"; None; Some "$3"]) 0%nat
              (price_frame [Some "$1"; Some "$2"; None; Some "$3"])
              ["price"] false true false eq_refl)
    as (Hruns & Hret & _).
  destruct (Hruns ltac:(vm_compute; reflexivity)) as [h' Hrun].
  destruct (Hret 0%nat h' Hrun) as (F' & HF' & Hcols).
  exists h', F'. split; [exact Hrun|]. split; [exact HF'|].
  destruct (Hcols 0%nat "price"
              (SObject [Some "$1"; Some "$2"; None; Some "$3"])
              eq_refl price_in_money (price_unclobbered _))
    as (v & Hv & Hcol & _).
  vm_compute in Hv. injection Hv as <-. rewrite Hcol. vm_compute.
  reflexivity.
Defined.

Lemma clean_money_columns_log_witness :
  frames (price_store [Some "$0"; None; Some "$3"]) !! 0%nat
    = Some (price_frame [Some "$0"; None; Some "$3"]) /\
  (forall x, PrimFloat.is_nan x = true ->
             PrimFloat.is_nan (sample_log x) = true) /\
  money_ready ["price"] true (price_frame [Some "$0"; None; Some "$3"])
    = true /\
  exists h' F',
    clean_money_columns sample_log seq_mean seq_std
        0%nat ["price"] true false true false
      (price_store [Some "$0"; None; Some "$3"]) = (Ok 0%nat, h') /\
    frames h' !! 0%nat = Some F' /\
    df_cols F' !! 0%nat =
      Some ("price", SFloat [sample_log 1%float; PrimFloat.nan;
                             sample_log 4%float]).
Proof.
  split; [reflexivity|]. split; [exact sample_log_nan|].
  split; [vm_compute; reflexivity|].
  destruct (clean_money_columns_log sample_log seq_mean seq_std
              (price_store [Some "$0"; None; Some "$3"]) 0%nat
              (price_frame [Some "$0"; None; Some "$3"])
              ["price"] false true false eq_refl sample_log_nan)
    as (Hruns & Hret & _).
  destruct (Hruns ltac:(vm_compute; reflexivity)) as [h' Hrun].
  destruct (Hret 0%nat h' Hrun) as (F' & HF' & Hcols).
  exists h', F'. split; [exact Hrun|]. split; [exact HF'|].
  destruct (Hcols 0%nat "price" (SObject [Some "$0"; None; Some "$3"])
              eq_refl price_in_money (price_unclobbered _))
    as (v & Hv & Hcol & _).
  vm_compute in Hv. injection Hv as <-. rewrite Hcol. vm_compute.
  reflexivity.
Defined.

Lemma clean_money_columns_twice_witness :
  frames (price_store [Some "$1"; Some "$0"]) !! 0%nat
    = Some (price_frame [Some "$1"; Some "$0"]) /\
  (exists k n, df_names (price_frame [Some "$1"; Some "$0"]) !! k = Some n /\
               n ∈ ["price"]) /\
  exists h1 h2,
    clean_money_columns sample_log seq_mean seq_std
        0%nat ["price"] false false true false
      (price_store [Some "$1"; Some "$0"]) = (Ok 0%nat, h1) /\
    clean_money_columns sample_log seq_mean seq_std
        0%nat ["price"] false false true false h1
      = (Raise AttributeError, h2) /\
    frames h2 = frames h1.
Proof.
  split; [reflexivity|].
  assert (exists k n,
            df_names (price_frame [Some "$1"; Some "$0"]) !! k = Some n /\
            n ∈ ["price"]) as Hex.
  { exists 0%nat, "price". split; [reflexivity|exact price_in_money]. }
  split; [exact Hex|].
  eexists.
  destruct (clean_money_columns_twice sample_log seq_mean seq_std
              (price_store [Some "$1"; Some "$0"]) 0%nat
              (price_frame [Some "$1"; Some "$0"]) ["price"]
              false false true false false false true false _
              eq_refl Hex ltac:(vm_compute; reflexivity)) as (h2 & H2 & Hfr).
  exists h2. split; [vm_compute; reflexivity|]. split; [exact H2|exact Hfr].
Defined.

Lemma clean_money_columns_frame_witness :
  frames (mkHeap [ledger] []) !! 0%nat = Some ledger /\
  exists F',
    frames (snd (clean_money_columns sample_log seq_mean seq_std 0%nat
                   ["price"] true true true true (mkHeap [ledger] [])))
      = <[0%nat := F']> [ledger] /\
    df_names F' = ["id"; "price"; "tax"; "note"; "price_ind"] /\
    df_cols F' !! 0%nat = Some ("id", SInt [7; 8]) /\
    df_cols F' !! 2%nat = Some ("tax", SString [Some "2.5"; None]) /\
    df_cols F' !! 3%nat = Some ("note", SObject [Some "paid"; None]).
Proof.
  split; [reflexivity|].
  destruct (clean_money_columns_frame sample_log seq_mean seq_std
              (mkHeap [ledger] []) 0%nat ledger ["price"]
              true true true true eq_refl)
    as (F' & Hfr & _ & _ & Hcols).
  exists F'. split; [exact Hfr|].
  assert (forall n, In n ["id"; "tax"; "note"] ->
            ~ n ∈ ["price"] /\
            ~ (true = true /\
               exists m, m ∈ ["price"] /\ In m (df_names ledger) /\
                         n = m +:+ "_ind")) as Hfree.
  { intros n Hn. split.
    - intros H. apply list_elem_of_In in H as [<-|[]].
      cbn in Hn. destruct Hn as [Hn|[Hn|[Hn|[]]]]; discriminate Hn.
    - intros (_ & m & Hm & _ & ->). apply list_elem_of_In in Hm as [<-|[]].
      cbn in Hn. destruct Hn as [Hn|[Hn|[Hn|[]]]]; discriminate Hn. }
  assert (df_cols F' !! 0%nat = Some ("id", SInt [7; 8]) /\
          df_cols F' !! 2%nat = Some ("tax", SString [Some "2.5"; None]) /\
          df_cols F' !! 3%nat = Some ("note", SObject [Some "paid"; None]))
    as Hkept.
  { repeat split; (apply Hcols; [reflexivity|apply Hfree..]); cbn; tauto. }
  split; [|exact Hkept].
  vm_compute in Hfr. injection Hfr as <-. reflexivity.
Defined.

Lemma example_types_distinct : NoDup (df_names example_types).
Proof.
  apply (bool_decide_unpack (NoDup (df_names example_types))).
  vm_compute. exact Logic.I.
Defined.

Lemma clean_types_groups_witness :
  frames (mkHeap [example_types] []) !! 0%nat = Some example_types /\
  NoDup (df_names example_types) /\
  exists r h',
    clean_types 0%nat true (mkHeap [example_types] []) = (Ok r, h') /\
    frames h' !! r =
      Some (mkFrame (df_index example_types)
              [("int_col", SInt [3; 1; 2]);
               ("float_col", SFloat [0.5%float; 2%float; PrimFloat.nan]);
               ("text_col",
                SCategory ["a"; "b"] [Some 1%nat; None; Some 0%nat]);
               ("bool_col", SBool [true; false; true])]).
Proof.
  split; [reflexivity|]. split; [exact example_types_distinct|].
  exact (proj1 (proj2 (clean_types_groups true 0%nat
                         (mkHeap [example_types] []) example_types eq_refl
                         example_types_distinct))).
Defined.


Lemma clean_types_fresh_money_in_place_witness :
  frames (mkHeap [example_types] []) !! 0%nat = Some example_types /\
  exists r h',
    clean_types 0%nat false (mkHeap [example_types] []) = (Ok r, h') /\
    r <> 0%nat /\
    frames h' !! 0%nat = Some example_types.
Proof.
  split; [reflexivity|].
  destruct (proj1 (clean_types_fresh_money_in_place sample_log seq_mean seq_std
      0%nat
                     (mkHeap [example_types] []) example_types eq_refl)
              false) as (r & h' & Hrun & Hne & _ & Hd & _).
  exists r, h'. split; [exact Hrun|]. split; [exact Hne|exact Hd].
Defined.

(** ** Further properties of the two functions *)

(** *** The console *)

Lemma heap_eta h : mkHeap (frames h) (stdout h) = h.
Proof. now destruct h. Qed.

Lemma say_heap verbose line fr out :
  say verbose line (mkHeap fr out) =
  mkHeap fr (out ++ if verbose then [line] else []).
Proof. destruct verbose; cbn; [reflexivity|now rewrite app_nil_r]. Qed.

Lemma silent_ret {A} (a : A) : silent (ret a).
Proof. intros h. reflexivity. Qed.

Lemma silent_lift {A} (r : res A) : silent (lift r).
Proof. intros h. reflexivity. Qed.

Lemma silent_get_frame d : silent (get_frame d).
Proof. intros h. unfold get_frame. now destruct (frames h !! d). Qed.

Lemma silent_update_frame d f : silent (update_frame d f).
Proof. intros h. unfold update_frame. now destruct (frames h !! d). Qed.

Lemma silent_new_frame F : silent (new_frame F).
Proof. intros h. reflexivity. Qed.

Lemma silent_bind {A B} (m : M A) (k : A -> M B) :
  silent m -> (forall a, silent (k a)) -> silent (bind m k).
Proof.
  intros Hm Hk h. unfold bind. specialize (Hm h).
  destruct (m h) as [[a|e] h1]; cbn [snd] in *; [|exact Hm].
  now rewrite Hk.
Qed.

Lemma silent_ixs d i : silent (ixs d i).
Proof.
  apply silent_bind; [apply silent_get_frame|].
  intros F. destruct (df_ixs F i); [apply silent_ret|].
  intros h. reflexivity.
Qed.

Lemma silent_for_items {S} d (body : S -> string -> Series -> M S) acc :
  (forall acc name column, silent (body acc name column)) ->
  silent (for_items d body acc).
Proof.
  intros Hbody. apply silent_bind; [apply silent_get_frame|]. intros F.
  generalize 0%nat. revert acc.
  induction (df_names F) as [|name rest IH]; intros acc i;
    [apply silent_ret|].
  cbn [for_items_from]. apply silent_bind; [apply silent_ixs|].
  intros column. apply silent_bind; [apply Hbody|]. intros acc'. apply IH.
Qed.

Lemma silent_money_column np_log mean std d log scale ind eps name column :
  silent (money_column np_log mean std d log scale ind eps name column).
Proof.
  unfold money_column.
  repeat (apply silent_bind; [apply silent_lift|]; intros ?).
  apply silent_bind.
  - destruct ind; [|apply silent_ret].
    apply silent_bind; intros; apply silent_update_frame.
  - intros _. apply silent_bind; [apply silent_update_frame|].
    intros _. apply silent_ret.
Qed.

(** X4. With [verbose] off neither function prints: the console is the same
    after the call as before it, whether the call returns or raises. *)
Theorem quiet_calls_print_nothing np_log mean std d money log scale ind h :
  stdout (snd (clean_money_columns np_log mean std
      d money log scale ind false h))
    = stdout h /\
  stdout (snd (clean_types d false h)) = stdout h.
Proof.
  split.
  - apply (silent_bind (for_items d _ tt) (fun _ => ret d));
      [|intros; apply silent_ret].
    apply silent_for_items. intros [] name column. unfold money_body.
    apply silent_bind; [|intros; apply silent_ret].
    destruct (bool_decide (name ∈ money));
      [apply silent_money_column|apply silent_ret].
  - unfold clean_types. apply silent_bind.
    + apply silent_for_items. intros b name column h1.
      now rewrite types_body_run.
    + intros b.
      repeat (apply silent_bind;
              [first [apply silent_get_frame|apply silent_new_frame]|];
              intros ?).
      apply silent_new_frame.
Qed.

(** *** Which names of [money_columns] count *)

Lemma for_items_from_ext {S} d (b1 b2 : S -> string -> Series -> M S) names :
  (forall name, In name names ->
     forall acc column h, b1 acc name column h = b2 acc name column h) ->
  forall i acc h,
    for_items_from d i names b1 acc h = for_items_from d i names b2 acc h.
Proof.
  induction names as [|name rest IH]; intros Hb i acc h; [reflexivity|].
  cbn [for_items_from]. unfold bind.
  destruct (ixs d i h) as [[column|e] h1]; [|reflexivity].
  rewrite (Hb name (or_introl eq_refl)).
  destruct (b2 acc name column h1) as [[acc'|e] h2]; [|reflexivity].
  apply IH. intros n Hn. apply Hb. now right.
Qed.

(** X1. Only the labels of the frame count in [money_columns]: two lists
    that hold the same labels of the frame give the same run, so a name that
    labels no column is passed over without an error, and neither the order
    of the names nor a name given twice makes a difference. *)
Theorem clean_money_columns_membership
    np_log mean std h d F money money' log scale ind verbose :
  frames h !! d = Some F ->
  (forall n, In n (df_names F) -> (n ∈ money <-> n ∈ money')) ->
  clean_money_columns np_log mean std d money log scale ind verbose h =
  clean_money_columns np_log mean std d money' log scale ind verbose h.
Proof.
  intros HF Hsame. unfold clean_money_columns, for_items.
  unfold bind. rewrite (get_frame_run _ _ _ HF).
  rewrite (for_items_from_ext d
             (money_body np_log mean std d money log scale ind verbose 1%float)
             (money_body np_log mean std
                 d money' log scale ind verbose 1%float));
    [reflexivity|].
  intros name Hin [] column h1. unfold money_body.
  now rewrite (bool_decide_ext _ _ (Hsame name Hin)).
Qed.

(** X2. When no column of the frame is named in [money_columns] (an empty
    list, or names the frame does not have), the call returns its argument
    and changes no frame; with [verbose] it prints one line for each column,
    with the kind the column has. *)
Theorem clean_money_columns_no_money np_log mean std
    h d F money log scale ind verbose :
  frames h !! d = Some F ->
  (forall n, In n (df_names F) -> ~ n ∈ money) ->
  clean_money_columns np_log mean std d money log scale ind verbose h =
  (Ok d, mkHeap (frames h)
           (stdout h ++ if verbose then money_lines F else [])).
Proof.
  intros HF Hnone.
  pose (Inv := fun (k : nat) (h1 : heap) =>
    h1 = mkHeap (frames h)
           (stdout h ++ if verbose
                        then map (fun c => money_line (fst c) (snd c))
                               (take k (df_cols F))
                        else [])).
  assert (Inv 0%nat h) as H0.
  { unfold Inv. rewrite take_0. cbn [map].
    destruct verbose; now rewrite app_nil_r, heap_eta. }
  assert (forall k name h1,
             df_names F !! k = Some name -> Inv k h1 ->
             match bind (ixs d k)
                     (money_body np_log mean std
                         d money log scale ind verbose 1%float
                        tt name) h1 with
             | (Ok _, h2) => Inv (S k) h2
             | (Raise e, h2) => False
             end) as Hstep.
  { intros k name h1 Hk Hh1. unfold Inv in Hh1.
    destruct (names_lookup F k name Hk) as [s Hs].
    assert (frames h1 !! d = Some F) as HF1 by (rewrite Hh1; exact HF).
    rewrite (money_body_run np_log mean std
        log scale ind d money verbose name k h1
               F (name, s) HF1 Hs).
    rewrite (bool_decide_eq_false_2 (name ∈ money))
      by (apply Hnone; eapply lookup_In_names, Hk).
    unfold Inv. rewrite Hh1, say_heap, (take_S_r _ _ _ Hs), map_app.
    cbn [map fst snd]. f_equal. rewrite <- app_assoc. f_equal.
    now destruct verbose. }
  pose proof (clean_money_rule np_log mean std
      log scale ind Inv (fun _ _ => False)
                d money verbose h F HF H0 Hstep) as R.
  destruct (clean_money_columns np_log mean std d money log scale ind verbose h)
    as [[r|e] h']; [|contradiction].
  destruct R as [-> ->]. unfold money_lines, df_names.
  now rewrite length_map, firstn_all.
Qed.

(** *** What [verbose] prints *)

Lemma types_loop_out verbose d h F b0 :
  frames h !! d = Some F ->
  for_items d (types_body verbose) b0 h =
    (Ok (fold_left bucket_add (df_cols F) b0),
     mkHeap (frames h) (stdout h ++ if verbose then type_lines F else [])).
Proof.
  intros HF. unfold for_items, bind. rewrite (get_frame_run _ _ _ HF).
  pose (Inv := fun (i : nat) (b : buckets) (h1 : heap) =>
    h1 = mkHeap (frames h)
           (stdout h ++ if verbose
                        then map (fun c => type_line (fst c) (retyped (snd c)))
                               (take i (df_cols F))
                        else []) /\
    b = fold_left bucket_add (take i (df_cols F)) b0).
  assert (Inv 0%nat b0 h) as H0.
  { split; [|reflexivity]. rewrite take_0. cbn [map].
    destruct verbose; now rewrite app_nil_r, heap_eta. }
  pose proof (for_items_from_rule d (types_body verbose) Inv
                (fun _ _ => False) (df_names F) 0%nat b0 h H0) as R.
  cbn [Nat.add] in R.
  assert (forall k name b1 h1,
             df_names F !! k = Some name -> Inv k b1 h1 ->
             match bind (ixs d k) (types_body verbose b1 name) h1 with
             | (Ok b2, h2) => Inv (S k) b2 h2
             | (Raise e, h2) => False
             end) as Hstep.
  { intros k name b1 h1 Hk [Hh1 ->].
    destruct (names_lookup F k name Hk) as [s Hs].
    assert (frames h1 !! d = Some F) as HF1 by (rewrite Hh1; exact HF).
    unfold bind.
    rewrite (ixs_run d k h1 F s HF1) by (unfold df_ixs; now rewrite Hs).
    rewrite types_body_run. split.
    - rewrite Hh1, say_heap, (take_S_r _ _ _ Hs), map_app.
      cbn [map fst snd]. f_equal. rewrite <- app_assoc. f_equal.
      now destruct verbose.
    - rewrite (take_S_r _ _ _ Hs), fold_left_app. reflexivity. }
  specialize (R Hstep).
  destruct (for_items_from d 0 (df_names F) (types_body verbose) b0 h)
    as [[b|e] h']; [|contradiction].
  destruct R as [-> ->]. unfold type_lines, df_names.
  now rewrite length_map, firstn_all.
Qed.

Lemma retyped_dtype s :
  dtype_name (retyped s) = if is_text s then "category" else dtype_name s.
Proof. now destruct s. Qed.

(** X5. [clean_types] returns on every frame, and with [verbose] it prints
    one line for each column of the argument, in the order of the argument
    and not of the result: the label padded to ten characters, then the kind
    the column is stored with, padded to eight, which for a text column is
    [category]; without [verbose] it prints nothing. *)
Theorem clean_types_lines verbose d h F :
  frames h !! d = Some F ->
  exists r h',
    clean_types d verbose h = (Ok r, h') /\
    stdout h' =
      stdout h ++
      if verbose
      then map (fun c =>
                  ljust 10 (fst c) +:+ " is a " +:+
                  ljust 8 (if is_text (snd c) then "category"
                           else dtype_name (snd c)) +:+ " column")
             (df_cols F)
      else [].
Proof.
  intros HF. destruct (clean_types_run verbose d h F HF) as (h' & Hrun & _).
  cbn zeta in Hrun. exists (length (frames h) + 3)%nat, h'.
  split; [exact Hrun|].
  change h' with (snd (Ok (length (frames h) + 3)%nat, h')).
  rewrite <- Hrun. unfold clean_types. unfold bind at 1.
  rewrite (types_loop_out verbose d h F _ HF).
  match goal with
  | |- stdout (snd (?m ?h1)) = _ => assert (silent m) as Hsil
  end.
  { repeat (apply silent_bind;
            [first [apply silent_get_frame|apply silent_new_frame]|];
            intros ?).
    apply silent_new_frame. }
  rewrite Hsil. cbn [stdout]. f_equal. destruct verbose; [|reflexivity].
  unfold type_lines. apply map_ext. intros c. unfold type_line.
  now rewrite retyped_dtype.
Qed.

Lemma lookup_snoc {A} (l : list A) x : (l ++ [x]) !! length l = Some x.
Proof. now apply list_lookup_middle. Qed.

(** X3. When [clean_money_columns] returns it has printed, with [verbose],
    one line for each column the frame had when the call began, in order,
    and none for the indicator columns it appended: a money column is
    reported as float64, and every column that is neither a money column nor
    under an indicator label is reported with the kind it had. *)
Theorem clean_money_columns_lines
    np_log mean std h d F money log scale ind verbose r h' :
  frames h !! d = Some F ->
  clean_money_columns np_log mean std
      d money log scale ind verbose h = (Ok r, h') ->
  exists lines,
    stdout h' = stdout h ++ (if verbose then lines else []) /\
    length lines = length (df_cols F) /\
    forall j n s, df_cols F !! j = Some (n, s) ->
      (n ∈ money -> lines !! j = Some (n +:+ " is a float64 column")) /\
      (~ written money ind n ->
       lines !! j = Some (n +:+ " is a " +:+ dtype_name s +:+ " column")).
Proof.
  intros HF Hrun.
  pose (Inv := fun (k : nat) (h1 : heap) =>
    exists F1 lines,
      frames h1 = <[d := F1]> (frames h) /\
      frame_kept money ind F F1 /\
      stdout h1 = stdout h ++ (if verbose then lines else []) /\
      length lines = k /\
      forall j n s, df_cols F !! j = Some (n, s) -> (j < k)%nat ->
        (n ∈ money -> lines !! j = Some (n +:+ " is a float64 column")) /\
        (~ written money ind n ->
         lines !! j = Some (n +:+ " is a " +:+ dtype_name s +:+ " column"))).
  assert (Inv 0%nat h) as H0.
  { exists F, []. split; [symmetry; now apply list_insert_id|].
    split; [apply frame_kept_refl|].
    split; [destruct verbose; now rewrite app_nil_r|].
    split; [reflexivity|intros; lia]. }
  assert (forall k name h1,
             df_names F !! k = Some name -> Inv k h1 ->
             match bind (ixs d k)
                     (money_body np_log mean std
                         d money log scale ind verbose 1%float
                        tt name) h1 with
             | (Ok _, h2) => Inv (S k) h2
             | (Raise e, h2) => True
             end) as Hstep.
  { intros k name h1 Hk (F1 & lines & Hfr & Hkept & Hout & Hlen & Hlines).
    assert (frames h1 !! d = Some F1) as HF1
      by (rewrite Hfr; eapply frames_insert_lookup, HF).
    destruct (names_lookup F1 k name
                (frame_kept_names _ _ _ _ _ _ Hkept Hk)) as [s1 Hs1].
    destruct (names_lookup F k name Hk) as [s Hs].
    rewrite (money_body_run np_log mean std
        log scale ind d money verbose name k h1
               F1 (name, s1) HF1 Hs1).
    assert (forall line F2 h2,
               frames h2 = <[d := F2]> (frames h) ->
               frame_kept money ind F F2 ->
               stdout h2 = stdout h1 ++ (if verbose then [line] else []) ->
               (name ∈ money -> line = name +:+ " is a float64 column") ->
               (~ written money ind name ->
                line = name +:+ " is a " +:+ dtype_name s +:+ " column") ->
               Inv (S k) h2) as Hnext.
    { intros line F2 h2 Hfr2 Hkept2 Hout2 Hm Hw.
      exists F2, (lines ++ [line]). split; [exact Hfr2|].
      split; [exact Hkept2|]. split.
      { rewrite Hout2, Hout, <- app_assoc. now destruct verbose. }
      split; [rewrite length_app; cbn; lia|].
      intros j n s0 Hj Hlt. destruct (Nat.eq_dec j k) as [->|Hne].
      - rewrite Hs in Hj. injection Hj as <- <-.
        rewrite <- Hlen, lookup_snoc.
        split; intros H; f_equal; auto.
      - rewrite lookup_app_l by lia. apply (Hlines j n s0 Hj). lia. }
    destruct (bool_decide (name ∈ money)) eqn:Em.
    - apply bool_decide_eq_true in Em. cbn [snd].
      destruct (parsed_column s1) as [v|e]; [|exact Logic.I].
      eapply Hnext.
      + rewrite frames_say. cbn [frames]. rewrite Hfr.
        apply list_insert_insert_eq.
      + apply frame_kept_write; [exact Hkept|exact Em|].
        eapply lookup_In_names, lookup_names, Hs1.
      + now rewrite say_heap.
      + reflexivity.
      + intros Hw. destruct Hw. now left.
    - apply bool_decide_eq_false in Em. cbn [snd].
      eapply Hnext.
      + rewrite frames_say. exact Hfr.
      + exact Hkept.
      + rewrite <- (heap_eta h1) at 1. now rewrite say_heap.
      + contradiction.
      + intros Hw. destruct Hkept as (_ & _ & Hsame).
        rewrite (Hsame k name s Hs Hw) in Hs1. now injection Hs1 as <-. }
  pose proof (clean_money_rule np_log mean std
      log scale ind Inv (fun _ _ => True)
                d money verbose h F HF H0 Hstep) as R.
  rewrite Hrun in R.
  destruct R as [_ (F1 & lines & _ & _ & Hout & Hlen & Hlines)].
  exists lines. split; [exact Hout|].
  unfold df_names in Hlen, Hlines. rewrite length_map in Hlen, Hlines.
  split; [exact Hlen|].
  intros j n s Hj. apply (Hlines j n s Hj). eapply lookup_lt_Some, Hj.
Qed.

(** *** [clean_types] on its own result *)

Lemma group_app K a b : group K (a ++ b) = group K a ++ group K b.
Proof. apply List.filter_app. Qed.

Lemma group_all K K' (l : list (string * Series)) :
  (forall c, In c l -> kind_of (snd c) = K') ->
  group K l = if kind_eqb K' K then l else [].
Proof.
  induction l as [|c l IH]; intros Hl; [now destruct (kind_eqb K' K)|].
  rewrite group_cons, (Hl c (or_introl eq_refl)), IH
    by (intros c' Hc'; apply Hl; now right).
  now destruct (kind_eqb K' K).
Qed.

Lemma group_perm cols :
  Permutation
    (group Numeric cols ++ group Categorical cols ++ group Boolean cols) cols.
Proof.
  induction cols as [|c cols IH]; [constructor|].
  rewrite !group_cons. destruct (kind_of (snd c)); cbn [kind_eqb].
  - cbn [app]. now constructor.
  - symmetry. apply Permutation_cons_app. now symmetry.
  - symmetry. rewrite app_assoc. apply Permutation_cons_app.
    rewrite <- app_assoc. now symmetry.
Qed.

Lemma names_as_category (l : list (string * Series)) :
  map fst (map as_category l) = map fst l.
Proof. rewrite map_map. reflexivity. Qed.

Lemma category_is_numeric c :
  kind_of (snd c) = Categorical -> kind_of (snd (as_category c)) = Numeric.
Proof.
  destruct c as [n s]. cbn [snd as_category fst].
  rewrite !kind_of_cases. now destruct s.
Qed.

(** X6. On a frame with distinct labels [clean_types] is idempotent: applied
    to the frame it returned, it returns another new frame with the same
    index and the same columns in the same order.  The category columns of
    the first pass go through the second as numeric columns, which leaves
    them where they are. *)
Theorem clean_types_idempotent verbose verbose' d h F :
  frames h !! d = Some F ->
  NoDup (df_names F) ->
  exists r h1 R r' h2,
    clean_types d verbose h = (Ok r, h1) /\
    frames h1 !! r = Some R /\
    clean_types r verbose' h1 = (Ok r', h2) /\
    r' <> r /\
    frames h2 !! r' = Some R.
Proof.
  intros HF Hnd.
  destruct (clean_types_run verbose d h F HF) as (h1 & Hrun1 & Hfr1).
  cbn zeta in Hrun1, Hfr1.
  rewrite (buckets_of_frame _ Hnd) in Hfr1.
  set (N := group Numeric (df_cols F)) in *.
  set (C := group Categorical (df_cols F)) in *.
  set (B := group Boolean (df_cols F)) in *.
  set (R := assembled (df_index F)
              (mkBuckets (map as_category C) N B)) in *.
  assert (frames h1 !! (length (frames h) + 3)%nat = Some R) as HR
    by (rewrite Hfr1; apply result_lookup).
  destruct (clean_types_run verbose' _ h1 R HR) as (h2 & Hrun2 & Hfr2).
  cbn zeta in Hrun2, Hfr2.
  exists (length (frames h) + 3)%nat, h1, R, (length (frames h1) + 3)%nat, h2.
  split; [exact Hrun1|]. split; [exact HR|]. split; [exact Hrun2|].
  split; [rewrite Hfr1, length_app; cbn; lia|].
  rewrite Hfr2, result_lookup. f_equal.
  assert (NoDup (map fst (df_cols R))) as HndR.
  { cbn [R assembled df_cols numericals categoricals booleans].
    rewrite !map_app, names_as_category, <- !map_app.
    assert (Permutation (map fst (N ++ C ++ B)) (df_names F)) as Hperm
      by apply Permutation_map, group_perm.
    rewrite Hperm. exact Hnd. }
  rewrite (buckets_of_frame _ HndR).
  assert (forall K, group K (df_cols R) =
            (if kind_eqb Numeric K then N else []) ++
            (if kind_eqb Numeric K then map as_category C else []) ++
            (if kind_eqb Boolean K then B else [])) as Hg.
  { intros K. cbn [R assembled df_cols numericals categoricals booleans].
    rewrite !group_app. f_equal; [|f_equal].
    - apply group_all. intros c Hc. eapply group_kind, Hc.
    - apply group_all. intros c Hc. apply in_map_iff in Hc as (c0 & <- & Hc0).
      apply category_is_numeric. eapply group_kind, Hc0.
    - apply group_all. intros c Hc. eapply group_kind, Hc. }
  rewrite !Hg. cbn [kind_eqb map app]. unfold R, assembled.
  cbn [df_index numericals categoricals booleans].
  now rewrite app_nil_r, <- !app_assoc.
Qed.

(** *** Where the indicator columns go *)

Lemma ind_label_fresh (money names : list string) k name :
  NoDup names ->
  names !! k = Some name ->
  ~ In (name +:+ "_ind")
      (map (fun m => m +:+ "_ind")
         (List.filter (fun n => bool_decide (n ∈ money)) (take k names))).
Proof.
  intros Hnd Hk Hin. apply in_map_iff in Hin as (m & Heq & Hm).
  apply append_inj_r in Heq. subst m.
  apply filter_In in Hm as [Hm _].
  apply list_elem_of_In, list_elem_of_lookup in Hm as [j Hj].
  pose proof (lookup_lt_Some _ _ _ Hj) as Hlt.
  rewrite length_take in Hlt. rewrite lookup_take_lt in Hj by lia.
  pose proof (NoDup_lookup _ _ _ _ Hnd Hj Hk). lia.
Qed.

(** X7. With [indicator] on, on a frame with distinct labels none of which
    is the indicator label of one of its money columns, a call that returns
    leaves the columns of the frame where they were and appends the
    indicator columns after them, one for each money column, in the order
    of the money columns in the frame (not of [money_columns]). *)
Theorem clean_money_columns_indicator_order
    np_log mean std h d F money log scale verbose r h' :
  frames h !! d = Some F ->
  NoDup (df_names F) ->
  (forall m, m ∈ money -> In m (df_names F) ->
             ~ In (m +:+ "_ind") (df_names F)) ->
  clean_money_columns np_log mean std
      d money log scale true verbose h = (Ok r, h') ->
  exists F',
    frames h' !! d = Some F' /\
    df_names F' =
      df_names F ++
      map (fun m => m +:+ "_ind")
        (List.filter (fun n => bool_decide (n ∈ money)) (df_names F)).
Proof.
  intros HF Hnd Hfresh Hrun.
  pose (Inv := fun (k : nat) (h1 : heap) =>
    exists F1,
      frames h1 = <[d := F1]> (frames h) /\
      df_names F1 =
        df_names F ++
        map (fun m => m +:+ "_ind")
          (List.filter (fun n => bool_decide (n ∈ money))
             (take k (df_names F)))).
  assert (Inv 0%nat h) as H0.
  { exists F. split; [symmetry; now apply list_insert_id|].
    rewrite take_0. cbn. now rewrite app_nil_r. }
  assert (forall k name h1,
             df_names F !! k = Some name -> Inv k h1 ->
             match bind (ixs d k)
                     (money_body np_log mean std
                         d money log scale true verbose 1%float
                        tt name) h1 with
             | (Ok _, h2) => Inv (S k) h2
             | (Raise e, h2) => True
             end) as Hstep.
  { intros k name h1 Hk (F1 & Hfr & Hnames).
    assert (frames h1 !! d = Some F1) as HF1
      by (rewrite Hfr; eapply frames_insert_lookup, HF).
    assert (df_names F1 !! k = Some name) as Hk1
      by (rewrite Hnames; now apply lookup_app_l_Some).
    destruct (names_lookup F1 k name Hk1) as [s1 Hs1].
    rewrite (money_body_run np_log mean std
        log scale true d money verbose name k h1
               F1 (name, s1) HF1 Hs1).
    assert (List.filter (fun n => bool_decide (n ∈ money))
              (take (S k) (df_names F)) =
            List.filter (fun n => bool_decide (n ∈ money))
              (take k (df_names F)) ++
            (if bool_decide (name ∈ money) then [name] else [])) as Htake.
    { rewrite (take_S_r _ _ _ Hk), List.filter_app. reflexivity. }
    destruct (bool_decide (name ∈ money)) eqn:Em.
    - apply bool_decide_eq_true in Em. cbn [snd].
      destruct (parsed_column s1) as [v|e]; [|exact Logic.I].
      eexists. rewrite frames_say. cbn [frames].
      split; [rewrite Hfr; apply list_insert_insert_eq|].
      rewrite Htake, map_app.
      rewrite money_write_names by (eapply lookup_In_names, Hk1).
      assert (existsb (String.eqb (name +:+ "_ind")) (df_names F1) = false)
        as ->.
      { apply not_true_is_false. intros Hex.
        apply existsb_eqb_In in Hex. rewrite Hnames in Hex.
        apply in_app_or in Hex as [Hex|Hex].
        - apply (Hfresh name Em); [eapply lookup_In_names, Hk|exact Hex].
        - now apply (ind_label_fresh money (df_names F) k name Hnd Hk). }
      cbn [andb negb map]. now rewrite Hnames, <- app_assoc.
    - exists F1. rewrite frames_say. split; [exact Hfr|].
      rewrite Htake. now rewrite app_nil_r. }
  pose proof (clean_money_rule np_log mean std
      log scale true Inv (fun _ _ => True)
                d money verbose h F HF H0 Hstep) as R.
  rewrite Hrun in R. destruct R as [_ (F' & Hfr & Hnames)].
  exists F'. split; [rewrite Hfr; eapply frames_insert_lookup, HF|].
  now rewrite firstn_all in Hnames.
Qed.

(** *** One cell for each row *)

Lemma parse_cells_length v : forall w,
  parse_cells v = Ok w -> length w = length v.
Proof.
  induction v as [|o v IH]; intros w H; [now injection H as <-|].
  cbn [parse_cells] in H. destruct o as [t|].
  - destruct (PyFloat.float_of_str t); [|discriminate].
    destruct (parse_cells v) as [fs|]; [|discriminate].
    injection H as <-. cbn [length]. now rewrite (IH fs).
  - destruct (parse_cells v) as [fs|]; [|discriminate].
    injection H as <-. cbn [length]. now rewrite (IH fs).
Qed.

Lemma parsed_column_length s v :
  parsed_column s = Ok v -> length v = series_len s.
Proof.
  rewrite parsed_column_cells. intros H.
  destruct s; cbn [text_cells] in H; try discriminate;
    apply parse_cells_length in H; rewrite H, length_map; cbn [series_len];
    [reflexivity..|].
  unfold decode. now rewrite length_map.
Qed.

Lemma mask_with_length {A} (na : A) mask : forall v,
  length (mask_with na mask v) = length v.
Proof.
  induction mask as [|m mask IH]; intros [|x v]; cbn; auto.
Qed.

Lemma series_setna_len mask s :
  series_len (series_setna mask s) = series_len s.
Proof. destruct s; cbn; auto using mask_with_length. Qed.

Lemma transform_length np_log mean std log scale v :
  length (transform np_log mean std log scale v) = length v.
Proof.
  unfold transform, scale_step, log_step.
  destruct log, scale; now rewrite ?length_map.
Qed.

Lemma on_label_aligned k f c (rows : nat) :
  (series_len (snd c) = rows -> series_len (f (snd c)) = rows) ->
  series_len (snd c) = rows ->
  series_len (snd (on_label k f c)) = rows.
Proof.
  intros Hf Hc. unfold on_label.
  destruct (String.eqb (fst c) k); cbn [snd]; auto.
Qed.

Lemma setitem_aligned k v F :
  aligned F -> series_len v = length (df_index F) ->
  aligned (df_setitem k v F).
Proof.
  unfold aligned. rewrite !List.Forall_forall. intros HF Hv c Hc.
  cbn [df_setitem df_index df_cols] in *.
  destruct (existsb (String.eqb k) (df_names F)).
  - apply in_map_iff in Hc as (c0 & <- & Hc0).
    apply on_label_aligned; [intros _; exact Hv|now apply HF].
  - apply in_app_or in Hc as [Hc|[<-|[]]]; [now apply HF|exact Hv].
Qed.

Lemma loc_setna_aligned mask k F :
  aligned F -> aligned (df_loc_setna mask k F).
Proof.
  unfold aligned. rewrite !List.Forall_forall. intros HF c Hc.
  cbn [df_loc_setna df_index df_cols] in *.
  apply in_map_iff in Hc as (c0 & <- & Hc0).
  apply on_label_aligned; [|now apply HF].
  now rewrite series_setna_len.
Qed.

Lemma money_write_aligned np_log mean std log scale ind name v F :
  aligned F -> length v = length (df_index F) ->
  aligned (money_write np_log mean std log scale ind name v F).
Proof.
  intros HF Hv. unfold money_write. apply setitem_aligned.
  - destruct ind; [|exact HF].
    apply loc_setna_aligned, setitem_aligned; [exact HF|].
    cbn. unfold eq_zero. now rewrite !length_map.
  - cbn [series_len]. rewrite transform_length.
    now destruct ind.
Qed.

(** X8. [clean_money_columns] keeps the rows: if every column of the frame
    has one cell for each row label, then after the call, whether it
    returned or raised, the row index is the same and every column, the
    parsed ones and the indicators among them, has one cell for each row
    label. *)
Theorem clean_money_columns_rows np_log mean std
    h d F money log scale ind verbose :
  frames h !! d = Some F ->
  aligned F ->
  exists F',
    frames (snd (clean_money_columns np_log mean std
        d money log scale ind verbose h))
      !! d = Some F' /\
    df_index F' = df_index F /\
    aligned F'.
Proof.
  intros HF Hal.
  pose (Inv := fun (_ : nat) (h1 : heap) =>
    exists F1, frames h1 = <[d := F1]> (frames h) /\
               df_index F1 = df_index F /\ aligned F1).
  assert (Inv 0%nat h) as H0.
  { exists F. split; [symmetry; now apply list_insert_id|]. now split. }
  assert (forall k name h1,
             df_names F !! k = Some name -> Inv k h1 ->
             match bind (ixs d k)
                     (money_body np_log mean std
                         d money log scale ind verbose 1%float
                        tt name) h1 with
             | (Ok _, h2) => Inv (S k) h2
             | (Raise e, h2) => Inv 0%nat h2
             end) as Hstep.
  { intros k name h1 Hk (F1 & Hfr & Hidx & Hal1).
    assert (frames h1 !! d = Some F1) as HF1
      by (rewrite Hfr; eapply frames_insert_lookup, HF).
    destruct (df_cols F1 !! k) as [[n1 s1]|] eqn:Hs1.
    - rewrite (money_body_run np_log mean std
        log scale ind d money verbose name k h1
                 F1 (n1, s1) HF1 Hs1).
      destruct (bool_decide (name ∈ money));
        [|exists F1; rewrite frames_say; now split].
      cbn [snd]. destruct (parsed_column s1) as [v|e] eqn:Ev;
        [|exists F1; now split].
      eexists. rewrite frames_say. cbn [frames].
      split; [rewrite Hfr; apply list_insert_insert_eq|].
      split; [now rewrite money_write_index|].
      apply money_write_aligned; [exact Hal1|].
      rewrite (parsed_column_length _ _ Ev).
      unfold aligned in Hal1. rewrite List.Forall_forall in Hal1.
      apply (Hal1 (n1, s1)), list_elem_of_In.
      eapply list_elem_of_lookup_2, Hs1.
    - unfold bind, ixs, bind. rewrite (get_frame_run _ _ _ HF1).
      unfold df_ixs. rewrite Hs1. cbn. exists F1. now split. }
  pose proof (clean_money_rule np_log mean std
      log scale ind Inv (fun _ => Inv 0%nat)
                d money verbose h F HF H0 Hstep) as R.
  destruct (clean_money_columns np_log mean std d money log scale ind verbose h)
    as [[r|e] h']; cbn [snd];
    [destruct R as [_ (F' & Hfr & Hidx & Hal')]
    |destruct R as (F' & Hfr & Hidx & Hal')];
    (exists F'; split; [rewrite Hfr; eapply frames_insert_lookup, HF|];
     now split).
Qed.

(** *** Scaling a column with fewer than two cells *)

Lemma div_by_nan x : PrimFloat.div x PrimFloat.nan = PrimFloat.nan.
Proof.
  apply Prim2SF_inj. rewrite div_spec.
  change (Prim2SF PrimFloat.nan) with S754_nan.
  now destruct (Prim2SF x).
Qed.

Lemma scale_step_short mean std w :
  PrimFloat.is_nan (std w) = true ->
  Forall (fun x => PrimFloat.is_nan x = true) (scale_step mean std w).
Proof.
  intros H. apply is_nan_eq in H. unfold scale_step. rewrite H.
  apply List.Forall_forall. intros y Hy.
  apply in_map_iff in Hy as (x & <- & _). now rewrite div_by_nan.
Qed.

Lemma seq_std_short w :
  (length (not_nan w) <= 1)%nat -> PrimFloat.is_nan (seq_std w) = true.
Proof.
  intros H. unfold seq_std.
  now destruct (Nat.leb_spec (length (not_nan w)) 1); [|lia].
Qed.

(** X9. With [scale] on, given that [column.std()] is NaN for a column with
    fewer than two cells that are not missing (as the sample deviation with
    divisor [count - 1] is), a money column that has fewer than two such
    cells when it is scaled (a frame of one row, or a column with one value
    and the rest missing) comes out with every cell missing, unless its
    label is the indicator label of another money column of the frame:
    dividing by NaN turns the value that was there into NaN as well. *)
Theorem clean_money_columns_scale_short
    np_log mean std h d F money log ind verbose r h' :
  frames h !! d = Some F ->
  (forall w, (length (not_nan w) <= 1)%nat ->
             PrimFloat.is_nan (std w) = true) ->
  clean_money_columns np_log mean std d money log true ind verbose h
    = (Ok r, h') ->
  exists F',
    frames h' !! d = Some F' /\
    forall k n s, df_cols F !! k = Some (n, s) -> n ∈ money ->
      unclobbered money ind F n ->
      exists v cells,
        parsed_column s = Ok v /\
        df_cols F' !! k = Some (n, SFloat cells) /\
        length cells = series_len s /\
        ((length (not_nan (if log then log_step np_log v else v)) <= 1)%nat ->
         Forall (fun x => PrimFloat.is_nan x = true) cells).
Proof.
  intros HF Hstd Hrun.
  destruct (money_returns np_log mean std log true ind h d F money verbose
              r h' HF Hrun) as (_ & F' & Hfr & _ & Hdone).
  exists F'. split; [rewrite Hfr; eapply frames_insert_lookup, HF|].
  intros k n s Hk Hn Hun.
  destruct (Hdone k n s Hk Hn) as (v & Hv & Hcol & _).
  exists v, (transform np_log mean std log true v).
  split; [exact Hv|]. split; [now apply Hcol|].
  split; [now rewrite transform_length, (parsed_column_length _ _ Hv)|].
  intros Hshort. unfold transform. apply scale_step_short, Hstd, Hshort.
Qed.

(** *** The symbols [$] and [,] *)

Lemma strip_by_chars t :
  py_replace "," "" (py_replace "$" "" t) =
  string_of_list_ascii (List.filter keep_char (list_ascii_of_string t)).
Proof.
  rewrite <- (string_of_list_ascii_of_string
                (py_replace "," "" (py_replace "$" "" t))).
  now rewrite stripped_chars.
Qed.

(** X10. A money column is read through the characters of its cells other
    than [$] and [,], wherever these stand: two text columns whose cells
    agree once those characters are dropped (missing cells in the same
    places) parse to the same floats, or raise the same error. *)
Theorem money_symbols_anywhere (v v' : list (option string)) :
  map (option_map (fun t => List.filter keep_char (list_ascii_of_string t))) v
  = map (option_map
           (fun t => List.filter keep_char (list_ascii_of_string t))) v' ->
  parsed_column (SObject v) = parsed_column (SObject v') /\
  parsed_column (SString v) = parsed_column (SString v').
Proof.
  intros H.
  assert (map (option_map
                 (fun t => py_replace "," "" (py_replace "$" "" t))) v =
          map (option_map
                 (fun t => py_replace "," "" (py_replace "$" "" t))) v')
    as Hcells.
  { assert (forall l : list (option string),
              map (option_map
                     (fun t => py_replace "," "" (py_replace "$" "" t))) l =
              map (option_map string_of_list_ascii)
                (map (option_map
                        (fun t => List.filter keep_char
                                    (list_ascii_of_string t))) l)) as Hl.
    { intros l. rewrite map_map. apply map_ext. intros [t|]; [|reflexivity].
      cbn [option_map]. now rewrite strip_by_chars. }
    now rewrite !Hl, H. }
  destruct (parsed_column_text v) as [-> ->].
  destruct (parsed_column_text v') as [-> ->].
  now rewrite Hcells.
Qed.

(** *** The two functions one after the other *)

Lemma parsed_column_retyped s : parsed_column (retyped s) = parsed_column s.
Proof.
  destruct (retyped_cells s) as (Htext & Hother & _).
  destruct (is_text s) eqn:Et; [|now rewrite Hother].
  rewrite !parsed_column_cells.
  destruct (text_cells s) as [v|] eqn:Ev; [|now destruct s].
  now destruct (Htext v eq_refl eq_refl) as [_ ->].
Qed.

(** X13. [clean_types] does not change what [clean_money_columns] reads:
    every column of the frame it returns carries the label of a column of
    the argument and parses to the same floats, or raises the same error,
    as that column, also when the column was text and is now a category
    column. *)
Theorem clean_types_keeps_money_readable verbose d h F :
  frames h !! d = Some F ->
  exists r h' R,
    clean_types d verbose h = (Ok r, h') /\
    frames h' !! r = Some R /\
    forall c, In c (df_cols R) ->
      exists c0, In c0 (df_cols F) /\ fst c = fst c0 /\
                 parsed_column (snd c) = parsed_column (snd c0).
Proof.
  intros HF. destruct (clean_types_run verbose d h F HF) as (h' & Hrun & Hfr).
  cbn zeta in Hrun, Hfr.
  eexists _, h', _. split; [exact Hrun|].
  split; [rewrite Hfr; apply result_lookup|].
  intros c Hc. unfold assembled in Hc. cbn [df_cols] in Hc.
  apply buckets_origin in Hc as [Hc|(c0 & H0 & ->)]; [now cbn in Hc|].
  exists c0. cbn [fst snd]. split; [exact H0|]. split; [reflexivity|].
  apply parsed_column_retyped.
Qed.

(** *** When the call returns *)


(** *** The run, column by column *)

Lemma met_mono money ind F i j n :
  (i <= j)%nat -> met money ind F i n -> met money ind F j n.
Proof.
  intros Hle (k & m & Hlt & H). exists k, m. split; [lia|exact H].
Qed.

Lemma met_step money ind F i name n :
  df_names F !! i = Some name ->
  met money ind F (S i) n ->
  met money ind F i n \/
  (name ∈ money /\ (n = name \/ (ind = true /\ n = name +:+ "_ind"))).
Proof.
  intros Hi (k & m & Hlt & Hk & Hm & Hlab).
  destruct (Nat.eq_dec k i) as [->|Hne].
  - right. rewrite Hi in Hk. injection Hk as <-. now split.
  - left. exists k, m. split; [lia|]. now repeat split.
Qed.

Section MoneyTrace.
Variable np_log : float -> float.
Variables mean std : list float -> float.
Variables (log scale ind : bool).

(** Where the loop stands when the call ends: at the end of the frame when
    it returns, and when it raises at the money column whose cells, as they
    stand then, do not parse. *)
Lemma money_trace h d F money verbose :
  frames h !! d = Some F ->
  match clean_money_columns np_log mean std d money log scale ind verbose h with
  | (Ok r, h') =>
      exists F', frames h' = <[d := F']> (frames h) /\
        money_progress np_log mean std
            log scale ind money F (length (df_names F)) F'
  | (Raise e, h') =>
      exists j n sj F',
        df_names F !! j = Some n /\ n ∈ money /\
        frames h' = <[d := F']> (frames h) /\
        money_progress np_log mean std log scale ind money F j F' /\
        df_cols F' !! j = Some (n, sj) /\
        parsed_column sj = Raise e
  end.
Proof.
  intros HF.
  pose (Inv := fun (i : nat) (h1 : heap) =>
    exists F1, frames h1 = <[d := F1]> (frames h) /\
               money_progress np_log mean std log scale ind money F i F1).
  pose (Exc := fun (e : exn) (h1 : heap) =>
    exists j n sj F1,
      df_names F !! j = Some n /\ n ∈ money /\
      frames h1 = <[d := F1]> (frames h) /\
      money_progress np_log mean std log scale ind money F j F1 /\
      df_cols F1 !! j = Some (n, sj) /\
      parsed_column sj = Raise e).
  assert (Inv 0%nat h) as H0.
  { exists F. split; [symmetry; now apply list_insert_id|].
    split; [reflexivity|]. split; [exists []; now rewrite app_nil_r|].
    split; [intros k n s Hk; exists s; auto|].
    split; [intros k n s1 _ (k' & m & Hlt & _); lia|].
    split; [auto|]. split; intros; lia. }
  assert (forall k name h1,
             df_names F !! k = Some name -> Inv k h1 ->
             match bind (ixs d k)
                     (money_body np_log mean std
                         d money log scale ind verbose 1%float
                        tt name) h1 with
             | (Ok _, h2) => Inv (S k) h2
             | (Raise e, h2) => Exc e h2
             end) as Hstep.
  { intros i name h1 Hi (F1 & Hfr & Hprog).
    pose proof Hprog as
      (Hidx & (extra & Hnames) & Hpos & Hmet & Hkeep & Hnew & Hdone).
    assert (frames h1 !! d = Some F1) as HF1
      by (rewrite Hfr; eapply frames_insert_lookup, HF).
    destruct (names_lookup F i name Hi) as [s Hs].
    destruct (Hpos i name s Hs) as (si & Hsi & Horig).
    rewrite (money_body_run np_log mean std
        log scale ind d money verbose name i h1
               F1 (name, si) HF1 Hsi).
    destruct (bool_decide (name ∈ money)) eqn:Em.
    - apply bool_decide_eq_true in Em. cbn [snd].
      destruct (parsed_column si) as [v|e] eqn:Ev;
        [|now exists i, name, si, F1].
      assert (si = s) as ->.
      { destruct Horig as [->|Hres]; [reflexivity|].
        rewrite (parsed_column_result _ Hres) in Ev. discriminate. }
      assert (~ met money ind F i name) as Hfresh.
      { intros Hm. pose proof (Hmet i name s Hsi Hm) as Hres.
        rewrite (parsed_column_result _ Hres) in Ev. discriminate. }
      exists (money_write np_log mean std log scale ind name v F1).
      rewrite frames_say. cbn [frames].
      split; [rewrite Hfr; apply list_insert_insert_eq|].
      split; [now rewrite money_write_index|].
      split.
      { rewrite money_write_names
          by (eapply lookup_In_names, lookup_names, Hsi).
        rewrite Hnames, <- app_assoc. now eexists. }
      split; [|split; [|split; [|split]]].
      + intros k n s0 Hk. destruct (Hpos k n s0 Hk) as (s1 & Hs1 & Hor).
        destruct (money_write_result np_log mean std
            log scale ind name v F1 k n s1
                    Hs1) as (s' & Hs' & Hkind & _).
        exists s'. split; [exact Hs'|].
        destruct Hkind as [->|Hres]; [exact Hor|now right].
      + intros k n s1 Hk Hm.
        apply money_write_columns in Hk
          as [[_ Hres]|[(_ & _ & Hres)|(Hn1 & Hn2 & Hk)]];
          [exact Hres|exact Hres|].
        destruct (met_step _ _ _ _ _ _ Hi Hm) as [Hm'|[_ Hlab]];
          [now apply (Hmet k n s1 Hk)|].
        destruct Hlab as [->|[Hind ->]]; [contradiction|].
        now destruct (Hn2 Hind).
      + intros k n s0 Hk Hm.
        apply money_write_untouched.
        * apply (Hkeep k n s0 Hk). intros Hm'. apply Hm.
          eapply met_mono; [|exact Hm']. lia.
        * intros ->. apply Hm. exists i, name. split; [lia|]. now auto.
        * intros Hind ->. apply Hm. exists i, name. split; [lia|].
          now auto.
      + intros k n Hlt Hk Hn.
        destruct (Nat.eq_dec k i) as [->|Hne].
        * rewrite Hi in Hk. now injection Hk as <-.
        * apply (Hnew k n); [lia|exact Hk|exact Hn].
      + intros k n s0 Hlt Hk Hn.
        destruct (Nat.eq_dec k i) as [->|Hne].
        * rewrite Hs in Hk. injection Hk as <- <-.
          exists v. split; [exact Ev|]. split.
          -- intros _.
             rewrite (money_write_lookup np_log mean std
                 log scale ind name v F1 i
                        name s Hsi).
             now rewrite String.eqb_refl.
          -- intros ->. rewrite df_get_money_write.
             destruct (String.eqb_spec (name +:+ "_ind") name) as [Heq|_];
               [now apply append_ne_self in Heq|].
             now rewrite String.eqb_refl.
        * destruct (Hdone k n s0 ltac:(lia) Hk Hn) as (v0 & Hv0 & Hc0 & Hg0).
          assert (n <> name) as Hnn.
          { intros ->. apply Hfresh. exists k, name.
            split; [lia|]. split; [eapply lookup_names, Hk|]. now split; auto. }
          exists v0. split; [exact Hv0|]. split.
          -- intros Hun. apply money_write_untouched; [now apply Hc0|exact Hnn|].
             intros Hind. apply (Hun Hind name Em).
             eapply lookup_In_names, Hi.
          -- intros ->. rewrite df_get_money_write.
             destruct (String.eqb_spec (n +:+ "_ind") name) as [Heq|_].
             { exfalso. apply Hfresh. exists k, n. split; [lia|].
               split; [eapply lookup_names, Hk|]. split; [exact Hn|].
               right. now split. }
             destruct (String.eqb_spec (n +:+ "_ind") (name +:+ "_ind"))
               as [Heq|_]; [now apply append_inj_r in Heq|].
             now apply Hg0.
    - apply bool_decide_eq_false in Em. exists F1. rewrite frames_say.
      split; [exact Hfr|]. split; [exact Hidx|].
      split; [now exists extra|]. split; [exact Hpos|].
      assert (forall n, met money ind F (S i) n -> met money ind F i n)
        as Hback.
      { intros n Hm.
        destruct (met_step _ _ _ _ _ _ Hi Hm) as [Hm'|[Hn _]];
          [exact Hm'|contradiction]. }
      split; [|split; [|split]].
      + intros k n s1 Hk Hm. apply (Hmet k n s1 Hk), Hback, Hm.
      + intros k n s0 Hk Hm. apply (Hkeep k n s0 Hk). intros Hm'.
        apply Hm. eapply met_mono; [|exact Hm']. lia.
      + intros k n Hlt Hk Hn.
        destruct (Nat.eq_dec k i) as [->|Hne].
        * rewrite Hi in Hk. injection Hk as <-. contradiction.
        * apply (Hnew k n); [lia|exact Hk|exact Hn].
      + intros k n s0 Hlt Hk Hn.
        assert (k <> i) as Hne.
        { intros ->. rewrite Hs in Hk. injection Hk as <- <-.
          contradiction. }
        apply (Hdone k n s0); [lia|exact Hk|exact Hn]. }
  pose proof (clean_money_rule np_log mean std log scale ind Inv Exc
                d money verbose h F HF H0 Hstep) as R.
  destruct (clean_money_columns np_log mean std d money log scale ind verbose h)
    as [[r|e] h']; [apply R|exact R].
Qed.

End MoneyTrace.

(** X11. A money column under a label that has been written before its turn
    stops the run.  When two columns of the frame carry the same label named
    in [money_columns], or when, with [indicator], a money column carries
    the indicator label of a money column before it, the first write puts a
    result under the label of the second, and the call raises at the second
    at the latest. *)
Theorem clean_money_columns_written_label
    np_log mean std h d F money log scale ind verbose i j m n :
  frames h !! d = Some F ->
  (i < j)%nat ->
  df_names F !! i = Some m -> m ∈ money ->
  df_names F !! j = Some n -> n ∈ money ->
  n = m \/ (ind = true /\ n = m +:+ "_ind") ->
  exists e h',
    clean_money_columns np_log mean std d money log scale ind verbose h
      = (Raise e, h') /\
    (e = ValueError \/ e = AttributeError).
Proof.
  intros HF Hlt Hi Hm Hj Hn Hlab.
  pose proof (money_trace np_log mean std
      log scale ind h d F money verbose HF) as T.
  destruct (clean_money_columns np_log mean std d money log scale ind verbose h)
    as [[r|e] h'].
  - exfalso. destruct T as (F' & _ & _ & _ & _ & _ & _ & Hnew & _).
    apply (Hnew j n); [eapply lookup_lt_Some, Hj|exact Hj|exact Hn|].
    exists i, m. now repeat split.
  - destruct T as (j' & n' & sj & F' & _ & _ & _ & _ & _ & He).
    exists e, h'. split; [reflexivity|]. eapply parsed_column_exn, He.
Qed.

(** X12. Nothing is rolled back when [clean_money_columns] raises.  The
    call stops at a money column whose cells, as they stand then, do not
    parse, with the error of that column; the cells of every money column
    before it have parsed and its indicator stands under its label followed
    by [_ind]; such a column has been replaced by its parsed cells after the
    [log] and [scale] steps, unless its label is the indicator label of
    another money column of the frame, whose indicator may have been written
    over it; and every column under a label not written by then is as it
    was. *)
Theorem clean_money_columns_no_rollback
    np_log mean std h d F money log scale ind verbose e h' :
  frames h !! d = Some F ->
  clean_money_columns np_log mean std d money log scale ind verbose h
    = (Raise e, h') ->
  exists j n sj F',
    df_names F !! j = Some n /\ n ∈ money /\
    frames h' = <[d := F']> (frames h) /\
    df_cols F' !! j = Some (n, sj) /\
    parsed_column sj = Raise e /\
    (e = ValueError \/ e = AttributeError) /\
    (forall k m s, (k < j)%nat -> df_cols F !! k = Some (m, s) ->
       m ∈ money ->
       exists v, parsed_column s = Ok v /\
         (unclobbered money ind F m ->
          df_cols F' !! k =
            Some (m, SFloat (transform np_log mean std log scale v))) /\
         (ind = true ->
          df_get F' (m +:+ "_ind") = Some (indicator_of v))) /\
    (forall k m s, df_cols F !! k = Some (m, s) ->
       ~ met money ind F j m -> df_cols F' !! k = Some (m, s)).
Proof.
  intros HF Hrun.
  pose proof (money_trace np_log mean std
      log scale ind h d F money verbose HF) as T.
  rewrite Hrun in T.
  destruct T as (j & n & sj & F' & Hj & Hn & Hfr & Hprog & Hsj & He).
  destruct Hprog as (_ & _ & _ & _ & Hkeep & _ & Hdone).
  exists j, n, sj, F'. repeat (split; [assumption|]).
  split; [eapply parsed_column_exn, He|]. now split.
Qed.

Lemma no_clash_spec money F m n :
  no_clash money F = true ->
  m ∈ money -> n ∈ money -> In m (df_names F) -> In n (df_names F) ->
  n <> m +:+ "_ind".
Proof.
  unfold no_clash. intros H Hm Hn Him Hin ->.
  rewrite forallb_forall in H. specialize (H m Him).
  rewrite (bool_decide_eq_true_2 _ Hm) in H. cbn [implb] in H.
  rewrite forallb_forall in H. specialize (H _ Hin).
  rewrite (bool_decide_eq_true_2 _ Hn), String.eqb_refl in H. discriminate.
Qed.

Lemma never_met money ind F k n :
  NoDup (df_names F) ->
  (ind = true -> no_clash money F = true) ->
  df_names F !! k = Some n -> n ∈ money ->
  ~ met money ind F k n.
Proof.
  intros Hnd Hclash Hk Hn (i & m & Hlt & Hi & Hm & [->|[Hind ->]]).
  - pose proof (NoDup_lookup _ _ _ _ Hnd Hi Hk). lia.
  - apply (no_clash_spec money F m (m +:+ "_ind") (Hclash Hind) Hm Hn);
      [eapply lookup_In_names, Hi|eapply lookup_In_names, Hk|reflexivity].
Qed.

(** X15. Where and how the call fails.  On a frame with distinct labels
    (and, with [indicator], no money column labelled as the indicator of
    another), if the money column at position [j] does not parse and every
    money column before it does, the call raises the error of that column
    ([AttributeError] when it holds no text, [ValueError] when a text cell
    is not a number); the failing column is left as it was and each money
    column before it has been replaced by its parsed cells. *)
Theorem clean_money_columns_first_failure
    np_log mean std h d F money log scale ind verbose j n s e :
  frames h !! d = Some F ->
  NoDup (df_names F) ->
  (ind = true -> no_clash money F = true) ->
  df_cols F !! j = Some (n, s) -> n ∈ money ->
  parsed_column s = Raise e ->
  (forall k m s', (k < j)%nat -> df_cols F !! k = Some (m, s') ->
     m ∈ money -> exists v, parsed_column s' = Ok v) ->
  exists h' F',
    clean_money_columns np_log mean std d money log scale ind verbose h
      = (Raise e, h') /\
    frames h' = <[d := F']> (frames h) /\
    df_cols F' !! j = Some (n, s) /\
    (e = AttributeError /\ text_cells s = None \/
     e = ValueError /\ exists cells, text_cells s = Some cells) /\
    forall k m s', (k < j)%nat -> df_cols F !! k = Some (m, s') ->
      m ∈ money ->
      exists v, parsed_column s' = Ok v /\
        df_cols F' !! k = Some (m, SFloat (transform np_log mean std
            log scale v)).
Proof.
  intros HF Hnd Hclash Hj Hn He Hbefore.
  pose proof (money_trace np_log mean std
      log scale ind h d F money verbose HF) as T.
  destruct (clean_money_columns np_log mean std d money log scale ind verbose h)
    as [[r|e'] h'].
  { exfalso. destruct T as (F' & _ & _ & _ & _ & _ & _ & _ & Hdone).
    destruct (Hdone j n s) as (v & Hv & _); [|exact Hj|exact Hn|congruence].
    apply lookup_lt_Some in Hj. unfold df_names. now rewrite length_map. }
  destruct T as (j' & n' & sj & F' & Hj' & Hn' & Hfr & Hprog & Hsj & He').
  destruct Hprog as (_ & _ & _ & _ & Hkeep & _ & Hdone).
  destruct (names_lookup F j' n' Hj') as [s0 Hs0].
  assert (sj = s0) as ->.
  { pose proof (Hkeep j' n' s0 Hs0
                  (never_met money ind F j' n' Hnd Hclash Hj' Hn')) as H.
    rewrite H in Hsj. now injection Hsj. }
  assert (j' = j) as ->.
  { destruct (Nat.lt_trichotomy j' j) as [Hlt|[Heq|Hgt]]; [|exact Heq|].
    - destruct (Hbefore j' n' s0 Hlt Hs0 Hn') as [v Hv]. congruence.
    - destruct (Hdone j n s Hgt Hj Hn) as (v & Hv & _). congruence. }
  rewrite Hj in Hs0. injection Hs0 as <- <-.
  assert (e' = e) as -> by congruence.
  exists h', F'. split; [reflexivity|]. split; [exact Hfr|].
  split; [exact Hsj|]. split.
  { rewrite parsed_column_cells in He.
    destruct (text_cells s) as [cells|].
    - right. split; [now apply parse_cells_exn in He|now exists cells].
    - left. split; [now injection He|reflexivity]. }
  intros k m s' Hlt Hk Hm.
  destruct (Hdone k m s' Hlt Hk Hm) as (v & Hv & Hcol & _).
  exists v. split; [exact Hv|]. apply Hcol.
  intros Hind m0 Hm0 Hin0.
  apply (no_clash_spec money F m0 m (Hclash Hind) Hm0 Hm Hin0).
  eapply lookup_In_names, lookup_names, Hk.
Qed.

(** *** What [verbose] does not change *)

Lemma alike_ret {A} (a : A) : alike (ret a) (ret a).
Proof. intros h1 h2 H. now split. Qed.

Lemma alike_lift {A} (r : res A) : alike (lift r) (lift r).
Proof. intros h1 h2 H. now split. Qed.

Lemma alike_get_frame d : alike (get_frame d) (get_frame d).
Proof.
  intros h1 h2 H. unfold get_frame. rewrite H.
  now destruct (frames h2 !! d).
Qed.

Lemma alike_update_frame d f : alike (update_frame d f) (update_frame d f).
Proof.
  intros h1 h2 H. unfold update_frame. rewrite H.
  now destruct (frames h2 !! d).
Qed.

Lemma alike_new_frame F : alike (new_frame F) (new_frame F).
Proof. intros h1 h2 H. unfold new_frame. cbn. now rewrite H. Qed.

Lemma alike_print b1 b2 l1 l2 :
  alike (when b1 (print l1)) (when b2 (print l2)).
Proof. intros h1 h2 H. now destruct b1, b2. Qed.

Lemma alike_bind {A B} (m1 m2 : M A) (k1 k2 : A -> M B) :
  alike m1 m2 -> (forall a, alike (k1 a) (k2 a)) ->
  alike (bind m1 k1) (bind m2 k2).
Proof.
  intros Hm Hk h1 h2 H. unfold bind. destruct (Hm h1 h2 H) as [Hr Hf].
  destruct (m1 h1) as [[a|e] h1'], (m2 h2) as [[a'|e'] h2'];
    cbn [fst snd] in *; try discriminate.
  - injection Hr as <-. now apply Hk.
  - injection Hr as <-. now split.
Qed.

Lemma alike_ixs d i : alike (ixs d i) (ixs d i).
Proof.
  apply alike_bind; [apply alike_get_frame|].
  intros F. destruct (df_ixs F i); [apply alike_ret|].
  intros h1 h2 H. now split.
Qed.

Lemma alike_for_items {S} d (b1 b2 : S -> string -> Series -> M S) acc :
  (forall acc name column, alike (b1 acc name column) (b2 acc name column)) ->
  alike (for_items d b1 acc) (for_items d b2 acc).
Proof.
  intros Hb. apply alike_bind; [apply alike_get_frame|]. intros F.
  generalize 0%nat. revert acc.
  induction (df_names F) as [|name rest IH]; intros acc i;
    [apply alike_ret|].
  cbn [for_items_from]. apply alike_bind; [apply alike_ixs|].
  intros column. apply alike_bind; [apply Hb|]. intros acc'. apply IH.
Qed.

Lemma alike_money_column np_log mean std d log scale ind eps name column :
  alike (money_column np_log mean std d log scale ind eps name column)
        (money_column np_log mean std d log scale ind eps name column).
Proof.
  unfold money_column.
  repeat (apply alike_bind; [apply alike_lift|]; intros ?).
  apply alike_bind.
  - destruct ind; [|apply alike_ret].
    apply alike_bind; intros; apply alike_update_frame.
  - intros _. apply alike_bind; [apply alike_update_frame|].
    intros _. apply alike_ret.
Qed.

(** X16. [verbose] changes the console and nothing else: with it or without
    it, from the same store, each function ends the same way (the same
    reference returned or the same error raised) and leaves the same
    frames. *)
Theorem verbose_changes_console_only
    np_log mean std d money log scale ind verbose verbose' h :
  (fst (clean_money_columns np_log mean std d money log scale ind verbose h) =
   fst (clean_money_columns np_log mean std d money log scale ind verbose' h) /\
   frames (snd (clean_money_columns np_log mean std
       d money log scale ind verbose h)) =
   frames (snd (clean_money_columns np_log mean std
       d money log scale ind verbose' h)))
  /\
  (fst (clean_types d verbose h) = fst (clean_types d verbose' h) /\
   frames (snd (clean_types d verbose h)) =
   frames (snd (clean_types d verbose' h))).
Proof.
  split.
  - apply (alike_bind (for_items d _ tt) (for_items d _ tt)
             (fun _ => ret d) (fun _ => ret d));
      [|intros; apply alike_ret|reflexivity].
    apply alike_for_items. intros [] name column. unfold money_body.
    apply alike_bind; [|intros; apply alike_print].
    destruct (bool_decide (name ∈ money));
      [apply alike_money_column|apply alike_ret].
  - unfold clean_types. apply alike_bind; [| |reflexivity].
    + apply alike_for_items. intros b name column h1 h2 H.
      rewrite !types_body_run. cbn [fst snd]. now rewrite !frames_say.
    + intros b.
      repeat (apply alike_bind;
              [first [apply alike_get_frame|apply alike_new_frame]|];
              intros ?).
      apply alike_new_frame.
Qed.

(** *** The frame a run leaves, in closed form *)

Lemma on_label_absent k f (l : list (string * Series)) :
  ~ In k (map fst l) -> map (on_label k f) l = l.
Proof.
  induction l as [|c l IH]; intros H; [reflexivity|].
  cbn [map]. rewrite IH by (intros Hin; apply H; now right).
  rewrite on_label_other; [reflexivity|].
  intros E. apply H. now left.
Qed.

Lemma setitem_new k v F :
  ~ In k (df_names F) ->
  df_setitem k v F = mkFrame (df_index F) (df_cols F ++ [(k, v)]).
Proof.
  intros H. unfold df_setitem.
  destruct (existsb (String.eqb k) (df_names F)) eqn:E; [|reflexivity].
  now apply existsb_eqb_In in E.
Qed.

Lemma setitem_old k v F :
  In k (df_names F) ->
  df_setitem k v F =
  mkFrame (df_index F) (map (on_label k (fun _ => v)) (df_cols F)).
Proof.
  intros H. unfold df_setitem. apply existsb_eqb_In in H. now rewrite H.
Qed.

Lemma names_money_conv np_log mean std
    log scale money (l : list (string * Series)) :
  map fst (map (money_conv np_log mean std log scale money) l) = map fst l.
Proof.
  rewrite map_map. apply map_ext. intros c. unfold money_conv.
  now destruct (bool_decide (fst c ∈ money)).
Qed.

Lemma money_stage_names np_log mean std log scale ind money k F :
  df_names (money_stage np_log mean std log scale ind money k F) =
  df_names F ++
  map fst (if ind
           then map money_ind_col
                  (List.filter (fun c => bool_decide (fst c ∈ money))
                     (take k (df_cols F)))
           else []).
Proof.
  unfold df_names, money_stage. cbn [df_cols].
  rewrite !map_app, names_money_conv, app_assoc, <- map_app.
  now rewrite take_drop.
Qed.

Lemma money_stage_lookup np_log mean std log scale ind money k F c :
  df_cols F !! k = Some c ->
  df_cols (money_stage np_log mean std log scale ind money k F) !! k = Some c.
Proof.
  intros Hc. unfold money_stage. cbn [df_cols].
  pose proof (lookup_lt_Some _ _ _ Hc) as Hlt.
  rewrite lookup_app_r by (rewrite length_map, length_take; lia).
  rewrite length_map, length_take.
  replace (k - k `min` length (df_cols F))%nat with 0%nat by lia.
  now rewrite (drop_S _ _ _ Hc).
Qed.

Lemma money_stage_plain np_log mean std log scale ind money k F c :
  df_cols F !! k = Some c -> ~ fst c ∈ money ->
  money_stage np_log mean std log scale ind money (S k) F =
  money_stage np_log mean std log scale ind money k F.
Proof.
  intros Hc Hn. unfold money_stage. apply (f_equal (mkFrame (df_index F))).
  rewrite (take_S_r _ _ _ Hc), map_app, List.filter_app, (drop_S _ _ _ Hc).
  cbn [map List.filter]. unfold money_conv at 2.
  rewrite (bool_decide_eq_false_2 _ Hn). rewrite <- app_assoc.
  cbn [app]. now rewrite app_nil_r.
Qed.

Lemma money_stage_write np_log mean std log scale ind money k F name s v :
  NoDup (df_names F) ->
  (ind = true ->
   forall m, m ∈ money -> In m (df_names F) ->
             ~ In (m +:+ "_ind") (df_names F)) ->
  df_cols F !! k = Some (name, s) ->
  name ∈ money ->
  parsed_column s = Ok v ->
  money_write np_log mean std log scale ind name v
    (money_stage np_log mean std log scale ind money k F) =
  money_stage np_log mean std log scale ind money (S k) F.
Proof.
  intros Hnd Hfresh Hc Hm Hv.
  assert (In name (df_names F)) as Hin
    by (eapply lookup_In_names, lookup_names, Hc).
  pose proof (take_drop_middle _ _ _ Hc) as Hsplit.
  assert (NoDup (map fst (take k (df_cols F)) ++
                 name :: map fst (drop (S k) (df_cols F)))) as Hnd'.
  { unfold df_names in Hnd. rewrite <- Hsplit in Hnd.
    now rewrite map_app in Hnd. }
  apply NoDup_app in Hnd' as (_ & Hleft & Hright).
  apply NoDup_cons in Hright as [Hright _].
  assert (~ In name (map fst (take k (df_cols F)))) as Hbefore.
  { intros H. apply list_elem_of_In in H. apply (Hleft name H). left. }
  assert (~ In name (map fst (drop (S k) (df_cols F)))) as Hafter
    by (intros H; now apply list_elem_of_In in H).
  set (A := map (money_conv np_log mean std
      log scale money) (take k (df_cols F))).
  set (D := drop (S k) (df_cols F)).
  assert (money_conv np_log mean std log scale money (name, s) =
          (name, SFloat (transform np_log mean std log scale v))) as Hconv.
  { unfold money_conv, cells_of. cbn [fst snd].
    now rewrite (bool_decide_eq_true_2 _ Hm), Hv. }
  assert (money_ind_col (name, s) = (name +:+ "_ind", indicator_of v))
    as Hicol by (unfold money_ind_col, cells_of; cbn [fst snd]; now rewrite Hv).
  assert (money_stage np_log mean std log scale ind money (S k) F =
          mkFrame (df_index F)
            ((A ++ [(name, SFloat (transform np_log mean std
                log scale v))]) ++ D ++
             if ind
             then map money_ind_col
                    (List.filter (fun c => bool_decide (fst c ∈ money))
                       (take k (df_cols F))) ++
                  [(name +:+ "_ind", indicator_of v)]
             else [])) as ->.
  { unfold money_stage.
    rewrite (take_S_r _ _ _ Hc), map_app, List.filter_app.
    cbn [map List.filter fst].
    rewrite (bool_decide_eq_true_2 _ Hm), Hconv, map_app. cbn [map].
    now rewrite Hicol. }
  unfold money_write.
  assert (df_cols (money_stage np_log mean std log scale ind money k F) =
          A ++ (name, s) :: D ++
          (if ind
           then map money_ind_col
                  (List.filter (fun c => bool_decide (fst c ∈ money))
                     (take k (df_cols F)))
           else [])) as Hcols.
  { unfold money_stage. cbn [df_cols]. now rewrite (drop_S _ _ _ Hc). }
  assert (~ In name (map fst A)) as HA
    by (unfold A; now rewrite names_money_conv).
  destruct ind.
  - set (I0 := map money_ind_col
                 (List.filter (fun c => bool_decide (fst c ∈ money))
                    (take k (df_cols F)))) in *.
    assert (forall n, In n (map fst I0) ->
              exists m, n = m +:+ "_ind" /\ m ∈ money /\
                        In m (map fst (take k (df_cols F)))) as HI.
    { intros n Hn. unfold I0 in Hn. rewrite map_map in Hn.
      apply in_map_iff in Hn as (c & <- & Hcin).
      apply filter_In in Hcin as [Hcin Hcm].
      exists (fst c). split; [reflexivity|].
      split; [now apply bool_decide_eq_true in Hcm|now apply in_map]. }
    assert (forall m, In m (map fst (take k (df_cols F))) ->
              In m (df_names F)) as Htake.
    { intros m Hmin. unfold df_names. rewrite <- Hsplit, map_app.
      apply in_or_app. now left. }
    assert (~ In (name +:+ "_ind")
              (df_names (money_stage np_log mean std log scale true money k F)))
      as Hnew.
    { rewrite money_stage_names. intros H. apply in_app_or in H as [H|H].
      - now apply (Hfresh eq_refl name Hm Hin).
      - apply HI in H as (m & Heq & _ & Hmin).
        apply append_inj_r in Heq. subst m. contradiction. }
    assert (~ In name (map fst I0)) as HI0.
    { intros H. apply HI in H as (m & -> & Hmm & Hmin).
      now apply (Hfresh eq_refl m Hmm (Htake m Hmin)). }
    rewrite (setitem_new _ _ _ Hnew).
    unfold df_loc_setna. cbn [df_index df_cols].
    rewrite map_app, on_label_absent by exact Hnew.
    cbn [map]. rewrite on_label_same, setna_indicator.
    rewrite setitem_old.
    2:{ unfold df_names. cbn [df_cols]. rewrite map_app. apply in_or_app.
        left. fold (df_names (money_stage np_log mean std
            log scale true money k F)).
        rewrite money_stage_names. apply in_or_app. now left. }
    cbn [df_index df_cols]. f_equal. rewrite Hcols.
    rewrite !map_app. cbn [map]. rewrite !map_app. cbn [map].
    rewrite (on_label_absent _ _ A HA), (on_label_absent _ _ D Hafter),
      (on_label_absent _ _ I0 HI0).
    rewrite on_label_same.
    rewrite (on_label_other name _ (name +:+ "_ind", indicator_of v))
      by (cbn [fst]; apply append_ne_self).
    repeat (rewrite <- app_assoc || rewrite <- app_comm_cons). reflexivity.
  - rewrite setitem_old.
    2:{ rewrite money_stage_names. apply in_or_app. now left. }
    cbn [df_index money_stage]. f_equal. rewrite Hcols, !app_nil_r.
    rewrite !map_app. cbn [map].
    rewrite (on_label_absent _ _ A HA), (on_label_absent _ _ D Hafter).
    rewrite on_label_same.
    repeat (rewrite <- app_assoc || rewrite <- app_comm_cons). reflexivity.
Qed.

(** The loop of a run that returns, stage by stage. *)
Lemma money_stage_run np_log mean std h d F money log scale ind verbose r h' :
  frames h !! d = Some F ->
  NoDup (df_names F) ->
  (ind = true ->
   forall m, m ∈ money -> In m (df_names F) ->
             ~ In (m +:+ "_ind") (df_names F)) ->
  clean_money_columns np_log mean std
      d money log scale ind verbose h = (Ok r, h') ->
  r = d /\
  frames h' =
    <[d := mkFrame (df_index F)
             (map (money_conv np_log mean std log scale money) (df_cols F) ++
              if ind
              then map money_ind_col
                     (List.filter (fun c => bool_decide (fst c ∈ money))
                        (df_cols F))
              else [])]> (frames h).
Proof.
  intros HF Hnd Hfresh Hrun.
  pose (Inv := fun (k : nat) (h1 : heap) =>
    frames h1 =
      <[d := money_stage np_log mean std log scale ind money k F]> (frames h)).
  assert (Inv 0%nat h) as H0.
  { unfold Inv, money_stage. rewrite take_0, drop_0. cbn [map List.filter].
    symmetry. apply list_insert_id. rewrite HF. f_equal.
    destruct F as [idx cols]. cbn [df_index df_cols app].
    now destruct ind; rewrite app_nil_r. }
  assert (forall k name h1,
             df_names F !! k = Some name -> Inv k h1 ->
             match bind (ixs d k)
                     (money_body np_log mean std
                         d money log scale ind verbose 1%float
                        tt name) h1 with
             | (Ok _, h2) => Inv (S k) h2
             | (Raise e, h2) => True
             end) as Hstep.
  { intros k name h1 Hk Hfr. unfold Inv in Hfr.
    destruct (names_lookup F k name Hk) as [s Hs].
    assert (frames h1 !! d =
            Some (money_stage np_log mean std log scale ind money k F)) as HF1
      by (rewrite Hfr; eapply frames_insert_lookup, HF).
    rewrite (money_body_run np_log mean std
        log scale ind d money verbose name k h1
               _ (name, s) HF1
               (money_stage_lookup np_log mean std
                   log scale ind money k F _ Hs)).
    destruct (bool_decide (name ∈ money)) eqn:Em.
    - apply bool_decide_eq_true in Em. cbn [snd].
      destruct (parsed_column s) as [v|e] eqn:Ev; [|exact Logic.I].
      unfold Inv. rewrite frames_say. cbn [frames].
      rewrite (money_stage_write np_log mean std
          log scale ind money k F name s v
                 Hnd Hfresh Hs Em Ev).
      rewrite Hfr. apply list_insert_insert_eq.
    - apply bool_decide_eq_false in Em. unfold Inv.
      rewrite frames_say, (money_stage_plain _ _ _ _ _ _ _ _ _ (name, s) Hs Em).
      exact Hfr. }
  pose proof (clean_money_rule np_log mean std
      log scale ind Inv (fun _ _ => True)
                d money verbose h F HF H0 Hstep) as R.
  rewrite Hrun in R. destruct R as [-> Hfr]. split; [reflexivity|].
  unfold Inv in Hfr. rewrite Hfr. f_equal. unfold money_stage. f_equal.
  unfold df_names. rewrite length_map, firstn_all, drop_all.
  reflexivity.
Qed.

(** X17. The frame a run leaves.  On a frame with distinct labels (and,
    with [indicator], none that is the indicator label of one of its money
    columns) a call that returns leaves in its argument the index of the
    frame, then every column of the frame in place, a money column replaced
    by the float64 column of its parsed cells after the [log] and [scale]
    steps and every other column as it was, then, with [indicator], the
    indicator columns of the money columns in the order these have in the
    frame. *)
Theorem clean_money_columns_result
    np_log mean std h d F money log scale ind verbose r h' :
  frames h !! d = Some F ->
  NoDup (df_names F) ->
  (ind = true ->
   forall m, m ∈ money -> In m (df_names F) ->
             ~ In (m +:+ "_ind") (df_names F)) ->
  clean_money_columns np_log mean std
      d money log scale ind verbose h = (Ok r, h') ->
  r = d /\
  frames h' =
    <[d := mkFrame (df_index F)
             (map (fun c =>
                     if bool_decide (fst c ∈ money)
                     then (fst c,
                           SFloat (transform np_log mean std
                               log scale (cells_of c)))
                     else c) (df_cols F) ++
              if ind
              then map (fun c => (fst c +:+ "_ind",
                                  indicator_of (cells_of c)))
                     (List.filter (fun c => bool_decide (fst c ∈ money))
                        (df_cols F))
              else [])]> (frames h).
Proof.
  intros HF Hnd Hfresh Hrun.
  exact (money_stage_run np_log mean std h d F money log scale ind verbose r h'
           HF Hnd Hfresh Hrun).
Qed.

(** *** [clean_money_columns], then [clean_types] *)

Lemma nodup_filter_names (p : string * Series -> bool) cols :
  NoDup (map fst cols) -> NoDup (map fst (List.filter p cols)).
Proof.
  induction cols as [|c cols IH]; intros H; [constructor|].
  cbn [map] in H. apply NoDup_cons in H as [Hc H]. cbn [List.filter].
  destruct (p c); [|now apply IH].
  cbn [map]. apply NoDup_cons. split; [|now apply IH].
  intros Hin. apply Hc. apply list_elem_of_In in Hin. apply list_elem_of_In.
  apply in_map_iff in Hin as (c' & <- & Hc').
  apply filter_In in Hc' as [Hc' _]. now apply in_map.
Qed.

Lemma nodup_ind_labels (l : list string) :
  NoDup l -> NoDup (map (fun m => m +:+ "_ind") l).
Proof.
  induction l as [|m l IH]; intros H; [constructor|].
  apply NoDup_cons in H as [Hm H]. cbn [map]. apply NoDup_cons.
  split; [|now apply IH].
  intros Hin. apply Hm. apply list_elem_of_In in Hin. apply list_elem_of_In.
  apply in_map_iff in Hin as (m' & Heq & Hm').
  apply append_inj_r in Heq. now subst m'.
Qed.

(** X18. The two functions in the order money, then types.  On a frame with
    distinct labels (and, with [indicator], none that is the indicator label
    of one of its money columns), when [clean_money_columns] has returned,
    [clean_types] on the same frame returns a frame with the converted
    columns arranged by kind (a money column, now float64, among the
    numeric ones) and the indicator columns last of all, after the boolean
    columns the frame had. *)
Theorem clean_money_then_types
    np_log mean std h d F money log scale ind verbose verbose' r h1 :
  frames h !! d = Some F ->
  NoDup (df_names F) ->
  (ind = true ->
   forall m, m ∈ money -> In m (df_names F) ->
             ~ In (m +:+ "_ind") (df_names F)) ->
  clean_money_columns np_log mean std
      d money log scale ind verbose h = (Ok r, h1) ->
  exists r' h2,
    clean_types r verbose' h1 = (Ok r', h2) /\
    r' <> r /\
    frames h2 !! r' =
      Some (let cols := map (fun c =>
                               if bool_decide (fst c ∈ money)
                               then (fst c,
                                     SFloat (transform np_log mean std log scale
                                               (cells_of c)))
                               else c) (df_cols F) in
            mkFrame (df_index F)
              (group Numeric cols ++
               map as_category (group Categorical cols) ++
               group Boolean cols ++
               if ind
               then map (fun c => (fst c +:+ "_ind",
                                   indicator_of (cells_of c)))
                      (List.filter (fun c => bool_decide (fst c ∈ money))
                         (df_cols F))
               else [])).
Proof.
  intros HF Hnd Hfresh Hrun.
  destruct (money_stage_run np_log mean std
      h d F money log scale ind verbose r h1
              HF Hnd Hfresh Hrun) as [-> Hfr].
  set (C := map (money_conv np_log mean std log scale money) (df_cols F)).
  set (I0 := if ind
             then map money_ind_col
                    (List.filter (fun c => bool_decide (fst c ∈ money))
                       (df_cols F))
             else []).
  fold C I0 in Hfr.
  assert (frames h1 !! d = Some (mkFrame (df_index F) (C ++ I0))) as Hd
    by (rewrite Hfr; eapply frames_insert_lookup, HF).
  destruct (clean_types_run verbose' d h1 _ Hd) as (h2 & Hrun2 & Hfr2).
  cbn zeta in Hrun2, Hfr2. cbn [df_cols df_index] in Hfr2.
  exists (length (frames h1) + 3)%nat, h2. split; [exact Hrun2|].
  split; [apply lookup_lt_Some in Hd; lia|].
  rewrite Hfr2, result_lookup. f_equal. cbn zeta. fold C.
  assert (NoDup (map fst (C ++ I0))) as HndC.
  { rewrite map_app. unfold C. rewrite names_money_conv.
    apply NoDup_app. split; [exact Hnd|]. unfold I0. destruct ind.
    - split.
      + intros n Hn Hin. apply list_elem_of_In in Hn, Hin.
        unfold money_ind_col in Hin. rewrite map_map in Hin. cbn [fst] in Hin.
        apply in_map_iff in Hin as (c & <- & Hc).
        apply filter_In in Hc as [Hc Hm].
        apply bool_decide_eq_true in Hm.
        apply (Hfresh eq_refl (fst c) Hm); [now apply in_map|exact Hn].
      + unfold money_ind_col. rewrite map_map. cbn [fst].
        rewrite <- (map_map fst (fun m => m +:+ "_ind")).
        apply nodup_ind_labels, nodup_filter_names, Hnd.
    - split; [intros n _ Hin; now apply list_elem_of_In in Hin|constructor]. }
  rewrite (buckets_of_frame _ HndC). unfold assembled.
  cbn [numericals categoricals booleans].
  assert (forall K, group K I0 = if kind_eqb Boolean K then I0 else [])
    as HgI.
  { intros K. apply group_all. intros c Hc. unfold I0 in Hc.
    destruct ind; [|destruct Hc].
    apply in_map_iff in Hc as (c0 & <- & _). reflexivity. }
  rewrite !group_app, !HgI. cbn [kind_eqb]. rewrite !app_nil_r.
  reflexivity.
Qed.

(** *** Instances of the further properties *)

Lemma ledger_distinct : NoDup (df_names ledger).
Proof.
  apply (bool_decide_unpack (NoDup (df_names ledger))).
  vm_compute. exact Logic.I.
Defined.

Lemma ledger_fresh m :
  In m (df_names ledger) -> ~ In (m +:+ "_ind") (df_names ledger).
Proof.
  intros Hm Hin. cbn in Hm.
  destruct Hm as [<-|[<-|[<-|[<-|[]]]]]; cbn in Hin;
    repeat (destruct Hin as [Hin|Hin]; [discriminate Hin|]); exact Hin.
Defined.


Lemma clean_money_columns_membership_witness :
  frames (mkHeap [ledger] []) !! 0%nat = Some ledger /\
  clean_money_columns sample_log seq_mean seq_std
      0%nat ["tax"; "absent"; "price"; "tax"]
    true true true true (mkHeap [ledger] []) =
  clean_money_columns sample_log seq_mean seq_std 0%nat ["price"; "tax"]
    true true true true (mkHeap [ledger] []).
Proof.
  split; [reflexivity|].
  apply (clean_money_columns_membership sample_log seq_mean seq_std
      (mkHeap [ledger] [])
           0%nat ledger); [reflexivity|].
  intros n [<-|[<-|[<-|[<-|[]]]]];
    apply (bool_decide_unpack _); vm_compute; exact Logic.I.
Defined.

Lemma clean_money_columns_no_money_witness :
  frames (mkHeap [ledger] []) !! 0%nat = Some ledger /\
  clean_money_columns sample_log seq_mean seq_std
      0%nat ["amount"] true true true true
    (mkHeap [ledger] []) =
  (Ok 0%nat,
   mkHeap [ledger]
     ["id is a int64 column"; "price is a object column";
      "tax is a string column"; "note is a object column"]).
Proof.
  split; [reflexivity|].
  apply (clean_money_columns_no_money sample_log seq_mean seq_std
      (mkHeap [ledger] [])
           0%nat ledger ["amount"] true true true true eq_refl).
  intros n [<-|[<-|[<-|[<-|[]]]]];
    apply (bool_decide_unpack _); vm_compute; exact Logic.I.
Defined.

Lemma clean_money_columns_lines_witness :
  frames (mkHeap [ledger] []) !! 0%nat = Some ledger /\
  exists h' lines,
    clean_money_columns sample_log seq_mean seq_std 0%nat ["price"; "tax"]
      false false true true (mkHeap [ledger] []) = (Ok 0%nat, h') /\
    stdout h' = lines /\
    length lines = 4%nat /\
    lines !! 1%nat = Some "price is a float64 column".
Proof.
  split; [reflexivity|]. eexists.
  destruct (clean_money_columns_lines sample_log seq_mean seq_std
      (mkHeap [ledger] []) 0%nat
              ledger ["price"; "tax"] false false true true 0%nat _
              eq_refl ltac:(vm_compute; reflexivity))
    as (lines & Hout & Hlen & Hl).
  exists lines. split; [reflexivity|]. split; [exact Hout|].
  split; [exact Hlen|].
  apply (proj1 (Hl 1%nat "price" (SObject [Some "$1,000"; Some "$0"])
                  eq_refl)).
  apply (bool_decide_unpack _). vm_compute. exact Logic.I.
Defined.

Lemma clean_types_lines_witness :
  frames (mkHeap [ledger] []) !! 0%nat = Some ledger /\
  exists r h',
    clean_types 0%nat true (mkHeap [ledger] []) = (Ok r, h') /\
    stdout h' =
      ["id         is a int64    column";
       "price      is a category column";
       "tax        is a category column";
       "note       is a category column"].
Proof.
  split; [reflexivity|].
  exact (clean_types_lines true 0%nat (mkHeap [ledger] []) ledger eq_refl).
Defined.

Lemma clean_types_idempotent_witness :
  frames (mkHeap [ledger] []) !! 0%nat = Some ledger /\
  NoDup (df_names ledger) /\
  exists r h1 R r' h2,
    clean_types 0%nat false (mkHeap [ledger] []) = (Ok r, h1) /\
    frames h1 !! r = Some R /\
    clean_types r true h1 = (Ok r', h2) /\
    r' <> r /\
    frames h2 !! r' = Some R.
Proof.
  split; [reflexivity|]. split; [exact ledger_distinct|].
  exact (clean_types_idempotent false true 0%nat (mkHeap [ledger] []) ledger
           eq_refl ledger_distinct).
Defined.

Lemma clean_money_columns_indicator_order_witness :
  frames (mkHeap [ledger] []) !! 0%nat = Some ledger /\
  NoDup (df_names ledger) /\
  exists h' F',
    clean_money_columns sample_log seq_mean seq_std 0%nat ["tax"; "price"]
      false false true false (mkHeap [ledger] []) = (Ok 0%nat, h') /\
    frames h' !! 0%nat = Some F' /\
    df_names F' = ["id"; "price"; "tax"; "note"; "price_ind"; "tax_ind"].
Proof.
  split; [reflexivity|]. split; [exact ledger_distinct|]. eexists.
  destruct (clean_money_columns_indicator_order sample_log seq_mean seq_std
              (mkHeap [ledger] []) 0%nat ledger ["tax"; "price"]
              false false false 0%nat _ eq_refl ledger_distinct
              (fun m _ => ledger_fresh m) ltac:(vm_compute; reflexivity))
    as (F' & HF' & Hnames).
  exists F'. split; [reflexivity|]. split; [exact HF'|exact Hnames].
Defined.

Lemma ledger_aligned : aligned ledger.
Proof. repeat constructor. Defined.

Lemma clean_money_columns_rows_witness :
  frames (mkHeap [ledger] []) !! 0%nat = Some ledger /\
  aligned ledger /\
  exists F',
    frames (snd (clean_money_columns sample_log seq_mean seq_std
        0%nat ["price"; "note"]
                   true true true true (mkHeap [ledger] [])))
      !! 0%nat = Some F' /\
    df_index F' = df_index ledger /\
    aligned F'.
Proof.
  split; [reflexivity|]. split; [exact ledger_aligned|].
  exact (clean_money_columns_rows sample_log seq_mean seq_std
      (mkHeap [ledger] []) 0%nat
           ledger ["price"; "note"] true true true true eq_refl
           ledger_aligned).
Defined.

Lemma clean_money_columns_scale_short_witness :
  frames (price_store [Some "$5"; None]) !! 0%nat
    = Some (price_frame [Some "$5"; None]) /\
  exists h' F',
    clean_money_columns sample_log seq_mean seq_std
        0%nat ["price"] false true true false
      (price_store [Some "$5"; None]) = (Ok 0%nat, h') /\
    frames h' !! 0%nat = Some F' /\
    exists cells,
      df_cols F' !! 0%nat = Some ("price", SFloat cells) /\
      Forall (fun x => PrimFloat.is_nan x = true) cells.
Proof.
  split; [reflexivity|]. eexists.
  destruct (clean_money_columns_scale_short sample_log seq_mean seq_std
              (price_store [Some "$5"; None]) 0%nat
              (price_frame [Some "$5"; None]) ["price"]
              false true false 0%nat _ eq_refl seq_std_short
              ltac:(vm_compute; reflexivity))
    as (F' & HF' & Hcols).
  exists F'. split; [reflexivity|]. split; [exact HF'|].
  destruct (Hcols 0%nat "price" (SObject [Some "$5"; None]) eq_refl
              price_in_money (price_unclobbered _))
    as (v & cells & Hv & Hcol & _ & Hnan).
  exists cells. split; [exact Hcol|]. apply Hnan.
  vm_compute in Hv. injection Hv as <-. vm_compute. lia.
Defined.

Lemma money_symbols_anywhere_witness :
  parsed_column (SObject [Some "$1,000"; None; Some "7"]) =
  parsed_column (SObject [Some "1$0,00"; None; Some ",7$"]) /\
  parsed_column (SString [Some "$1,000"; None; Some "7"]) =
  parsed_column (SString [Some "1$0,00"; None; Some ",7$"]).
Proof.
  apply (money_symbols_anywhere [Some "$1,000"; None; Some "7"]
           [Some "1$0,00"; None; Some ",7$"]).
  vm_compute. reflexivity.
Defined.

Lemma clean_money_columns_written_label_witness :
  frames (mkHeap [twin_text] []) !! 0%nat = Some twin_text /\
  exists e h',
    clean_money_columns sample_log seq_mean seq_std
        0%nat ["a"] false false false false
      (mkHeap [twin_text] []) = (Raise e, h') /\
    (e = ValueError \/ e = AttributeError).
Proof.
  split; [reflexivity|].
  apply (clean_money_columns_written_label sample_log seq_mean seq_std
           (mkHeap [twin_text] []) 0%nat twin_text ["a"]
           false false false false 0%nat 1%nat "a" "a" eq_refl).
  - lia.
  - reflexivity.
  - apply list_elem_of_In. left. reflexivity.
  - reflexivity.
  - apply list_elem_of_In. left. reflexivity.
  - left. reflexivity.
Defined.

Lemma clean_money_columns_no_rollback_witness :
  frames (mkHeap [half_ledger] []) !! 0%nat = Some half_ledger /\
  exists h' j n sj F',
    clean_money_columns sample_log seq_mean seq_std 0%nat ["price"; "cost"]
      false false true false (mkHeap [half_ledger] [])
      = (Raise ValueError, h') /\
    df_names half_ledger !! j = Some n /\
    frames h' = <[0%nat := F']> [half_ledger] /\
    df_cols F' !! j = Some (n, sj) /\
    parsed_column sj = Raise ValueError.
Proof.
  split; [reflexivity|]. eexists.
  destruct (clean_money_columns_no_rollback sample_log seq_mean seq_std
              (mkHeap [half_ledger] []) 0%nat half_ledger ["price"; "cost"]
              false false true false ValueError _ eq_refl
              ltac:(vm_compute; reflexivity))
    as (j & n & sj & F' & Hj & _ & Hfr & Hsj & He & _).
  exists j, n, sj, F'. split; [reflexivity|]. now repeat split.
Defined.

Lemma clean_types_keeps_money_readable_witness :
  frames (mkHeap [ledger] []) !! 0%nat = Some ledger /\
  exists r h' R,
    clean_types 0%nat false (mkHeap [ledger] []) = (Ok r, h') /\
    frames h' !! r = Some R /\
    forall c, In c (df_cols R) ->
      exists c0, In c0 (df_cols ledger) /\ fst c = fst c0 /\
                 parsed_column (snd c) = parsed_column (snd c0).
Proof.
  split; [reflexivity|].
  exact (clean_types_keeps_money_readable false 0%nat (mkHeap [ledger] [])
           ledger eq_refl).
Defined.


Lemma half_ledger_distinct : NoDup (df_names half_ledger).
Proof.
  apply (bool_decide_unpack (NoDup (df_names half_ledger))).
  vm_compute. exact Logic.I.
Defined.

Lemma half_ledger_no_clash :
  true = true -> no_clash ["price"; "cost"] half_ledger = true.
Proof. intros _. vm_compute. reflexivity. Defined.

Lemma clean_money_columns_first_failure_witness :
  frames (mkHeap [half_ledger] []) !! 0%nat = Some half_ledger /\
  NoDup (df_names half_ledger) /\
  parsed_column (SObject [Some "n/a"; Some "3"]) = Raise ValueError /\
  exists h' F',
    clean_money_columns sample_log seq_mean seq_std 0%nat ["price"; "cost"]
      false false true false (mkHeap [half_ledger] [])
      = (Raise ValueError, h') /\
    frames h' = <[0%nat := F']> [half_ledger] /\
    df_cols F' !! 1%nat = Some ("cost", SObject [Some "n/a"; Some "3"]) /\
    df_cols F' !! 0%nat = Some ("price", SFloat [1%float; 2%float]).
Proof.
  split; [reflexivity|]. split; [exact half_ledger_distinct|].
  split; [vm_compute; reflexivity|].
  destruct (clean_money_columns_first_failure sample_log seq_mean seq_std
              (mkHeap [half_ledger] []) 0%nat half_ledger ["price"; "cost"]
              false false true false 1%nat "cost"
              (SObject [Some "n/a"; Some "3"]) ValueError
              eq_refl half_ledger_distinct half_ledger_no_clash eq_refl)
    as (h' & F' & Hrun & Hfr & Hj & _ & Hbefore).
  - apply list_elem_of_In. right. left. reflexivity.
  - vm_compute. reflexivity.
  - intros k m s' Hlt Hk _. destruct k as [|k]; [|lia].
    injection Hk as <- <-. eexists. vm_compute. reflexivity.
  - exists h', F'. split; [exact Hrun|]. split; [exact Hfr|].
    split; [exact Hj|].
    destruct (Hbefore 0%nat "price" (SObject [Some "$1"; Some "2"]))
      as (v & Hv & Hcol); [lia|reflexivity| |].
    + apply list_elem_of_In. left. reflexivity.
    + vm_compute in Hv. injection Hv as <-. exact Hcol.
Defined.

Lemma clean_money_columns_result_witness :
  frames (mkHeap [ledger] []) !! 0%nat = Some ledger /\
  NoDup (df_names ledger) /\
  exists h',
    clean_money_columns sample_log seq_mean seq_std 0%nat ["tax"; "price"]
      false false true false (mkHeap [ledger] []) = (Ok 0%nat, h') /\
    frames h' =
      [mkFrame [LInt 0; LInt 1]
         [("id", SInt [7; 8]);
          ("price", SFloat [1000%float; 0%float]);
          ("tax", SFloat [2.5%float; PrimFloat.nan]);
          ("note", SObject [Some "paid"; None]);
          ("price_ind", SBoolean [Some false; Some true]);
          ("tax_ind", SBoolean [Some false; None])]].
Proof.
  split; [reflexivity|]. split; [exact ledger_distinct|]. eexists.
  destruct (clean_money_columns_result sample_log seq_mean seq_std
      (mkHeap [ledger] [])
              0%nat ledger ["tax"; "price"] false false true false 0%nat _
              eq_refl ledger_distinct (fun _ m _ => ledger_fresh m)
              ltac:(vm_compute; reflexivity)) as [_ Hfr].
  split; [reflexivity|].
  etransitivity; [exact Hfr|]. vm_compute. reflexivity.
Defined.

Lemma clean_money_then_types_witness :
  frames (mkHeap [ledger] []) !! 0%nat = Some ledger /\
  NoDup (df_names ledger) /\
  exists h1 r' h2,
    clean_money_columns sample_log seq_mean seq_std 0%nat ["tax"]
      false false true false (mkHeap [ledger] []) = (Ok 0%nat, h1) /\
    clean_types 0%nat false h1 = (Ok r', h2) /\
    option_map df_names (frames h2 !! r') =
      Some ["id"; "tax"; "price"; "note"; "tax_ind"].
Proof.
  split; [reflexivity|]. split; [exact ledger_distinct|]. eexists.
  destruct (clean_money_then_types sample_log seq_mean seq_std
      (mkHeap [ledger] [])
              0%nat ledger ["tax"] false false true false false 0%nat _
              eq_refl ledger_distinct (fun _ m _ => ledger_fresh m)
              ltac:(vm_compute; reflexivity)) as (r' & h2 & Hrun & _ & Hfr).
  exists r', h2. split; [reflexivity|]. split; [exact Hrun|].
  rewrite Hfr. vm_compute. reflexivity.
Defined.
